(** * Manifest generation of the offline-resources generator

    A shallow embedding of [PathUtils] (src/utils/pathUtils.js) and of
    [ManifestGenerator] (the manifest builder that imports it), with the
    properties of the manifest that the specification states.

    Conventions of the embedding:
    - a JavaScript string is the list of its code units; the code units
      are taken below 256, so a character is an [ascii];
    - [Constants.MEDIA_PREFIX] lives in constants.js, which is not part of
      the sources at hand: every function that reads it takes it as a
      parameter ([MEDIA_PREFIX], a Section variable);
    - the network probe, the dirty check of the working tree, the parsing
      of a date and the wall clock are the fields of a [World];
    - an [async] function is a function from the number of clock reads done
      so far to an [outcome]: a value with the new number of reads, a thrown
      exception, or exhausted fuel (the recursion on fragments has no
      structural bound). *)

From Stdlib Require Import List Ascii String ZArith Lia Bool.
Import ListNotations.

Local Open Scope Z_scope.
Local Open Scope list_scope.

(** ** The JavaScript string and Map operations the source relies on *)

Module JS.

Definition jsstring := list ascii.

(** A literal: [str "abc"] is the JavaScript string ['abc']. *)
Definition str (s : string) : jsstring := list_ascii_of_string s.

Definition jsstring_dec : forall a b : jsstring, {a = b} + {a <> b} :=
  list_eq_dec ascii_dec.

Definition eqb_str (a b : jsstring) : bool :=
  if jsstring_dec a b then true else false.

(** WhiteSpace and LineTerminator code units below 256: TAB, LF, VT, FF,
    CR, SP and NBSP. *)
Definition isWhiteSpace (c : ascii) : bool :=
  match N_of_ascii c with
  | 9%N | 10%N | 11%N | 12%N | 13%N | 32%N | 160%N => true
  | _ => false
  end.

Fixpoint trimStart (s : jsstring) : jsstring :=
  match s with
  | c :: s' => if isWhiteSpace c then trimStart s' else s
  | [] => []
  end.

Definition trimEnd (s : jsstring) : jsstring := rev (trimStart (rev s)).

(** [String.prototype.trim] *)
Definition trim (s : jsstring) : jsstring := trimEnd (trimStart s).

Fixpoint startsWith (s p : jsstring) : bool :=
  match p, s with
  | [], _ => true
  | _ :: _, [] => false
  | a :: p', b :: s' => if ascii_dec a b then startsWith s' p' else false
  end.

(** Position of the first occurrence of [p] in [s]. *)
Fixpoint firstOccurrence (s p : jsstring) : option nat :=
  if startsWith s p then Some 0%nat
  else match s with
       | [] => None
       | _ :: s' => option_map S (firstOccurrence s' p)
       end.

(** Position of the last occurrence of [p] in [s]. *)
Fixpoint lastOccurrence (s p : jsstring) : option nat :=
  match s with
  | [] => if startsWith s p then Some 0%nat else None
  | _ :: s' =>
      match lastOccurrence s' p with
      | Some i => Some (S i)
      | None => if startsWith s p then Some 0%nat else None
      end
  end.

Definition indexResult (o : option nat) : Z :=
  match o with
  | Some i => Z.of_nat i
  | None => -1
  end.

(** [s.indexOf(p)]: -1 when [p] does not occur. *)
Definition indexOf (s p : jsstring) : Z := indexResult (firstOccurrence s p).

(** [s.lastIndexOf(p)] *)
Definition lastIndexOf (s p : jsstring) : Z := indexResult (lastOccurrence s p).

(** [s.includes(p)] *)
Definition includes (s p : jsstring) : bool :=
  match firstOccurrence s p with
  | Some _ => true
  | None => false
  end.

(** Clamping of an index argument of [substring]: below 0 gives 0, above
    the length gives the length. *)
Definition clamp (s : jsstring) (i : Z) : nat :=
  Z.to_nat (Z.min (Z.max i 0) (Z.of_nat (List.length s))).

(** [s.substring(from, to)]: both ends clamped, swapped when out of order. *)
Definition substring (s : jsstring) (from to : Z) : jsstring :=
  let a := clamp s from in
  let b := clamp s to in
  firstn (Nat.max a b - Nat.min a b) (skipn (Nat.min a b) s).

(** [s.substring(from)] *)
Definition substringFrom (s : jsstring) (from : Z) : jsstring :=
  substring s from (Z.of_nat (List.length s)).

(** [s.slice(1)] *)
Definition slice1 (s : jsstring) : jsstring := skipn 1 s.

(** [s.split(sep)[0]] for a one-character separator. *)
Fixpoint splitHead (sep : ascii) (s : jsstring) : jsstring :=
  match s with
  | [] => []
  | c :: s' => if ascii_dec c sep then [] else c :: splitHead sep s'
  end.

(** [new Set(l)] read back with [Array.from]: the elements in the order of
    their first insertion. *)
Fixpoint newSetFrom (seen l : list jsstring) : list jsstring :=
  match l with
  | [] => []
  | x :: l' =>
      if in_dec jsstring_dec x seen then newSetFrom seen l'
      else x :: newSetFrom (x :: seen) l'
  end.

Definition newSet (l : list jsstring) : list jsstring := newSetFrom [] l.

(** A [Map] with string keys: the bindings in insertion order. *)
Definition Map (V : Type) := list (jsstring * V).

(** [m.set(k, v)]: an existing key keeps its place and takes the new
    value, a new key goes to the end. *)
Fixpoint mapSet {V} (m : Map V) (k : jsstring) (v : V) : Map V :=
  match m with
  | [] => [(k, v)]
  | (k', v') :: m' =>
      if jsstring_dec k' k then (k, v) :: m' else (k', v') :: mapSet m' k v
  end.

Fixpoint mapGet {V} (m : Map V) (k : jsstring) : option V :=
  match m with
  | [] => None
  | (k', v') :: m' => if jsstring_dec k' k then Some v' else mapGet m' k
  end.

(** [Array.from(m.values())] *)
Definition mapValues {V} (m : Map V) : list V := map snd m.

Definition mapKeys {V} (m : Map V) : list jsstring := map fst m.

End JS.

Import JS.

(** ** PathUtils *)

Module PathUtils.

Definition getParentFromPath (path : jsstring) : jsstring :=
  substring path 0 (lastIndexOf path (str "/")).

Definition getCurrentPathName (path : jsstring) : jsstring :=
  substringFrom path (lastIndexOf path (str "/") + 1).

(** An entry of the hierarchy of a path: [{title, path}]. *)
Record HierarchyEntry : Type := { title : jsstring; path : jsstring }.

(** The [while] loop of [getParentHierarchy] from [currentParent] on, the
    entries pushed so far being [hierarchy]; each turn takes one unit of
    fuel, and [None] is a loop that the fuel does not see the end of. *)
Fixpoint hierarchyLoop (fuel : nat) (currentParent : jsstring)
    (hierarchy : list HierarchyEntry) : option (list HierarchyEntry) :=
  if negb (eqb_str currentParent (str "/content"))
     && negb (eqb_str currentParent (str ""))
  then
    match fuel with
    | O => None
    | S fuel' =>
        let entry := {| title := getCurrentPathName currentParent;
                        path := currentParent |} in
        hierarchyLoop fuel' (getParentFromPath currentParent) (hierarchy ++ [entry])
    end
  else Some hierarchy.

Definition getParentHierarchy (fuel : nat) (path : jsstring)
  : option (list HierarchyEntry) :=
  let currentParent := getParentFromPath path in
  option_map (@rev HierarchyEntry) (hierarchyLoop fuel currentParent []).

Section WithConstants.

Variable MEDIA_PREFIX : jsstring.

Definition isMedia (resourcePath : jsstring) : bool :=
  includes (trim resourcePath) MEDIA_PREFIX.

Definition getHashFromMedia (resourcePath : jsstring) : jsstring :=
  let trimmedResourcePath := trim resourcePath in
  substring trimmedResourcePath
    (Z.of_nat (List.length MEDIA_PREFIX))
    (indexOf trimmedResourcePath (str ".")).

Definition extractMediaFromPath (resourcePath : jsstring) : jsstring :=
  let trimmedResourcePath := trim resourcePath in
  substringFrom trimmedResourcePath (indexOf trimmedResourcePath MEDIA_PREFIX).

Variable VIDEOS_IDENTIFIER : jsstring.

Definition isVideoUrl (url : jsstring) : bool :=
  includes (trim url) VIDEOS_IDENTIFIER.

End WithConstants.

End PathUtils.

(** ** The world around the generator *)

(** A JavaScript number as the generator meets it: the time value of a
    [Date], an integer number of milliseconds, or [NaN] for a date that
    does not parse. *)
Inductive number : Type :=
| NaN
| Num (z : Z).

(** [n > m] *)
Definition gtb (n : number) (m : Z) : bool :=
  match n with
  | Num z => m <? z
  | NaN => false
  end.

(** Truthiness of a number: neither 0 nor [NaN]. *)
Definition truthyNumber (n : number) : bool :=
  match n with
  | Num z => negb (z =? 0)
  | NaN => false
  end.

(** What a successful probe answers; the generator reads one header:
    [headers.get('last-modified')] is [null] when the header is absent. *)
Record Response : Type := { last_modified : option jsstring }.

(** Truthiness of a header value: [null] and the empty string are falsy. *)
Definition truthyHeader (h : option jsstring) : option jsstring :=
  match h with
  | Some (c :: d) => Some (c :: d)
  | _ => None
  end.

Record World : Type := {
  (** [FetchUtils.fetchDataWithMethod(host, path, method)]: [None] when the
      call throws, the resource not being available on the host *)
  fetchDataWithMethod : jsstring -> jsstring -> jsstring -> option Response;
  (** [GitUtils.isFileDirty(path)] *)
  isFileDirty : jsstring -> bool;
  (** [new Date(s).getTime()] *)
  dateGetTime : jsstring -> number;
  (** [new Date().getTime()], by the number of reads done before *)
  clock : nat -> Z
}.

Inductive exn : Type :=
| ResourceUnavailable (host path : jsstring)
| TypeError.

Inductive outcome (A : Type) : Type :=
| Ok (a : A)
| Throw (e : exn)
| OutOfFuel.

Arguments Ok {A} a.
Arguments Throw {A} e.
Arguments OutOfFuel {A}.

(** An asynchronous computation: from the clock reads done so far to its
    outcome and the clock reads done after it. *)
Definition async (A : Type) : Type := nat -> outcome (A * nat).

Definition ret {A} (a : A) : async A := fun t => Ok (a, t).

Definition bind {A B} (m : async A) (k : A -> async B) : async B :=
  fun t =>
    match m t with
    | Ok (a, t') => k a t'
    | Throw e => Throw e
    | OutOfFuel => OutOfFuel
    end.

Notation "'await' x <- m ;; k" := (bind m (fun x => k))
  (at level 61, x pattern, m at next level, right associativity).

(** [new Date().getTime()] *)
Definition now (w : World) : async Z := fun t => Ok (clock w t, S t).

(** ** ManifestGenerator *)

Module ManifestGenerator.

(** A manifest entry: [{path, timestamp?, hash?}]. *)
Record Entry : Type := {
  path : jsstring;
  timestamp : option number;
  hash : option jsstring
}.

Record Provider : Type := { name : jsstring; endpoint : jsstring }.

Record ContentDelivery : Type := {
  providers : list Provider;
  defaultProvider : jsstring
}.

Record Manifest : Type := {
  version : jsstring;
  manifestTimestamp : Z;
  entries : list Entry;
  contentDelivery : ContentDelivery
}.

(** The value of [manifestMap] at a page: its [path] and the category
    lists.  A category is a JSON text in the source, read once with
    [JSON.parse]; the embedding keeps the array it decodes to, and [None]
    for an absent category, which the destructuring defaults to ['[]']. *)
Record PageData : Type := {
  dataPath : jsstring;
  scripts : option (list jsstring);
  styles : option (list jsstring);
  assets : option (list jsstring);
  inlineImages : option (list jsstring);
  dependencies : option (list jsstring);
  fragments : option (list jsstring)
}.

Definition parsed (category : option (list jsstring)) : list jsstring :=
  match category with
  | Some l => l
  | None => []
  end.

Definition trimImagesPath (item : jsstring) : jsstring :=
  let trimmedItem := trim item in
  let isRelative :=
    match trimmedItem with
    | c :: _ => if ascii_dec c "."%char then true else false
    | [] => false
    end in
  let noDot := if isRelative then substringFrom trimmedItem 1 else trimmedItem in
  let noQuery := splitHead "?"%char noDot in
  noQuery.

Section WithConstants.

Variable MEDIA_PREFIX : jsstring.

Definition isMedia (path : jsstring) : bool := includes (trim path) MEDIA_PREFIX.

Definition getHashFromMedia (path : jsstring) : jsstring :=
  let path1 := trim path in
  substring path1 (Z.of_nat (List.length MEDIA_PREFIX)) (indexOf path1 (str ".")).

Definition extractMediaFromPath (path : jsstring) : jsstring :=
  substringFrom (trim path) (indexOf path MEDIA_PREFIX).

Variable w : World.

Definition HEAD : jsstring := str "HEAD".

(** [await FetchUtils.fetchDataWithMethod(host, path, 'HEAD')] outside of
    any [try]: an unavailable resource throws. *)
Definition fetchOrThrow (host path : jsstring) : async Response :=
  fun t =>
    match fetchDataWithMethod w host path HEAD with
    | Some resp => Ok (resp, t)
    | None => Throw (ResourceUnavailable host path)
    end.

Definition getPageJsonEntry (host path : jsstring) (isHtmlUpdated : bool)
  : async Entry :=
  let entryPath := path ++ str ".html" in
  await resp <- fetchOrThrow host entryPath ;;
  let date := truthyHeader (last_modified resp) in
  if isHtmlUpdated then
    await t <- now w ;;
    ret {| path := entryPath; timestamp := Some (Num t); hash := None |}
  else
    match date with
    | Some d =>
        ret {| path := entryPath; timestamp := Some (dateGetTime w d); hash := None |}
    | None => ret {| path := entryPath; timestamp := None; hash := None |}
    end.

(** One turn of the loop of [createEntries] on the resource [resource]:
    [None] is the [continue] of an unavailable resource that is not dirty,
    otherwise the entry pushed and the new [lastModified]. *)
Definition resourceEntry (host parentPath resource : jsstring) (lastModified : Z)
  : option (Entry * Z) :=
  let resourceSubPath := trim resource in
  let resp := fetchDataWithMethod w host resourceSubPath HEAD in
  let skipped :=
    match resp with
    | Some _ => false
    | None => negb (isFileDirty w (slice1 resourceSubPath))
    end in
  if skipped then None
  else
    let date :=
      match resp with
      | Some r => truthyHeader (last_modified r)
      | None => None
      end in
    if isMedia resourceSubPath then
      Some ({| path := parentPath ++ resource;
               timestamp := None;
               hash := Some (getHashFromMedia resourceSubPath) |},
            lastModified)
    else
      match date with
      | Some d =>
          let timestamp := dateGetTime w d in
          Some ({| path := resource; timestamp := Some timestamp; hash := None |},
                match timestamp with
                | Num z => if gtb timestamp lastModified then z else lastModified
                | NaN => lastModified
                end)
      | None =>
          Some ({| path := resource; timestamp := None; hash := None |},
                lastModified)
      end.

Fixpoint resourcesLoop (host parentPath : jsstring) (resourcesArr : list jsstring)
    (entriesJson : list Entry) (lastModified : Z) : list Entry * Z :=
  match resourcesArr with
  | [] => (entriesJson, lastModified)
  | resource :: rest =>
      match resourceEntry host parentPath resource lastModified with
      | None => resourcesLoop host parentPath rest entriesJson lastModified
      | Some (resourceEntry, lastModified') =>
          resourcesLoop host parentPath rest (entriesJson ++ [resourceEntry])
            lastModified'
      end
  end.

(** [pageResources] is the [Set] of the caller, as the list [Array.from]
    makes of it. *)
Definition createEntries (host path : jsstring) (pageResources : list jsstring)
    (isHtmlUpdated : bool) : async (list Entry * Z) :=
  let resourcesArr := pageResources in
  let parentPath := PathUtils.getParentFromPath path in
  await pageEntryJson <- getPageJsonEntry host path isHtmlUpdated ;;
  let lastModified :=
    match timestamp pageEntryJson with
    | Some (Num z) =>
        if truthyNumber (Num z) && gtb (Num z) 0 then z else 0
    | _ => 0
    end in
  ret (resourcesLoop host parentPath resourcesArr [pageEntryJson] lastModified).

(** The body of [newEntries.forEach]: a media path is rebased on the parent
    of the including page, then the entry is set under its path. *)
Definition rebase (path : jsstring) (entry : Entry) : Entry :=
  if isMedia (ManifestGenerator.path entry) then
    {| path := PathUtils.getParentFromPath path
               ++ extractMediaFromPath (ManifestGenerator.path entry);
       timestamp := timestamp entry;
       hash := hash entry |}
  else entry.

Definition setEntry (allEntries : Map Entry) (entry : Entry) : Map Entry :=
  mapSet allEntries (ManifestGenerator.path entry) entry.

Definition mergeFragmentEntry (path : jsstring) (allEntries : Map Entry)
    (entry : Entry) : Map Entry :=
  setEntry allEntries (rebase path entry).

(** The loop over [fragmentsList]; [recur] is [createManifest] itself with
    [host], [manifestMap] and [isHtmlUpdatedMap] fixed. *)
Fixpoint fragmentsLoop (recur : jsstring -> list jsstring -> async (Manifest * Z))
    (path : jsstring) (fragmentsList : list jsstring) (allEntries : Map Entry)
    (fragmentsLastModified : Z) : async (Map Entry * Z) :=
  match fragmentsList with
  | [] => ret (allEntries, fragmentsLastModified)
  | fragmentPath :: rest =>
      await r <- recur fragmentPath [fragmentPath ++ str ".plain.html"] ;;
      let '(m, fragmentLastModified) := r in
      fragmentsLoop recur path rest
        (fold_left (mergeFragmentEntry path) (entries m) allEntries)
        (Z.max fragmentsLastModified fragmentLastModified)
  end.

Definition franklin : ContentDelivery :=
  {| providers := [ {| name := str "franklin"; endpoint := str "/" |} ];
     defaultProvider := str "franklin" |}.

(** [manifestMap.get(path)]; destructuring [undefined] is a [TypeError]. *)
Definition getData (manifestMap : jsstring -> option PageData) (path : jsstring)
  : async PageData :=
  fun t =>
    match manifestMap path with
    | Some data => Ok (data, t)
    | None => Throw TypeError
    end.

(** The [Set] that [createManifest] makes of the category lists of a page
    and of [additionalAssets]. *)
Definition pageResourcesOf (data : PageData) (additionalAssets : list jsstring)
  : list jsstring :=
  let scriptsList := parsed (scripts data) in
  let stylesList := parsed (styles data) in
  let assetsList := map trimImagesPath (parsed (assets data)) in
  let inlineImagesList := map trimImagesPath (parsed (inlineImages data)) in
  let dependenciesList := parsed (dependencies data) in
  newSet (scriptsList ++ stylesList ++ assetsList ++ inlineImagesList
          ++ dependenciesList ++ additionalAssets).

(** [isHtmlUpdatedMap] is read for the truthiness of its value only. *)
Fixpoint createManifest (fuel : nat) (host : jsstring)
    (manifestMap : jsstring -> option PageData) (path : jsstring)
    (isHtmlUpdatedMap : jsstring -> bool) (additionalAssets : list jsstring)
  : async (Manifest * Z) :=
  match fuel with
  | O => fun _ => OutOfFuel
  | S fuel' =>
      await data <- getData manifestMap path ;;
      let pageResources := pageResourcesOf data additionalAssets in
      await r <- createEntries host (dataPath data) pageResources
                   (isHtmlUpdatedMap (dataPath data)) ;;
      let '(entries0, lastModified) := r in
      let allEntries := fold_left setEntry entries0 [] in
      let fragmentsList := parsed (fragments data) in
      await r' <- fragmentsLoop
                    (fun p extra =>
                       createManifest fuel' host manifestMap p isHtmlUpdatedMap extra)
                    path fragmentsList allEntries 0 ;;
      let '(allEntries', fragmentsLastModified) := r' in
      let manifestJson :=
        {| version := str "3.0";
           manifestTimestamp := Z.max lastModified fragmentsLastModified;
           entries := mapValues allEntries';
           contentDelivery := franklin |} in
      ret (manifestJson, Z.max lastModified fragmentsLastModified)
  end.

End WithConstants.

End ManifestGenerator.

Import ManifestGenerator.

(** ** Vocabulary of the properties *)

(** The timestamp of an entry when it is a number. *)
Definition numericTimestamp (e : Entry) : option Z :=
  match timestamp e with
  | Some (Num z) => Some z
  | _ => None
  end.

Definition numericTimestamps (l : list Entry) : list Z :=
  flat_map (fun e => match numericTimestamp e with
                     | Some z => [z]
                     | None => []
                     end) l.

(** The greatest of 0 and the numeric timestamps of [l]. *)
Fixpoint maxTimestamp (l : list Entry) : Z :=
  match l with
  | [] => 0
  | e :: l' =>
      match numericTimestamp e with
      | Some z => Z.max z (maxTimestamp l')
      | None => maxTimestamp l'
      end
  end.

(** [z] is the maximum of the integers of [l]. *)
Definition IsMaximumOf (z : Z) (l : list Z) : Prop :=
  In z l /\ forall x, In x l -> x <= z.

(** The last entry of [l] that has the path [p]. *)
Definition lastWithPath (l : list Entry) (p : jsstring) : option Entry :=
  find (fun e => eqb_str (path e) p) (rev l).

(** The entry of [l] that has the path [p], from the front. *)
Definition entryAt (l : list Entry) (p : jsstring) : option Entry :=
  find (fun e => eqb_str (path e) p) l.

(** An entry does not carry a hash and a timestamp together. *)
Definition exclusive (e : Entry) : Prop := hash e = None \/ timestamp e = None.

(** An entry as [createEntries] builds it for the host: the page entry of
    a page, which carries no hash; or the entry of a resource, which
    carries the hash of the resource path and no timestamp when that path
    is a media path, and no hash when it is not. *)
Definition classified (MEDIA_PREFIX : jsstring) (w : World) (host : jsstring)
    (b : Entry) : Prop :=
  (exists page isHtmlUpdated t t',
      getPageJsonEntry w host page isHtmlUpdated t = Ok (b, t')
      /\ hash b = None)
  \/ (exists parentPath resource lastModified lastModified',
         resourceEntry MEDIA_PREFIX w host parentPath resource lastModified
         = Some (b, lastModified')
         /\ if isMedia MEDIA_PREFIX (trim resource)
            then timestamp b = None
                 /\ hash b = Some (getHashFromMedia MEDIA_PREFIX (trim resource))
            else hash b = None).

(** [e] carries the timestamp and the hash of one of the entries of
    [built]. *)
Definition carriedFrom (built : list Entry) (e : Entry) : Prop :=
  exists b, In b built /\ timestamp e = timestamp b /\ hash e = hash b.

(** Every value of the map sits under its own path. *)
Definition keyedByPath (m : Map Entry) : Prop :=
  Forall (fun kv => path (snd kv) = fst kv) m.

(** Two maps with the same keys in the same order and values related by
    [R]. *)
Definition entryMapsAlike (R : Entry -> Entry -> Prop) (m1 m2 : Map Entry) : Prop :=
  Forall2 (fun kv1 kv2 => fst kv1 = fst kv2 /\ R (snd kv1) (snd kv2)) m1 m2.

(** The same world with another wall clock. *)
Definition withClock (w : World) (c : nat -> Z) : World :=
  {| fetchDataWithMethod := fetchDataWithMethod w;
     isFileDirty := isFileDirty w;
     dateGetTime := dateGetTime w;
     clock := c |}.

(** [e] is the entry [b] after the merge of the fragments moved it zero
    or more times. *)
Inductive rebasedFrom (MEDIA_PREFIX : jsstring) (b : Entry) : Entry -> Prop :=
| rebased_none : rebasedFrom MEDIA_PREFIX b b
| rebased_step (page : jsstring) (e : Entry) :
    rebasedFrom MEDIA_PREFIX b e ->
    rebasedFrom MEDIA_PREFIX b (rebase MEDIA_PREFIX page e).

(** Two entries of two runs in the world [w] and in the same world under
    the clock [c2], both runs going from the clock read [t0] to the clock
    read [t1]: the same path and hash, and the same timestamp unless the
    two entries are the page entry of a page [p] flagged as updated, which
    [getPageJsonEntry] built in each run at the same clock read [i] of the
    run and the merge of the fragments moved; such entries carry no hash,
    and their timestamps are the read [i] of each clock. *)
Definition sameButClock (MEDIA_PREFIX : jsstring) (w : World) (c2 : nat -> Z)
    (host : jsstring) (isHtmlUpdatedMap : jsstring -> bool) (t0 t1 : nat)
    (e1 e2 : Entry) : Prop :=
  path e1 = path e2 /\ hash e1 = hash e2 /\
  (timestamp e1 = timestamp e2 \/
   exists p i b1 b2,
     isHtmlUpdatedMap p = true
     /\ (t0 <= i < t1)%nat
     /\ getPageJsonEntry w host p true i = Ok (b1, S i)
     /\ getPageJsonEntry (withClock w c2) host p true i = Ok (b2, S i)
     /\ rebasedFrom MEDIA_PREFIX b1 e1
     /\ rebasedFrom MEDIA_PREFIX b2 e2
     /\ hash e1 = None
     /\ timestamp e1 = Some (Num (clock w i))
     /\ timestamp e2 = Some (Num (c2 i))).

(** Two outcomes that throw or run out of fuel alike, or return, after the
    same number of clock reads, values that [R] relates at that number. *)
Definition outcomesAlike {A B} (R : nat -> A -> B -> Prop)
    (o1 : outcome (A * nat)) (o2 : outcome (B * nat)) : Prop :=
  match o1, o2 with
  | Ok (a, t1), Ok (b, t2) => t1 = t2 /\ R t1 a b
  | Throw e1, Throw e2 => e1 = e2
  | OutOfFuel, OutOfFuel => True
  | _, _ => False
  end.

(** The reading of [mediaHash] in the specification: the substring of the
    trimmed path between the first occurrence of the marker and the first
    ['.'] after the marker. *)
Definition hashBetweenMarkerAndDot (MEDIA_PREFIX path : jsstring) : option jsstring :=
  let trimmed := trim path in
  match firstOccurrence trimmed MEDIA_PREFIX with
  | Some i =>
      let afterMarker := skipn (i + List.length MEDIA_PREFIX) trimmed in
      match firstOccurrence afterMarker (str ".") with
      | Some j => Some (firstn j afterMarker)
      | None => None
      end
  | None => None
  end.

(** A string of whitespace, and a string without any. *)
Definition blank (s : jsstring) : Prop := Forall (fun c => isWhiteSpace c = true) s.

Definition solid (s : jsstring) : Prop := Forall (fun c => isWhiteSpace c = false) s.

(** [a] is [b] cut before one of its separators. *)
Definition ancestorOf (a b : jsstring) : Prop := exists rest, b = a ++ str "/" ++ rest.

(** An entry that the loop of [getParentHierarchy] pushes when it is at
    [below] or above it. *)
Definition hierarchyEntryOk (below : jsstring) (e : PathUtils.HierarchyEntry) : Prop :=
  (PathUtils.path e = below \/ ancestorOf (PathUtils.path e) below)
  /\ PathUtils.title e = PathUtils.getCurrentPathName (PathUtils.path e)
  /\ PathUtils.path e <> str "/content"
  /\ PathUtils.path e <> [].

(** The probe of a resource fails and the resource is not dirty. *)
Definition resourceSkipped (w : World) (host resource : jsstring) : bool :=
  match fetchDataWithMethod w host (trim resource) HEAD with
  | Some _ => false
  | None => negb (isFileDirty w (slice1 (trim resource)))
  end.

(** The path under which a resource is listed. *)
Definition resourcePath (MEDIA_PREFIX parentPath resource : jsstring) : jsstring :=
  if isMedia MEDIA_PREFIX (trim resource) then parentPath ++ resource else resource.

(** The entries that a resource adds to the list of [createEntries]. *)
Definition entriesOfResource (MEDIA_PREFIX : jsstring) (w : World)
    (host parentPath resource : jsstring) : list Entry :=
  match resourceEntry MEDIA_PREFIX w host parentPath resource 0 with
  | Some (e, _) => [e]
  | None => []
  end.

(** [f] is one of the fragments of the page [p]. *)
Definition fragmentOf (manifestMap : jsstring -> option PageData) (p f : jsstring)
  : Prop :=
  exists data, manifestMap p = Some data /\ In f (parsed (fragments data)).

(** *** The entries a call works on *)

Module Trace.

Section Traces.

Variable MEDIA_PREFIX : jsstring.
Variable w : World.

(** The entries of the fragments of a page in the order in which the loop
    of [createManifest] sets them into [allEntries], media paths rebased. *)
Fixpoint fragmentEntries (recur : jsstring -> list jsstring -> async (Manifest * Z))
    (path : jsstring) (fragmentsList : list jsstring) : async (list Entry) :=
  match fragmentsList with
  | [] => ret []
  | fragmentPath :: rest =>
      await r <- recur fragmentPath [fragmentPath ++ str ".plain.html"] ;;
      await l <- fragmentEntries recur path rest ;;
      ret (map (rebase MEDIA_PREFIX path) (entries (fst r)) ++ l)
  end.

(** Every entry that one call of [createManifest] passes to
    [allEntries.set], in the order of the calls: the entries of
    [createEntries] (the page entry, then the resources), then the entries
    of each fragment in the order of the fragment list. *)
Definition processedEntries (fuel : nat) (host : jsstring)
    (manifestMap : jsstring -> option PageData) (path : jsstring)
    (isHtmlUpdatedMap : jsstring -> bool) (additionalAssets : list jsstring)
  : async (list Entry) :=
  match fuel with
  | O => fun _ => OutOfFuel
  | S fuel' =>
      await data <- getData manifestMap path ;;
      await r <- createEntries MEDIA_PREFIX w host (dataPath data)
                   (pageResourcesOf data additionalAssets)
                   (isHtmlUpdatedMap (dataPath data)) ;;
      await l <- fragmentEntries
                   (fun p extra =>
                      createManifest MEDIA_PREFIX w fuel' host manifestMap p
                        isHtmlUpdatedMap extra)
                   path (parsed (fragments data)) ;;
      ret (fst r ++ l)
  end.

Fixpoint builtInFragments (recur : jsstring -> list jsstring -> async (list Entry))
    (fragmentsList : list jsstring) : async (list Entry) :=
  match fragmentsList with
  | [] => ret []
  | fragmentPath :: rest =>
      await l1 <- recur fragmentPath [fragmentPath ++ str ".plain.html"] ;;
      await l2 <- builtInFragments recur rest ;;
      ret (l1 ++ l2)
  end.

(** Every entry that [createEntries] builds during one call of
    [createManifest], at any depth of the recursion on fragments, whether
    or not a later entry of the same path replaces it: the entries of the
    page, then those of each fragment in turn. *)
Fixpoint builtEntries (fuel : nat) (host : jsstring)
    (manifestMap : jsstring -> option PageData) (path : jsstring)
    (isHtmlUpdatedMap : jsstring -> bool) (additionalAssets : list jsstring)
  : async (list Entry) :=
  match fuel with
  | O => fun _ => OutOfFuel
  | S fuel' =>
      await data <- getData manifestMap path ;;
      await r <- createEntries MEDIA_PREFIX w host (dataPath data)
                   (pageResourcesOf data additionalAssets)
                   (isHtmlUpdatedMap (dataPath data)) ;;
      await l <- builtInFragments
                   (fun p extra =>
                      builtEntries fuel' host manifestMap p isHtmlUpdatedMap extra)
                   (parsed (fragments data)) ;;
      ret (fst r ++ l)
  end.

End Traces.

End Trace.

Import Trace.

(** ** A site to run the generator on *)

Module Site.

(** Modelled from the spec: [Constants.MEDIA_PREFIX], a constant of
    constants.js, which is not among the sources; the media path that the
    specification gives as its example is "/media_1234.png". *)
Definition MEDIA_PREFIX : jsstring := str "/media_".

Definition host : jsstring := str "https://main--site--org.hlx.live".

Definition jan2024 : jsstring := str "Mon, 01 Jan 2024 00:00:00 GMT".
Definition dec1969 : jsstring := str "Wed, 31 Dec 1969 23:59:59 GMT".
Definition feb2024 : jsstring := str "Thu, 01 Feb 2024 00:00:00 GMT".

Definition answers (p : jsstring) : option Response :=
  if eqb_str p (str "/a/b/page.html") then Some {| last_modified := Some jan2024 |}
  else if eqb_str p (str "/f.html") then Some {| last_modified := Some feb2024 |}
  else if eqb_str p (str "/old.html") then Some {| last_modified := Some dec1969 |}
  else if eqb_str p (str "/plain.html") then Some {| last_modified := None |}
  else if eqb_str p (str "/media_12.png") then Some {| last_modified := None |}
  else if eqb_str p (str "/scripts/app.js") then Some {| last_modified := Some jan2024 |}
  else None.

Definition world : World :=
  {| fetchDataWithMethod := fun _ p _ => answers p;
     isFileDirty := fun _ => false;
     dateGetTime := fun d =>
       if eqb_str d jan2024 then Num 1704067200000
       else if eqb_str d feb2024 then Num 1706745600000
       else if eqb_str d dec1969 then Num (-1000)
       else NaN;
     clock := fun n => 1710000000000 + Z.of_nat n |}.

Definition page (p : jsstring) (deps frags : list jsstring) : PageData :=
  {| dataPath := p;
     scripts := None; styles := None; assets := None; inlineImages := None;
     dependencies := Some deps;
     fragments := Some frags |}.

Definition manifestMap (p : jsstring) : option PageData :=
  if eqb_str p (str "/a/b/page") then
    Some (page (str "/a/b/page") [str "/scripts/app.js"] [str "/f"])
  else if eqb_str p (str "/f") then
    Some (page (str "/f") [str "/f.html"; str " /media_12.png"; str "/gone.js"] [])
  else if eqb_str p (str "/old") then Some (page (str "/old") [] [])
  else if eqb_str p (str "/plain") then Some (page (str "/plain") [] [])
  else if eqb_str p (str "/draft") then Some (page (str "/draft") [] [])
  else None.

Definition noneUpdated (p : jsstring) : bool := false.

Definition fragmentUpdated (p : jsstring) : bool := eqb_str p (str "/f").

End Site.

(** ** A working copy with local changes and broken links *)

Module Workspace.

Definition MEDIA_PREFIX : jsstring := Site.MEDIA_PREFIX.

Definition host : jsstring := Site.host.

Definition answers (p : jsstring) : option Response :=
  if eqb_str p (str "/home.html") then Some {| last_modified := Some Site.jan2024 |}
  else if eqb_str p (str "/loop.html") then Some {| last_modified := None |}
  else if eqb_str p (str "/broken.html") then Some {| last_modified := None |}
  else if eqb_str p (str "/teaser.html") then Some {| last_modified := None |}
  else if eqb_str p (str "/scripts/app.js") then
    Some {| last_modified := Some Site.feb2024 |}
  else if eqb_str p (str "/media_77.jpg") then Some {| last_modified := None |}
  else None.

(** [styles/local.css] is changed in the working tree and not on the host. *)
Definition world : World :=
  {| fetchDataWithMethod := fun _ p _ => answers p;
     isFileDirty := fun p => eqb_str p (str "styles/local.css");
     dateGetTime := dateGetTime Site.world;
     clock := clock Site.world |}.

Definition home : PageData :=
  {| dataPath := str "/home";
     scripts := Some [str "/scripts/app.js"];
     styles := Some [str "/styles/local.css"; str "/styles/gone.css"];
     assets := Some [str " ./media_77.jpg?width=750 "];
     inlineImages := Some [str "./media_77.jpg"];
     dependencies := Some [str "/scripts/app.js"];
     fragments := None |}.

Definition manifestMap (p : jsstring) : option PageData :=
  if eqb_str p (str "/home") then Some home
  else if eqb_str p (str "/loop") then
    Some (Site.page (str "/loop") [] [str "/loop"])
  else if eqb_str p (str "/broken") then
    Some (Site.page (str "/broken") [] [str "/missing"])
  else if eqb_str p (str "/teaser") then
    Some (Site.page (str "/teaser") [] [str "/unpublished"])
  else if eqb_str p (str "/unpublished") then
    Some (Site.page (str "/unpublished") [] [])
  else None.

End Workspace.

(** ** Facts on the string operations *)

Module JSFacts.

Lemma trimStart_split (s : jsstring) :
  exists ws, s = ws ++ trimStart s /\ Forall (fun c => isWhiteSpace c = true) ws.
Proof.
  induction s as [|c s IH]; simpl.
  - exists []. split; [reflexivity | constructor].
  - destruct (isWhiteSpace c) eqn:Hc.
    + destruct IH as (ws & Hs & Hws).
      exists (c :: ws). split.
      * simpl. f_equal. exact Hs.
      * constructor; assumption.
    + exists []. split; [reflexivity | constructor].
Qed.

Lemma trimEnd_split (s : jsstring) :
  exists ws, s = trimEnd s ++ ws /\ Forall (fun c => isWhiteSpace c = true) ws.
Proof.
  destruct (trimStart_split (rev s)) as (ws & Hs & Hws).
  exists (rev ws). split.
  - unfold trimEnd. rewrite <- rev_app_distr, <- Hs, rev_involutive. reflexivity.
  - apply Forall_rev. exact Hws.
Qed.

Lemma startsWith_app (p s : jsstring) : startsWith (p ++ s) p = true.
Proof.
  induction p as [|a p IH]; simpl.
  - destruct s; reflexivity.
  - destruct (ascii_dec a a); [exact IH | congruence].
Qed.

Lemma startsWith_nil (s : jsstring) : startsWith s [] = true.
Proof. destruct s; reflexivity. Qed.

(** Whitespace after [s] does not let a marker without whitespace start. *)
Lemma startsWith_padded (p s ws : jsstring) :
  Forall (fun c => isWhiteSpace c = false) p ->
  Forall (fun c => isWhiteSpace c = true) ws ->
  startsWith (s ++ ws) p = startsWith s p.
Proof.
  intros Hp Hws. revert p Hp.
  induction s as [|b s IH]; intros p Hp.
  - destruct p as [|a p]; simpl.
    + rewrite startsWith_nil. reflexivity.
    + destruct ws as [|x ws]; [reflexivity|].
      simpl. destruct (ascii_dec a x) as [->|]; [|reflexivity].
      inversion Hp; inversion Hws; subst. congruence.
  - destruct p as [|a p]; [reflexivity|].
    simpl. destruct (ascii_dec a b); [|reflexivity].
    apply IH. inversion Hp; assumption.
Qed.

Lemma firstOccurrence_padded (p s ws : jsstring) :
  Forall (fun c => isWhiteSpace c = false) p ->
  Forall (fun c => isWhiteSpace c = true) ws ->
  firstOccurrence (s ++ ws) p = firstOccurrence s p.
Proof.
  intros Hp Hws.
  induction s as [|b s IH].
  - simpl app. induction ws as [|x ws IHws]; [reflexivity|].
    change (firstOccurrence [] p) with (if startsWith [] p then Some 0%nat else None) in *.
    cbn [firstOccurrence].
    rewrite <- (app_nil_l (x :: ws)) at 1.
    rewrite (startsWith_padded p [] (x :: ws) Hp Hws).
    destruct (startsWith [] p) eqn:E; [reflexivity|].
    rewrite IHws by (inversion Hws; assumption). reflexivity.
  - cbn [firstOccurrence app].
    change (b :: s ++ ws) with ((b :: s) ++ ws).
    rewrite (startsWith_padded p (b :: s) ws Hp Hws), IH. reflexivity.
Qed.

Lemma clamp_of_nat (s : jsstring) (i : nat) :
  clamp s (Z.of_nat i) = Nat.min i (List.length s).
Proof. unfold clamp. lia. Qed.

Lemma clamp_negative (s : jsstring) (i : Z) : i <= 0 -> clamp s i = 0%nat.
Proof. unfold clamp. lia. Qed.

Lemma substring_within (s : jsstring) (i j : nat) :
  (i <= j)%nat -> (j <= List.length s)%nat ->
  substring s (Z.of_nat i) (Z.of_nat j) = firstn (j - i) (skipn i s).
Proof.
  intros Hij Hj. unfold substring. rewrite !clamp_of_nat.
  replace (Nat.min i (List.length s)) with i by lia.
  replace (Nat.min j (List.length s)) with j by lia.
  replace (Nat.max i j) with j by lia.
  replace (Nat.min i j) with i by lia.
  reflexivity.
Qed.

Lemma substringFrom_of_nat (s : jsstring) (i : nat) :
  substringFrom s (Z.of_nat i) = skipn i s.
Proof.
  unfold substringFrom, substring. rewrite !clamp_of_nat.
  rewrite Nat.min_id.
  destruct (Nat.le_gt_cases i (List.length s)) as [Hle|Hgt].
  - replace (Nat.min i (List.length s)) with i by lia.
    replace (Nat.max i (List.length s)) with (List.length s) by lia.
    replace (Nat.min i (List.length s)) with i by lia.
    apply firstn_all2. rewrite length_skipn. lia.
  - replace (Nat.min i (List.length s)) with (List.length s) by lia.
    rewrite Nat.max_id, Nat.min_id, Nat.sub_diag.
    simpl. symmetry. apply skipn_all2. lia.
Qed.

Lemma substringFrom_absent (s : jsstring) : substringFrom s (-1) = s.
Proof.
  unfold substringFrom, substring.
  rewrite (clamp_negative s (-1)) by lia.
  rewrite clamp_of_nat, Nat.min_id. simpl.
  rewrite Nat.sub_0_r. apply firstn_all.
Qed.

(** [substring] from an index, by what [indexOf] answered. *)
Lemma substringFrom_indexResult (s : jsstring) (o : option nat) :
  substringFrom s (indexResult o) =
  match o with
  | Some i => skipn i s
  | None => s
  end.
Proof.
  destruct o as [i|]; simpl.
  - apply substringFrom_of_nat.
  - apply substringFrom_absent.
Qed.

Lemma firstOccurrence_char (a rest : jsstring) (c : ascii) :
  ~ In c a -> firstOccurrence (a ++ c :: rest) [c] = Some (List.length a).
Proof.
  induction a as [|b a IH]; intros Hin.
  - simpl. destruct (ascii_dec c c); [|congruence].
    rewrite startsWith_nil. reflexivity.
  - cbn [firstOccurrence app startsWith].
    destruct (ascii_dec c b) as [->|Hne].
    + exfalso. apply Hin. left. reflexivity.
    + rewrite IH by (intros H; apply Hin; right; exact H). reflexivity.
Qed.

Lemma firstOccurrence_prefix (p s : jsstring) :
  firstOccurrence (p ++ s) p = Some 0%nat.
Proof.
  destruct (p ++ s) eqn:E; cbn [firstOccurrence];
    rewrite <- E, startsWith_app; reflexivity.
Qed.

End JSFacts.

Import JSFacts.

(** ** The path helpers *)

Lemma indexOf_untrimmed (MEDIA_PREFIX s : jsstring) :
  Forall (fun c => isWhiteSpace c = false) MEDIA_PREFIX ->
  trimStart s = s ->
  indexOf s MEDIA_PREFIX = indexOf (trim s) MEDIA_PREFIX.
Proof.
  intros Hp Hs. unfold indexOf, trim. rewrite Hs.
  destruct (trimEnd_split s) as (ws & Hsplit & Hws).
  rewrite Hsplit at 1.
  rewrite (firstOccurrence_padded MEDIA_PREFIX (trimEnd s) ws Hp Hws). reflexivity.
Qed.

(** C10: on a string without leading whitespace, and for a marker without
    whitespace, the helper duplicated in ManifestGenerator returns what
    PathUtils.extractMediaFromPath returns, and that is the trimmed string
    from its first marker on, or the whole trimmed string when it has no
    marker. *)
Theorem extractMediaFromPath_duplicate_agrees (MEDIA_PREFIX s : jsstring) :
  Forall (fun c => isWhiteSpace c = false) MEDIA_PREFIX ->
  trimStart s = s ->
  ManifestGenerator.extractMediaFromPath MEDIA_PREFIX s
  = PathUtils.extractMediaFromPath MEDIA_PREFIX s
  /\ PathUtils.extractMediaFromPath MEDIA_PREFIX s
     = match firstOccurrence (trim s) MEDIA_PREFIX with
       | Some i => skipn i (trim s)
       | None => trim s
       end.
Proof.
  intros Hp Hs. split.
  - unfold ManifestGenerator.extractMediaFromPath, PathUtils.extractMediaFromPath.
    rewrite (indexOf_untrimmed MEDIA_PREFIX s Hp Hs). reflexivity.
  - unfold PathUtils.extractMediaFromPath, indexOf.
    apply substringFrom_indexResult.
Qed.

Lemma extractMediaFromPath_duplicate_agrees_witness :
  ManifestGenerator.extractMediaFromPath Site.MEDIA_PREFIX (str "/f/media_12.png  ")
  = PathUtils.extractMediaFromPath Site.MEDIA_PREFIX (str "/f/media_12.png  ")
  /\ PathUtils.extractMediaFromPath Site.MEDIA_PREFIX (str "/f/media_12.png  ")
     = match firstOccurrence (trim (str "/f/media_12.png  ")) Site.MEDIA_PREFIX with
       | Some i => skipn i (trim (str "/f/media_12.png  "))
       | None => trim (str "/f/media_12.png  ")
       end.
Proof.
  apply (extractMediaFromPath_duplicate_agrees Site.MEDIA_PREFIX (str "/f/media_12.png  ")).
  - repeat constructor.
  - reflexivity.
Defined.

(** With leading whitespace the two helpers part: the duplicate cuts the
    trimmed string at the index the marker has in the untrimmed one. *)
Example extractMediaFromPath_leading_space :
  ManifestGenerator.extractMediaFromPath Site.MEDIA_PREFIX (str " /media_12.png")
  = str "media_12.png"
  /\ PathUtils.extractMediaFromPath Site.MEDIA_PREFIX (str " /media_12.png")
     = str "/media_12.png".
Proof. split; reflexivity. Qed.

Lemma getHashFromMedia_same (MEDIA_PREFIX path : jsstring) :
  ManifestGenerator.getHashFromMedia MEDIA_PREFIX path
  = PathUtils.getHashFromMedia MEDIA_PREFIX path.
Proof. reflexivity. Qed.

Lemma isMedia_same (MEDIA_PREFIX path : jsstring) :
  ManifestGenerator.isMedia MEDIA_PREFIX path = PathUtils.isMedia MEDIA_PREFIX path.
Proof. reflexivity. Qed.

(** When the trimmed path begins with the marker and its first '.' comes
    after the marker, getHashFromMedia (in ManifestGenerator and in
    PathUtils) returns the substring between the marker and that '.': there
    the count of the marker's characters from the start of the path is the
    place where the marker ends. *)
Lemma getHashFromMedia_marker_first (MEDIA_PREFIX path h rest : jsstring) :
  trim path = MEDIA_PREFIX ++ h ++ str "." ++ rest ->
  ~ In "."%char (MEDIA_PREFIX ++ h) ->
  ManifestGenerator.getHashFromMedia MEDIA_PREFIX path = h
  /\ PathUtils.getHashFromMedia MEDIA_PREFIX path = h
  /\ ManifestGenerator.isMedia MEDIA_PREFIX path = true
  /\ hashBetweenMarkerAndDot MEDIA_PREFIX path = Some h.
Proof.
  intros Htrim Hdot.
  assert (Hhash : ManifestGenerator.getHashFromMedia MEDIA_PREFIX path = h).
  { unfold ManifestGenerator.getHashFromMedia, indexOf. rewrite Htrim.
    rewrite app_assoc. change (str "." ++ rest) with ("."%char :: rest).
    rewrite (firstOccurrence_char (MEDIA_PREFIX ++ h) rest "."%char Hdot : firstOccurrence _ (str ".") = _).
    cbn [indexResult].
    rewrite substring_within.
    - rewrite length_app.
      replace (List.length MEDIA_PREFIX + List.length h - List.length MEDIA_PREFIX)%nat
        with (List.length h) by lia.
      rewrite <- app_assoc, skipn_app, skipn_all, Nat.sub_diag. simpl.
      rewrite firstn_app, firstn_all, Nat.sub_diag. simpl. apply app_nil_r.
    - rewrite length_app. lia.
    - rewrite !length_app. lia. }
  repeat split.
  - exact Hhash.
  - rewrite <- getHashFromMedia_same. exact Hhash.
  - unfold ManifestGenerator.isMedia, includes.
    rewrite Htrim, firstOccurrence_prefix. reflexivity.
  - unfold hashBetweenMarkerAndDot. rewrite Htrim, firstOccurrence_prefix.
    cbn [Nat.add]. rewrite skipn_app, skipn_all, Nat.sub_diag. simpl skipn.
    cbn [app]. change (str "." ++ rest) with ("."%char :: rest).
    assert (Hh : ~ In "."%char h).
    { intros H. apply Hdot. apply in_or_app. right. exact H. }
    rewrite (firstOccurrence_char h rest "."%char Hh : firstOccurrence _ (str ".") = _).
    rewrite firstn_app, firstn_all, Nat.sub_diag. simpl. rewrite app_nil_r.
    reflexivity.
Qed.

Lemma getHashFromMedia_marker_first_witness :
  ManifestGenerator.getHashFromMedia Site.MEDIA_PREFIX (str " /media_1234.png ") = str "1234"
  /\ PathUtils.getHashFromMedia Site.MEDIA_PREFIX (str " /media_1234.png ") = str "1234"
  /\ ManifestGenerator.isMedia Site.MEDIA_PREFIX (str " /media_1234.png ") = true
  /\ hashBetweenMarkerAndDot Site.MEDIA_PREFIX (str " /media_1234.png ") = Some (str "1234").
Proof.
  apply (getHashFromMedia_marker_first Site.MEDIA_PREFIX (str " /media_1234.png ")
           (str "1234") (str "png")).
  - reflexivity.
  - intros H. vm_compute in H. intuition discriminate.
Defined.

(** C4: the hash of a media path is the substring between the marker and
    the first '.' after it. The code breaks this on the media path
    "/a/media_12.png" with the marker "/media_": isMedia accepts the path
    and extractMediaFromPath finds the marker inside it, the substring
    between the marker and the '.' is "12", and getHashFromMedia (in
    ManifestGenerator and in PathUtils) returns "a_12", because it starts
    at the length of the marker and not where the marker ends. *)
Theorem getHashFromMedia_marker_inside :
  ManifestGenerator.isMedia Site.MEDIA_PREFIX (str "/a/media_12.png") = true
  /\ PathUtils.isMedia Site.MEDIA_PREFIX (str "/a/media_12.png") = true
  /\ ManifestGenerator.extractMediaFromPath Site.MEDIA_PREFIX (str "/a/media_12.png")
     = str "/media_12.png"
  /\ PathUtils.extractMediaFromPath Site.MEDIA_PREFIX (str "/a/media_12.png")
     = str "/media_12.png"
  /\ hashBetweenMarkerAndDot Site.MEDIA_PREFIX (str "/a/media_12.png") = Some (str "12")
  /\ ManifestGenerator.getHashFromMedia Site.MEDIA_PREFIX (str "/a/media_12.png") = str "a_12"
  /\ PathUtils.getHashFromMedia Site.MEDIA_PREFIX (str "/a/media_12.png") = str "a_12"
  /\ Some (ManifestGenerator.getHashFromMedia Site.MEDIA_PREFIX (str "/a/media_12.png"))
     <> hashBetweenMarkerAndDot Site.MEDIA_PREFIX (str "/a/media_12.png").
Proof.
  repeat split; try reflexivity.
  vm_compute. discriminate.
Qed.

(** ** Asynchronous computations *)

Lemma bind_Ok {A B} (m : async A) (k : A -> async B) (t : nat) (r : B * nat) :
  bind m k t = Ok r -> exists a t1, m t = Ok (a, t1) /\ k a t1 = Ok r.
Proof.
  unfold bind. destruct (m t) as [[a t1]| |]; try discriminate.
  intros H. exists a, t1. split; [reflexivity | exact H].
Qed.

Lemma ret_Ok {A} (a : A) (t : nat) (r : A * nat) : ret a t = Ok r -> r = (a, t).
Proof. unfold ret. congruence. Qed.

Lemma getData_Ok manifestMap path t data t' :
  getData manifestMap path t = Ok (data, t') -> manifestMap path = Some data /\ t' = t.
Proof.
  unfold getData. destruct (manifestMap path); [|discriminate].
  intros H. inversion H. split; reflexivity.
Qed.

(** Takes a computation that returned apart, one [await] at a time. *)
Ltac unbind H :=
  let a := fresh "a" in
  let t := fresh "t" in
  let Hm := fresh "Hm" in
  apply bind_Ok in H; destruct H as (a & t & Hm & H).

Section Timestamps.

Variable MEDIA_PREFIX : jsstring.
Variable w : World.

Abbreviation getPageJsonEntry := (getPageJsonEntry w).
Abbreviation resourceEntry := (resourceEntry MEDIA_PREFIX w).
Abbreviation resourcesLoop := (resourcesLoop MEDIA_PREFIX w).
Abbreviation createEntries := (createEntries MEDIA_PREFIX w).
Abbreviation createManifest := (createManifest MEDIA_PREFIX w).
Abbreviation builtEntries := (builtEntries MEDIA_PREFIX w).
Abbreviation processedEntries := (processedEntries MEDIA_PREFIX w).
Abbreviation rebase := (rebase MEDIA_PREFIX).
Abbreviation mergeFragmentEntry := (mergeFragmentEntry MEDIA_PREFIX).
Abbreviation fragmentsLoop := (fragmentsLoop MEDIA_PREFIX).

(** *** The page entry *)

Lemma getPageJsonEntry_available host path isHtmlUpdated t resp :
  fetchDataWithMethod w host (path ++ str ".html") HEAD = Some resp ->
  getPageJsonEntry host path isHtmlUpdated t
  = Ok ({| ManifestGenerator.path := path ++ str ".html";
           timestamp :=
             if isHtmlUpdated then Some (Num (clock w t))
             else option_map (dateGetTime w) (truthyHeader (last_modified resp));
           hash := None |},
        if isHtmlUpdated then S t else t).
Proof.
  intros Hf. unfold ManifestGenerator.getPageJsonEntry, bind, fetchOrThrow.
  rewrite Hf. destruct isHtmlUpdated; [reflexivity|].
  destruct (truthyHeader (last_modified resp)); reflexivity.
Qed.

Lemma getPageJsonEntry_unavailable host path isHtmlUpdated t :
  fetchDataWithMethod w host (path ++ str ".html") HEAD = None ->
  getPageJsonEntry host path isHtmlUpdated t
  = Throw (ResourceUnavailable host (path ++ str ".html")).
Proof.
  intros Hf. unfold ManifestGenerator.getPageJsonEntry, bind, fetchOrThrow.
  rewrite Hf. reflexivity.
Qed.

Lemma getPageJsonEntry_Ok host path isHtmlUpdated t e t' :
  getPageJsonEntry host path isHtmlUpdated t = Ok (e, t') ->
  ManifestGenerator.path e = path ++ str ".html" /\ hash e = None.
Proof.
  destruct (fetchDataWithMethod w host (path ++ str ".html") HEAD) as [resp|] eqn:Hf.
  - rewrite (getPageJsonEntry_available _ _ _ _ _ Hf). intros H. inversion H.
    split; reflexivity.
  - rewrite (getPageJsonEntry_unavailable _ _ _ _ Hf). discriminate.
Qed.

(** *** Timestamps *)

Lemma maxTimestamp_app (a b : list Entry) :
  maxTimestamp (a ++ b) = Z.max (maxTimestamp a) (maxTimestamp b).
Proof.
  induction a as [|e a IH]; simpl.
  - destruct b as [|e b]; simpl; [reflexivity|].
    destruct (numericTimestamp e); [|].
    + assert (0 <= maxTimestamp b).
      { clear. induction b as [|x b IH]; simpl; [lia|].
        destruct (numericTimestamp x); lia. }
      lia.
    + assert (0 <= maxTimestamp b).
      { clear. induction b as [|x b IH]; simpl; [lia|].
        destruct (numericTimestamp x); lia. }
      lia.
  - destruct (numericTimestamp e); rewrite IH; lia.
Qed.

Lemma maxTimestamp_nonneg (l : list Entry) : 0 <= maxTimestamp l.
Proof.
  induction l as [|x l IH]; simpl; [lia|].
  destruct (numericTimestamp x); lia.
Qed.

Lemma maxTimestamp_upper (l : list Entry) (z : Z) :
  In z (numericTimestamps l) -> z <= maxTimestamp l.
Proof.
  induction l as [|e l IH]; simpl; [tauto|].
  intros H. apply in_app_or in H.
  destruct (numericTimestamp e) as [x|].
  - destruct H as [[<-|[]]|H]; [lia|]. specialize (IH H). lia.
  - destruct H as [[]|H]. exact (IH H).
Qed.

Lemma maxTimestamp_attained (l : list Entry) :
  maxTimestamp l = 0 \/ In (maxTimestamp l) (numericTimestamps l).
Proof.
  induction l as [|e l IH]; simpl; [left; reflexivity|].
  destruct (numericTimestamp e) as [x|]; simpl.
  - destruct (Z.max_spec x (maxTimestamp l)) as [[_ ->]|[_ ->]].
    + destruct IH as [IH|IH]; [left; exact IH | right; right; exact IH].
    + right. left. reflexivity.
  - exact IH.
Qed.

Lemma maxTimestamp_is_maximum (l : list Entry) :
  IsMaximumOf (maxTimestamp l) (0 :: numericTimestamps l).
Proof.
  split.
  - destruct (maxTimestamp_attained l) as [H|H]; [left; symmetry; exact H | right; exact H].
  - intros x [<-|H]; [apply maxTimestamp_nonneg | apply maxTimestamp_upper; exact H].
Qed.


Lemma resourceEntry_lastModified host parentPath resource lastModified e lastModified' :
  0 <= lastModified ->
  resourceEntry host parentPath resource lastModified = Some (e, lastModified') ->
  lastModified' = Z.max lastModified (maxTimestamp [e]).
Proof.
  intros Hpos. unfold ManifestGenerator.resourceEntry.
  destruct (match fetchDataWithMethod w host (trim resource) HEAD with
            | Some _ => false
            | None => negb (isFileDirty w (slice1 (trim resource)))
            end); [discriminate|].
  destruct (isMedia MEDIA_PREFIX (trim resource)).
  - intros H. inversion H. subst. unfold maxTimestamp, numericTimestamp. simpl. lia.
  - destruct (match fetchDataWithMethod w host (trim resource) HEAD with
              | Some r => truthyHeader (last_modified r)
              | None => None
              end) as [d|].
    + intros H. inversion H. subst. clear H. simpl. unfold numericTimestamp. simpl.
      destruct (dateGetTime w d) as [|z]; simpl; [lia|].
      destruct (lastModified <? z) eqn:E; [apply Z.ltb_lt in E | apply Z.ltb_ge in E]; lia.
    + intros H. inversion H. subst. unfold maxTimestamp, numericTimestamp. simpl. lia.
Qed.

Lemma resourcesLoop_lastModified host parentPath resourcesArr :
  forall entriesJson lastModified,
    lastModified = maxTimestamp entriesJson ->
    snd (resourcesLoop host parentPath resourcesArr entriesJson lastModified)
    = maxTimestamp (fst (resourcesLoop host parentPath resourcesArr entriesJson lastModified)).
Proof.
  induction resourcesArr as [|r rest IH]; intros acc lm Hlm; simpl.
  - exact Hlm.
  - destruct (resourceEntry host parentPath r lm) as [[e lm']|] eqn:He.
    + subst lm. apply IH. rewrite maxTimestamp_app.
      apply (resourceEntry_lastModified _ _ _ _ _ _ (maxTimestamp_nonneg acc) He).
    + apply IH. exact Hlm.
Qed.

(** What [createEntries] returns when the page answers. *)
Lemma createEntries_Ok host path pageResources isHtmlUpdated t r t' :
  createEntries host path pageResources isHtmlUpdated t = Ok (r, t') ->
  exists pageEntryJson,
    getPageJsonEntry host path isHtmlUpdated t = Ok (pageEntryJson, t') /\
    r = resourcesLoop host (PathUtils.getParentFromPath path) pageResources
          [pageEntryJson] (maxTimestamp [pageEntryJson]).
Proof.
  unfold ManifestGenerator.createEntries. intros H. unbind H.
  apply ret_Ok in H. inversion H; subst. clear H.
  exists a. split; [exact Hm|].
  f_equal. simpl. unfold numericTimestamp.
  destruct (timestamp a) as [[|z]|]; try reflexivity.
  simpl. destruct (z =? 0) eqn:E0; simpl.
  - apply Z.eqb_eq in E0. lia.
  - destruct (0 <? z) eqn:E; [apply Z.ltb_lt in E | apply Z.ltb_ge in E]; lia.
Qed.

Lemma createEntries_lastModified host path pageResources isHtmlUpdated t es lm t' :
  createEntries host path pageResources isHtmlUpdated t = Ok (es, lm, t') ->
  lm = maxTimestamp es.
Proof.
  intros H. apply createEntries_Ok in H. destruct H as (pe & _ & Hr).
  pose proof (resourcesLoop_lastModified host (PathUtils.getParentFromPath path)
                pageResources [pe] (maxTimestamp [pe]) eq_refl) as Hl.
  rewrite <- Hr in Hl. exact Hl.
Qed.

Lemma resourcesLoop_extends host parentPath resourcesArr :
  forall entriesJson lastModified,
    exists added,
      fst (resourcesLoop host parentPath resourcesArr entriesJson lastModified)
      = entriesJson ++ added.
Proof.
  induction resourcesArr as [|r rest IH]; intros acc lm; simpl.
  - exists []. symmetry. apply app_nil_r.
  - destruct (resourceEntry host parentPath r lm) as [[e lm']|].
    + destruct (IH (acc ++ [e]) lm') as (added & Ha).
      exists (e :: added). rewrite Ha, <- app_assoc. reflexivity.
    + apply IH.
Qed.

Lemma fragmentsLoop_maxTimestamp
    (recur : jsstring -> list jsstring -> async (Manifest * Z))
    (built : jsstring -> list jsstring -> async (list Entry)) path :
  (forall p extra t m ts t',
      recur p extra t = Ok (m, ts, t') ->
      exists l, built p extra t = Ok (l, t') /\ ts = maxTimestamp l) ->
  forall fragmentsList allEntries flm t allEntries' flm' t',
    0 <= flm ->
    fragmentsLoop recur path fragmentsList allEntries flm t = Ok (allEntries', flm', t') ->
    exists l, builtInFragments built fragmentsList t = Ok (l, t')
              /\ flm' = Z.max flm (maxTimestamp l).
Proof.
  intros Hrec. induction fragmentsList as [|f rest IH];
    intros allEntries flm t allEntries' flm' t' Hpos H.
  - apply ret_Ok in H. inversion H; subst.
    exists []. split; [reflexivity|]. simpl. lia.
  - cbn [ManifestGenerator.fragmentsLoop] in H. unbind H.
    destruct a as [m fts].
    destruct (Hrec _ _ _ _ _ _ Hm) as (l1 & Hb & Hts).
    assert (Hpos' : 0 <= Z.max flm fts) by lia.
    destruct (IH _ _ _ _ _ _ Hpos' H) as (l2 & Hb2 & Hflm).
    exists (l1 ++ l2). split.
    + cbn [builtInFragments]. unfold bind at 1. rewrite Hb.
      unfold bind at 1. rewrite Hb2. reflexivity.
    + rewrite maxTimestamp_app. lia.
Qed.

(** The aggregate timestamp is the greatest of 0 and the numeric
    timestamps of the entries built, and the manifest carries it. *)
Lemma createManifest_maxTimestamp fuel host manifestMap isHtmlUpdatedMap :
  forall path additionalAssets t m ts t',
    createManifest fuel host manifestMap path isHtmlUpdatedMap additionalAssets t
    = Ok (m, ts, t') ->
    manifestTimestamp m = ts /\
    exists l, builtEntries fuel host manifestMap path isHtmlUpdatedMap additionalAssets t
              = Ok (l, t')
              /\ ts = maxTimestamp l.
Proof.
  induction fuel as [|fuel IH]; intros path extra t m ts t' H; [discriminate|].
  cbn [ManifestGenerator.createManifest] in H.
  unbind H. rename a into data. unbind H. destruct a as [es lm]. unbind H.
  destruct a as [all' flm]. apply ret_Ok in H. inversion H; subst. clear H.
  split; [reflexivity|].
  pose proof (createEntries_lastModified _ _ _ _ _ _ _ _ Hm0) as Hlm.
  destruct (fragmentsLoop_maxTimestamp
              (fun p extra => createManifest fuel host manifestMap p isHtmlUpdatedMap extra)
              (fun p extra => builtEntries fuel host manifestMap p isHtmlUpdatedMap extra)
              path (fun p extra t m ts t' H => proj2 (IH p extra t m ts t' H))
              _ _ _ _ _ _ _ (Z.le_refl 0) Hm1)
    as (l & Hb & Hflm).
  exists (es ++ l). split.
  - cbn [Trace.builtEntries]. unfold bind at 1. rewrite Hm.
    unfold bind at 1. rewrite Hm0. unfold bind at 1. rewrite Hb. reflexivity.
  - rewrite maxTimestamp_app. pose proof (maxTimestamp_nonneg l). lia.
Qed.

End Timestamps.

(** ** The Map of entries *)

Module MapFacts.

Lemma eqb_str_true (a b : jsstring) : eqb_str a b = true <-> a = b.
Proof.
  unfold eqb_str. destruct (jsstring_dec a b); split; congruence.
Qed.

Lemma mapKeys_mapSet {V} (m : Map V) (k : jsstring) (v : V) (k' : jsstring) :
  In k' (mapKeys (mapSet m k v)) <-> k' = k \/ In k' (mapKeys m).
Proof.
  unfold mapKeys. induction m as [|[k0 v0] m IH]; simpl.
  - intuition congruence.
  - destruct (jsstring_dec k0 k) as [->|Hne]; simpl.
    + intuition congruence.
    + rewrite IH. tauto.
Qed.

Lemma mapSet_NoDup {V} (m : Map V) (k : jsstring) (v : V) :
  NoDup (mapKeys m) -> NoDup (mapKeys (mapSet m k v)).
Proof.
  induction m as [|[k0 v0] m IH]; simpl; intros Hnd.
  - constructor; [tauto | constructor].
  - inversion Hnd as [|? ? Hnotin Hnd']; subst.
    destruct (jsstring_dec k0 k) as [->|Hne]; simpl.
    + constructor; assumption.
    + constructor; [|apply IH; exact Hnd'].
      rewrite mapKeys_mapSet. intros [->|H]; [congruence | exact (Hnotin H)].
Qed.

Lemma mapGet_mapSet {V} (m : Map V) (k : jsstring) (v : V) (k' : jsstring) :
  mapGet (mapSet m k v) k' = if jsstring_dec k k' then Some v else mapGet m k'.
Proof.
  induction m as [|[k0 v0] m IH]; simpl.
  - reflexivity.
  - destruct (jsstring_dec k0 k) as [->|Hne]; simpl.
    + destruct (jsstring_dec k k'); reflexivity.
    + rewrite IH. destruct (jsstring_dec k0 k') as [->|], (jsstring_dec k k');
        congruence.
Qed.

Lemma mapValues_mapSet {V} (P : V -> Prop) (m : Map V) (k : jsstring) (v : V) :
  P v -> Forall P (mapValues m) -> Forall P (mapValues (mapSet m k v)).
Proof.
  intros Hv. induction m as [|[k0 v0] m IH]; simpl; intros Hm.
  - constructor; [exact Hv | constructor].
  - inversion Hm; subst.
    destruct (jsstring_dec k0 k); simpl; constructor; auto.
Qed.

Lemma setEntry_keyedByPath (m : Map Entry) (e : Entry) :
  keyedByPath m -> keyedByPath (setEntry m e).
Proof.
  unfold keyedByPath, setEntry.
  induction m as [|[k0 v0] m IH]; simpl; intros Hm.
  - constructor; [reflexivity | constructor].
  - inversion Hm; subst.
    destruct (jsstring_dec k0 (path e)); constructor; auto.
Qed.

Lemma keyedByPath_paths (m : Map Entry) :
  keyedByPath m -> map path (mapValues m) = mapKeys m.
Proof.
  unfold keyedByPath, mapValues, mapKeys.
  induction 1 as [|[k v] m Hk _ IH]; simpl; [reflexivity|].
  simpl in Hk. rewrite Hk, IH. reflexivity.
Qed.

Lemma keyedByPath_entryAt (m : Map Entry) (p : jsstring) :
  keyedByPath m -> entryAt (mapValues m) p = mapGet m p.
Proof.
  unfold keyedByPath, entryAt, mapValues.
  induction 1 as [|[k v] m Hk _ IH]; simpl; [reflexivity|].
  simpl in Hk. rewrite Hk, IH. unfold eqb_str.
  destruct (jsstring_dec k p); reflexivity.
Qed.

Lemma find_app {A} (f : A -> bool) (l1 l2 : list A) :
  find f (l1 ++ l2) = match find f l1 with
                      | Some x => Some x
                      | None => find f l2
                      end.
Proof.
  induction l1 as [|a l1 IH]; simpl; [reflexivity|].
  destruct (f a); [reflexivity | exact IH].
Qed.

(** Setting a list of entries one after the other: what the map holds. *)
Lemma fold_setEntry_keyedByPath (l : list Entry) :
  forall m, keyedByPath m -> keyedByPath (fold_left setEntry l m).
Proof.
  induction l as [|e l IH]; simpl; intros m Hm; [exact Hm|].
  apply IH, setEntry_keyedByPath, Hm.
Qed.

Lemma fold_setEntry_NoDup (l : list Entry) :
  forall m, NoDup (mapKeys m) -> NoDup (mapKeys (fold_left setEntry l m)).
Proof.
  induction l as [|e l IH]; simpl; intros m Hm; [exact Hm|].
  apply IH, mapSet_NoDup, Hm.
Qed.

Lemma fold_setEntry_mapGet (l : list Entry) (p : jsstring) :
  forall m,
    mapGet (fold_left setEntry l m) p
    = match lastWithPath l p with
      | Some e => Some e
      | None => mapGet m p
      end.
Proof.
  unfold lastWithPath.
  induction l as [|e l IH]; simpl; intros m; [reflexivity|].
  rewrite IH, find_app. destruct (find _ (rev l)); [reflexivity|].
  unfold setEntry. rewrite mapGet_mapSet. simpl. unfold eqb_str.
  destruct (jsstring_dec (path e) p); reflexivity.
Qed.

Lemma fold_setEntry_Forall (P : Entry -> Prop) (l : list Entry) :
  Forall P l ->
  forall m, Forall P (mapValues m) -> Forall P (mapValues (fold_left setEntry l m)).
Proof.
  induction 1 as [|e l He _ IH]; simpl; intros m Hm; [exact Hm|].
  apply IH. apply mapValues_mapSet; assumption.
Qed.

Lemma fold_mergeFragmentEntry (MEDIA_PREFIX path : jsstring) (l : list Entry) :
  forall m,
    fold_left (mergeFragmentEntry MEDIA_PREFIX path) l m
    = fold_left setEntry (map (rebase MEDIA_PREFIX path) l) m.
Proof.
  induction l as [|e l IH]; simpl; intros m; [reflexivity|].
  apply IH.
Qed.

(** In a list without two entries of one path the entry at a path is the
    entry itself. *)
Lemma entryAt_In (l : list Entry) (e : Entry) :
  NoDup (map path l) -> (In e l <-> entryAt l (path e) = Some e).
Proof.
  unfold entryAt. intros Hnd. split.
  - induction l as [|x l IH]; simpl; [tauto|].
    inversion Hnd as [|? ? Hnotin Hnd']; subst.
    intros [->|Hin].
    + unfold eqb_str. destruct (jsstring_dec (path e) (path e)); congruence.
    + unfold eqb_str at 1. destruct (jsstring_dec (path x) (path e)) as [Heq|_].
      * exfalso. apply Hnotin. rewrite Heq. apply in_map. exact Hin.
      * exact (IH Hnd' Hin).
  - intros H. apply find_some in H. tauto.
Qed.

End MapFacts.

Import MapFacts.

Section Assembly.

Variable MEDIA_PREFIX : jsstring.
Variable w : World.

Abbreviation resourceEntry := (resourceEntry MEDIA_PREFIX w).
Abbreviation resourcesLoop := (resourcesLoop MEDIA_PREFIX w).
Abbreviation createEntries := (createEntries MEDIA_PREFIX w).
Abbreviation createManifest := (createManifest MEDIA_PREFIX w).
Abbreviation builtEntries := (builtEntries MEDIA_PREFIX w).
Abbreviation processedEntries := (processedEntries MEDIA_PREFIX w).
Abbreviation rebase := (rebase MEDIA_PREFIX).
Abbreviation fragmentsLoop := (fragmentsLoop MEDIA_PREFIX).
Abbreviation fragmentEntries := (fragmentEntries MEDIA_PREFIX).

(** *** The loop over the resources *)

Lemma resourceEntry_skipped host parentPath resource lastModified :
  fetchDataWithMethod w host (trim resource) HEAD = None ->
  isFileDirty w (slice1 (trim resource)) = false ->
  resourceEntry host parentPath resource lastModified = None.
Proof.
  intros Hf Hd. unfold ManifestGenerator.resourceEntry. rewrite Hf, Hd. reflexivity.
Qed.

Lemma resourcesLoop_app host parentPath l1 l2 :
  forall entriesJson lastModified,
    resourcesLoop host parentPath (l1 ++ l2) entriesJson lastModified
    = resourcesLoop host parentPath l2
        (fst (resourcesLoop host parentPath l1 entriesJson lastModified))
        (snd (resourcesLoop host parentPath l1 entriesJson lastModified)).
Proof.
  induction l1 as [|r l1 IH]; intros acc lm; simpl; [reflexivity|].
  destruct (resourceEntry host parentPath r lm) as [[e lm']|]; apply IH.
Qed.

Lemma resourceEntry_shape host parentPath resource lastModified e lastModified' :
  resourceEntry host parentPath resource lastModified = Some (e, lastModified') ->
  (isMedia MEDIA_PREFIX (trim resource) = true ->
   timestamp e = None
   /\ hash e = Some (getHashFromMedia MEDIA_PREFIX (trim resource))
   /\ path e = parentPath ++ resource)
  /\ (isMedia MEDIA_PREFIX (trim resource) = false ->
      hash e = None /\ path e = resource).
Proof.
  unfold ManifestGenerator.resourceEntry.
  destruct (match fetchDataWithMethod w host (trim resource) HEAD with
            | Some _ => false
            | None => negb (isFileDirty w (slice1 (trim resource)))
            end); [discriminate|].
  destruct (isMedia MEDIA_PREFIX (trim resource)).
  - intros H. inversion H; subst. simpl. split; [tauto | discriminate].
  - destruct (match fetchDataWithMethod w host (trim resource) HEAD with
              | Some r => truthyHeader (last_modified r)
              | None => None
              end);
      intros H; inversion H; subst; simpl; split; (discriminate || tauto).
Qed.

Lemma resourceEntry_exclusive host parentPath resource lastModified e lastModified' :
  resourceEntry host parentPath resource lastModified = Some (e, lastModified') ->
  exclusive e.
Proof.
  intros H. apply resourceEntry_shape in H. destruct H as [Hm Hn].
  destruct (isMedia MEDIA_PREFIX (trim resource)).
  - right. apply Hm. reflexivity.
  - left. apply Hn. reflexivity.
Qed.

Lemma resourcesLoop_exclusive host parentPath resourcesArr :
  forall entriesJson lastModified,
    Forall exclusive entriesJson ->
    Forall exclusive
      (fst (resourcesLoop host parentPath resourcesArr entriesJson lastModified)).
Proof.
  induction resourcesArr as [|r rest IH]; intros acc lm Hacc; simpl; [exact Hacc|].
  destruct (resourceEntry host parentPath r lm) as [[e lm']|] eqn:He.
  - apply IH. apply Forall_app. split; [exact Hacc|].
    constructor; [|constructor]. exact (resourceEntry_exclusive _ _ _ _ _ _ He).
  - apply IH. exact Hacc.
Qed.

Lemma createEntries_exclusive host path pageResources isHtmlUpdated t es lm t' :
  createEntries host path pageResources isHtmlUpdated t = Ok (es, lm, t') ->
  Forall exclusive es.
Proof.
  intros H. apply createEntries_Ok in H. destruct H as (pe & Hpe & Hr).
  apply getPageJsonEntry_Ok in Hpe.
  replace es with (fst (es, lm)) by reflexivity. rewrite Hr.
  apply resourcesLoop_exclusive.
  constructor; [|constructor]. left. apply Hpe.
Qed.

Lemma rebase_exclusive path e : exclusive e -> exclusive (rebase path e).
Proof.
  unfold ManifestGenerator.rebase, exclusive.
  destruct (isMedia MEDIA_PREFIX (ManifestGenerator.path e)); simpl; tauto.
Qed.

(** What the merge stores: a path that is not a media path as it is,
    and a media path without leading whitespace as the parent of the page
    followed by the media suffix of PathUtils, the marker being free of
    whitespace. *)
Lemma rebase_not_media path e :
  isMedia MEDIA_PREFIX (ManifestGenerator.path e) = false -> rebase path e = e.
Proof.
  intros H. unfold ManifestGenerator.rebase. rewrite H. reflexivity.
Qed.

Lemma rebase_media path e :
  Forall (fun c => isWhiteSpace c = false) MEDIA_PREFIX ->
  trimStart (ManifestGenerator.path e) = ManifestGenerator.path e ->
  isMedia MEDIA_PREFIX (ManifestGenerator.path e) = true ->
  ManifestGenerator.path (rebase path e)
  = PathUtils.getParentFromPath path
    ++ PathUtils.extractMediaFromPath MEDIA_PREFIX (ManifestGenerator.path e).
Proof.
  intros Hp Hs H. unfold ManifestGenerator.rebase. rewrite H. simpl.
  unfold extractMediaFromPath, PathUtils.extractMediaFromPath.
  rewrite (indexOf_untrimmed MEDIA_PREFIX _ Hp Hs). reflexivity.
Qed.

(** *** The loop over the fragments *)

Lemma fragmentsLoop_processed
    (recur : jsstring -> list jsstring -> async (Manifest * Z)) path :
  forall fragmentsList allEntries flm t allEntries' flm' t',
    fragmentsLoop recur path fragmentsList allEntries flm t = Ok (allEntries', flm', t') ->
    exists l, fragmentEntries recur path fragmentsList t = Ok (l, t')
              /\ allEntries' = fold_left setEntry l allEntries.
Proof.
  induction fragmentsList as [|f rest IH];
    intros allEntries flm t allEntries' flm' t' H.
  - apply ret_Ok in H. inversion H; subst. exists []. split; reflexivity.
  - cbn [ManifestGenerator.fragmentsLoop] in H. unbind H. destruct a as [m fts].
    destruct (IH _ _ _ _ _ _ H) as (l & Hl & Hall).
    exists (map (rebase path) (entries m) ++ l). split.
    + cbn [Trace.fragmentEntries]. unfold bind at 1. rewrite Hm.
      unfold bind at 1. rewrite Hl. reflexivity.
    + rewrite fold_left_app, <- fold_mergeFragmentEntry. exact Hall.
Qed.

Lemma fragmentEntries_Forall (P : Entry -> Prop)
    (recur : jsstring -> list jsstring -> async (Manifest * Z)) path :
  (forall e, P e -> P (rebase path e)) ->
  (forall p extra t m ts t',
      recur p extra t = Ok (m, ts, t') -> Forall P (entries m)) ->
  forall fragmentsList t l t',
    fragmentEntries recur path fragmentsList t = Ok (l, t') -> Forall P l.
Proof.
  intros Hrebase Hrec. induction fragmentsList as [|f rest IH]; intros t l t' H.
  - apply ret_Ok in H. inversion H; subst. constructor.
  - cbn [Trace.fragmentEntries] in H. unbind H. destruct a as [m fts].
    unbind H. apply ret_Ok in H. inversion H; subst. clear H.
    apply Forall_app. split.
    + apply Hrec in Hm. simpl. clear - Hm Hrebase.
      induction Hm; simpl; constructor; auto.
    + exact (IH _ _ _ Hm0).
Qed.

(** The entries of a manifest are the values of the map into which the
    processed entries were set one after the other. *)
Lemma createManifest_processed fuel host manifestMap path isHtmlUpdatedMap
    additionalAssets t m ts t' :
  createManifest fuel host manifestMap path isHtmlUpdatedMap additionalAssets t
  = Ok (m, ts, t') ->
  exists processed,
    processedEntries fuel host manifestMap path isHtmlUpdatedMap additionalAssets t
    = Ok (processed, t')
    /\ entries m = mapValues (fold_left setEntry processed []).
Proof.
  destruct fuel as [|fuel]; intros H; [discriminate|].
  cbn [ManifestGenerator.createManifest] in H.
  unbind H. rename a into data. unbind H. destruct a as [es lm]. unbind H.
  destruct a as [all' flm]. apply ret_Ok in H. inversion H; subst. clear H.
  destruct (fragmentsLoop_processed _ _ _ _ _ _ _ _ _ Hm1) as (l & Hl & Hall).
  exists (es ++ l). split.
  - unfold Trace.processedEntries. unfold bind at 1. rewrite Hm.
    unfold bind at 1. rewrite Hm0. unfold bind at 1. rewrite Hl. reflexivity.
  - simpl. rewrite fold_left_app. rewrite Hall. reflexivity.
Qed.

Lemma processedEntries_exclusive fuel host manifestMap isHtmlUpdatedMap :
  (forall p extra t m ts t',
      createManifest fuel host manifestMap p isHtmlUpdatedMap extra t = Ok (m, ts, t') ->
      Forall exclusive (entries m)) ->
  forall path additionalAssets t processed t',
    processedEntries (S fuel) host manifestMap path isHtmlUpdatedMap additionalAssets t
    = Ok (processed, t') ->
    Forall exclusive processed.
Proof.
  intros Hrec path extra t processed t' H.
  unfold Trace.processedEntries in H.
  unbind H. rename a into data. unbind H. destruct a as [es lm]. unbind H.
  apply ret_Ok in H. inversion H; subst. clear H.
  apply Forall_app. split.
  - exact (createEntries_exclusive _ _ _ _ _ _ _ _ Hm0).
  - apply (fragmentEntries_Forall exclusive _ path (rebase_exclusive path) Hrec _ _ _ _ Hm1).
Qed.

Lemma createManifest_exclusive fuel host manifestMap isHtmlUpdatedMap :
  forall path additionalAssets t m ts t',
    createManifest fuel host manifestMap path isHtmlUpdatedMap additionalAssets t
    = Ok (m, ts, t') ->
    Forall exclusive (entries m).
Proof.
  induction fuel as [|fuel IH]; intros path extra t m ts t' H; [discriminate|].
  destruct (createManifest_processed _ _ _ _ _ _ _ _ _ _ H) as (processed & Hp & ->).
  apply fold_setEntry_Forall; [|constructor].
  exact (processedEntries_exclusive _ _ _ _ IH _ _ _ _ _ Hp).
Qed.

(** More fuel does not change what a call returns. *)
Lemma fragmentsLoop_more_fuel
    (recur1 recur2 : jsstring -> list jsstring -> async (Manifest * Z)) path :
  (forall p extra t r, recur1 p extra t = Ok r -> recur2 p extra t = Ok r) ->
  forall fragmentsList allEntries flm t r,
    fragmentsLoop recur1 path fragmentsList allEntries flm t = Ok r ->
    fragmentsLoop recur2 path fragmentsList allEntries flm t = Ok r.
Proof.
  intros Hrec. induction fragmentsList as [|f rest IH]; intros all flm t r H;
    [exact H|].
  cbn [ManifestGenerator.fragmentsLoop] in *. unbind H.
  unfold bind. rewrite (Hrec _ _ _ _ Hm). destruct a as [m fts].
  apply IH. exact H.
Qed.

Lemma createManifest_more_fuel fuel host manifestMap isHtmlUpdatedMap :
  forall path additionalAssets t r,
    createManifest fuel host manifestMap path isHtmlUpdatedMap additionalAssets t
    = Ok r ->
    createManifest (S fuel) host manifestMap path isHtmlUpdatedMap additionalAssets t
    = Ok r.
Proof.
  induction fuel as [|fuel IH]; intros path extra t r H; [discriminate|].
  remember (S fuel) as fuel1 eqn:Hfuel.
  cbn [ManifestGenerator.createManifest]. subst fuel1.
  cbn [ManifestGenerator.createManifest] in H.
  unbind H. unfold bind at 1. rewrite Hm.
  unbind H. unfold bind at 1. rewrite Hm0. destruct a0 as [es lm].
  unbind H. unfold bind at 1.
  rewrite (fragmentsLoop_more_fuel
             (fun p extra =>
                createManifest fuel host manifestMap p isHtmlUpdatedMap extra)
             (fun p extra =>
                createManifest (S fuel) host manifestMap p isHtmlUpdatedMap extra)
             path (fun p extra t r => IH p extra t r) _ _ _ _ _ Hm1).
  exact H.
Qed.

(** A page without fragments needs one unit of fuel: its manifest is made
    as soon as the page itself answers. *)
Lemma createManifest_returns_without_fragments host manifestMap path data
    isHtmlUpdatedMap additionalAssets t resp :
  manifestMap path = Some data ->
  parsed (fragments data) = [] ->
  fetchDataWithMethod w host (dataPath data ++ str ".html") HEAD = Some resp ->
  exists m ts t',
    createManifest 1 host manifestMap path isHtmlUpdatedMap additionalAssets t
    = Ok (m, ts, t').
Proof.
  intros Hdata Hfr Hp.
  cbn [ManifestGenerator.createManifest]. unfold bind at 1. unfold getData at 1.
  rewrite Hdata. unfold bind at 1.
  unfold ManifestGenerator.createEntries at 1. unfold bind at 1.
  rewrite (getPageJsonEntry_available w _ _ _ _ _ Hp). unfold ret at 1.
  destruct (resourcesLoop host (PathUtils.getParentFromPath (dataPath data)) _ _ _)
    as [es lm].
  rewrite Hfr. cbn [ManifestGenerator.fragmentsLoop]. unfold bind, ret.
  eexists; eexists; eexists. reflexivity.
Qed.

(** *** The properties of the manifest *)

Lemma builtEntries_page_first fuel host manifestMap path isHtmlUpdatedMap
    additionalAssets t built t' :
  builtEntries fuel host manifestMap path isHtmlUpdatedMap additionalAssets t
  = Ok (built, t') ->
  exists data pageEntry rest,
    manifestMap path = Some data
    /\ built = pageEntry :: rest
    /\ ManifestGenerator.path pageEntry = dataPath data ++ str ".html".
Proof.
  destruct fuel as [|fuel]; intros H; [discriminate|].
  cbn [Trace.builtEntries] in H.
  unbind H. rename a into data. unbind H. destruct a as [es lm]. unbind H.
  apply ret_Ok in H. inversion H; subst. clear H.
  apply getData_Ok in Hm. destruct Hm as [Hdata _].
  apply createEntries_Ok in Hm0. destruct Hm0 as (pe & Hpe & Hr).
  apply getPageJsonEntry_Ok in Hpe. destruct Hpe as [Hpath _].
  destruct (resourcesLoop_extends MEDIA_PREFIX w host
              (PathUtils.getParentFromPath (dataPath data))
              (pageResourcesOf data additionalAssets) [pe] (maxTimestamp [pe]))
    as (added & Hadd).
  rewrite <- Hr in Hadd. simpl in Hadd.
  exists data, pe, (added ++ a). repeat split; [exact Hdata | | exact Hpath].
  simpl. rewrite Hadd. reflexivity.
Qed.

(** C1, as the code has it: the timestamp of the manifest that
    createManifest returns, which is also the aggregate it returns, is the
    maximum of 0 and the numeric timestamps of all the entries built
    during the call (the page entry, the resource entries and the entries
    of the fragments at any depth); entries without a timestamp or with a
    NaN one take no part.  The page entry is the first of these entries,
    so the timestamp of the manifest is at least its timestamp. *)
Theorem createManifest_timestamp_is_maximum fuel host manifestMap path
    isHtmlUpdatedMap additionalAssets t m ts t' :
  createManifest fuel host manifestMap path isHtmlUpdatedMap additionalAssets t
  = Ok (m, ts, t') ->
  exists data built pageEntry rest,
    manifestMap path = Some data
    /\ builtEntries fuel host manifestMap path isHtmlUpdatedMap additionalAssets t
       = Ok (built, t')
    /\ manifestTimestamp m = ts
    /\ IsMaximumOf ts (0 :: numericTimestamps built)
    /\ built = pageEntry :: rest
    /\ ManifestGenerator.path pageEntry = dataPath data ++ str ".html"
    /\ forall z, timestamp pageEntry = Some (Num z) -> z <= manifestTimestamp m.
Proof.
  intros H.
  destruct (createManifest_maxTimestamp _ _ _ _ _ _ _ _ _ _ _ _ H)
    as (Hts & built & Hb & Hmax).
  destruct (builtEntries_page_first _ _ _ _ _ _ _ _ _ Hb)
    as (data & pe & rest & Hdata & Hbuilt & Hpath).
  exists data, built, pe, rest.
  repeat split; try assumption.
  - rewrite Hmax. apply maxTimestamp_is_maximum.
  - rewrite Hmax. apply maxTimestamp_is_maximum.
  - intros z Hz. rewrite Hts, Hmax. apply maxTimestamp_upper.
    rewrite Hbuilt. simpl. unfold numericTimestamp. rewrite Hz. left. reflexivity.
Qed.


(** C5: a resource whose probe fails and that is not dirty leaves no trace
    in what createEntries returns: the entries, the aggregate lastModified
    and the outcome are those of the same call without the resource; and
    the call returns whenever the page itself answers. *)
Theorem createEntries_skips_unavailable host path before resource after
    isHtmlUpdated t :
  fetchDataWithMethod w host (trim resource) HEAD = None ->
  isFileDirty w (slice1 (trim resource)) = false ->
  createEntries host path (before ++ resource :: after) isHtmlUpdated t
  = createEntries host path (before ++ after) isHtmlUpdated t
  /\ forall resp,
       fetchDataWithMethod w host (path ++ str ".html") HEAD = Some resp ->
       exists es lastModified t',
         createEntries host path (before ++ resource :: after) isHtmlUpdated t
         = Ok (es, lastModified, t').
Proof.
  intros Hf Hd. split.
  - unfold ManifestGenerator.createEntries, bind.
    destruct (getPageJsonEntry w host path isHtmlUpdated t) as [[pe t1]| |];
      try reflexivity.
    unfold ret. do 2 f_equal.
    rewrite !resourcesLoop_app. simpl.
    rewrite (resourceEntry_skipped _ _ _ _ Hf Hd). reflexivity.
  - intros resp Hp. unfold ManifestGenerator.createEntries, bind.
    rewrite (getPageJsonEntry_available w _ _ _ _ _ Hp). unfold ret.
    destruct (resourcesLoop host (PathUtils.getParentFromPath path)
                (before ++ resource :: after) _ _) as [es lm].
    exists es, lm, (if isHtmlUpdated then S t else t). reflexivity.
Qed.

(** *** Where the fields of an entry come from *)

Lemma resourcesLoop_Forall (P : Entry -> Prop) host parentPath :
  (forall resource lastModified e lastModified',
      resourceEntry host parentPath resource lastModified = Some (e, lastModified') ->
      P e) ->
  forall resourcesArr entriesJson lastModified,
    Forall P entriesJson ->
    Forall P (fst (resourcesLoop host parentPath resourcesArr entriesJson lastModified)).
Proof.
  intros HP. induction resourcesArr as [|r rest IH]; intros acc lm Hacc; simpl;
    [exact Hacc|].
  destruct (resourceEntry host parentPath r lm) as [[e lm']|] eqn:He.
  - apply IH. apply Forall_app. split; [exact Hacc|].
    constructor; [|constructor]. exact (HP _ _ _ _ He).
  - apply IH. exact Hacc.
Qed.

Lemma resourceEntry_classified host parentPath resource lastModified e lastModified' :
  resourceEntry host parentPath resource lastModified = Some (e, lastModified') ->
  classified MEDIA_PREFIX w host e.
Proof.
  intros H. right. exists parentPath, resource, lastModified, lastModified'.
  split; [exact H|].
  apply resourceEntry_shape in H. destruct H as [Hm Hn].
  destruct (isMedia MEDIA_PREFIX (trim resource)).
  - split; apply Hm; reflexivity.
  - apply Hn. reflexivity.
Qed.

Lemma createEntries_classified host path pageResources isHtmlUpdated t es lm t' :
  createEntries host path pageResources isHtmlUpdated t = Ok (es, lm, t') ->
  Forall (classified MEDIA_PREFIX w host) es.
Proof.
  intros H. apply createEntries_Ok in H. destruct H as (pe & Hpe & Hr).
  replace es with (fst (es, lm)) by reflexivity. rewrite Hr.
  apply resourcesLoop_Forall.
  - intros r lm0 e lm' He. exact (resourceEntry_classified _ _ _ _ _ _ He).
  - constructor; [|constructor]. left. exists path, isHtmlUpdated, t, t'.
    split; [exact Hpe|]. apply (getPageJsonEntry_Ok w _ _ _ _ _ _ Hpe).
Qed.

Lemma builtInFragments_Forall (P : Entry -> Prop)
    (recur : jsstring -> list jsstring -> async (list Entry)) :
  (forall p extra t l t', recur p extra t = Ok (l, t') -> Forall P l) ->
  forall fragmentsList t l t',
    builtInFragments recur fragmentsList t = Ok (l, t') -> Forall P l.
Proof.
  intros Hrec. induction fragmentsList as [|f rest IH]; intros t l t' H.
  - apply ret_Ok in H. inversion H; subst. constructor.
  - cbn [Trace.builtInFragments] in H. unbind H. unbind H.
    apply ret_Ok in H. inversion H; subst. clear H.
    apply Forall_app. split.
    + exact (Hrec _ _ _ _ _ Hm).
    + exact (IH _ _ _ Hm0).
Qed.

Lemma builtEntries_classified fuel host manifestMap isHtmlUpdatedMap :
  forall path additionalAssets t built t',
    builtEntries fuel host manifestMap path isHtmlUpdatedMap additionalAssets t
    = Ok (built, t') ->
    Forall (classified MEDIA_PREFIX w host) built.
Proof.
  induction fuel as [|fuel IH]; intros path extra t built t' H; [discriminate|].
  cbn [Trace.builtEntries] in H.
  unbind H. rename a into data. unbind H. destruct a as [es lm]. unbind H.
  apply ret_Ok in H. inversion H; subst. clear H.
  apply Forall_app. split.
  - exact (createEntries_classified _ _ _ _ _ _ _ _ Hm0).
  - exact (builtInFragments_Forall _ _ IH _ _ _ _ Hm1).
Qed.

Lemma carriedFrom_app_l (l1 l2 : list Entry) (e : Entry) :
  carriedFrom l1 e -> carriedFrom (l1 ++ l2) e.
Proof.
  intros (b & Hin & H). exists b. split; [|exact H].
  apply in_or_app. left. exact Hin.
Qed.

Lemma carriedFrom_app_r (l1 l2 : list Entry) (e : Entry) :
  carriedFrom l2 e -> carriedFrom (l1 ++ l2) e.
Proof.
  intros (b & Hin & H). exists b. split; [|exact H].
  apply in_or_app. right. exact Hin.
Qed.

Lemma carriedFrom_self (l : list Entry) : Forall (carriedFrom l) l.
Proof.
  apply Forall_forall. intros e Hin. exists e. repeat split. exact Hin.
Qed.

(** The merge moves an entry and leaves its timestamp and hash alone. *)
Lemma rebase_fields path e :
  timestamp (rebase path e) = timestamp e /\ hash (rebase path e) = hash e.
Proof.
  unfold ManifestGenerator.rebase.
  destruct (isMedia MEDIA_PREFIX (ManifestGenerator.path e)); split; reflexivity.
Qed.

Lemma rebase_carried built path e :
  carriedFrom built e -> carriedFrom built (rebase path e).
Proof.
  intros (b & Hin & Ht & Hh). exists b.
  destruct (rebase_fields path e) as [Et Eh].
  rewrite Et, Eh. repeat split; assumption.
Qed.

Lemma fragmentEntries_carried
    (recur : jsstring -> list jsstring -> async (Manifest * Z))
    (brecur : jsstring -> list jsstring -> async (list Entry)) path :
  (forall p extra t m ts t',
      recur p extra t = Ok (m, ts, t') ->
      exists built, brecur p extra t = Ok (built, t')
                    /\ Forall (carriedFrom built) (entries m)) ->
  forall fragmentsList t l t',
    fragmentEntries recur path fragmentsList t = Ok (l, t') ->
    exists built, builtInFragments brecur fragmentsList t = Ok (built, t')
                  /\ Forall (carriedFrom built) l.
Proof.
  intros Hrec. induction fragmentsList as [|f rest IH]; intros t l t' H.
  - apply ret_Ok in H. inversion H; subst. exists []. split; [reflexivity|constructor].
  - cbn [Trace.fragmentEntries] in H. unbind H. destruct a as [m fts].
    unbind H. apply ret_Ok in H. inversion H; subst. clear H.
    destruct (Hrec _ _ _ _ _ _ Hm) as (b1 & Hb1 & Hc1).
    destruct (IH _ _ _ Hm0) as (b2 & Hb2 & Hc2).
    exists (b1 ++ b2). split.
    + cbn [Trace.builtInFragments]. unfold bind at 1. rewrite Hb1.
      unfold bind at 1. rewrite Hb2. reflexivity.
    + apply Forall_app. split.
      * simpl. clear - Hc1. induction Hc1; simpl; constructor; [|assumption].
        apply rebase_carried, carriedFrom_app_l. assumption.
      * eapply Forall_impl; [|exact Hc2]. intros e. apply carriedFrom_app_r.
Qed.

Lemma createManifest_carried fuel host manifestMap isHtmlUpdatedMap :
  forall path additionalAssets t m ts t',
    createManifest fuel host manifestMap path isHtmlUpdatedMap additionalAssets t
    = Ok (m, ts, t') ->
    exists built,
      builtEntries fuel host manifestMap path isHtmlUpdatedMap additionalAssets t
      = Ok (built, t')
      /\ Forall (carriedFrom built) (entries m).
Proof.
  induction fuel as [|fuel IH]; intros path extra t m ts t' H; [discriminate|].
  destruct (createManifest_processed _ _ _ _ _ _ _ _ _ _ H) as (processed & Hp & ->).
  unfold Trace.processedEntries in Hp.
  unbind Hp. rename a into data. unbind Hp. destruct a as [es lm]. unbind Hp.
  apply ret_Ok in Hp. inversion Hp; subst. clear Hp.
  destruct (fragmentEntries_carried
              (fun p extra =>
                 createManifest fuel host manifestMap p isHtmlUpdatedMap extra)
              (fun p extra =>
                 builtEntries fuel host manifestMap p isHtmlUpdatedMap extra)
              path (fun p extra t m ts t' => IH p extra t m ts t') _ _ _ _ Hm1)
    as (bl & Hbl & Hcl).
  exists (es ++ bl). split.
  - cbn [Trace.builtEntries]. unfold bind at 1. rewrite Hm.
    unfold bind at 1. rewrite Hm0. unfold bind at 1. rewrite Hbl. reflexivity.
  - apply fold_setEntry_Forall; [|constructor].
    apply Forall_app. split.
    + eapply Forall_impl; [|apply carriedFrom_self].
      intros e. apply carriedFrom_app_l.
    + eapply Forall_impl; [|exact Hcl]. intros e. apply carriedFrom_app_r.
Qed.

(** C6: the entry built for a resource whose path is a media path carries
    the hash of that path and no timestamp, the entry built for any other
    resource and the page entry carry no hash.  Every entry of a manifest
    that createManifest returns carries the timestamp and the hash of an
    entry built during the call (the merge of the fragments only moves
    entries), and that entry is the page entry of a page, without a hash,
    or the entry of a resource: without a timestamp and with the hash of
    the resource path when that path is a media path, without a hash when
    it is not.  So no entry of the manifest carries both a hash and a
    timestamp. *)
Theorem entries_hash_timestamp_exclusive :
  (forall host path isHtmlUpdated t e t',
      getPageJsonEntry w host path isHtmlUpdated t = Ok (e, t') -> hash e = None)
  /\ (forall host parentPath resource lastModified e lastModified',
      resourceEntry host parentPath resource lastModified = Some (e, lastModified') ->
      (isMedia MEDIA_PREFIX (trim resource) = true ->
       timestamp e = None
       /\ hash e = Some (getHashFromMedia MEDIA_PREFIX (trim resource)))
      /\ (isMedia MEDIA_PREFIX (trim resource) = false -> hash e = None))
  /\ (forall fuel host manifestMap path isHtmlUpdatedMap additionalAssets t m ts t',
         createManifest fuel host manifestMap path isHtmlUpdatedMap additionalAssets t
         = Ok (m, ts, t') ->
         Forall (fun e => hash e = None \/ timestamp e = None) (entries m)
         /\ exists built,
              builtEntries fuel host manifestMap path isHtmlUpdatedMap additionalAssets t
              = Ok (built, t')
              /\ Forall (fun e =>
                           exists b,
                             In b built
                             /\ timestamp e = timestamp b
                             /\ hash e = hash b
                             /\ ((exists page isHtmlUpdated t0 t1,
                                     getPageJsonEntry w host page isHtmlUpdated t0
                                     = Ok (b, t1)
                                     /\ hash e = None)
                                 \/ (exists parentPath resource lastModified lastModified',
                                        resourceEntry host parentPath resource lastModified
                                        = Some (b, lastModified')
                                        /\ if isMedia MEDIA_PREFIX (trim resource)
                                           then timestamp e = None
                                                /\ hash e
                                                   = Some (getHashFromMedia MEDIA_PREFIX
                                                             (trim resource))
                                           else hash e = None)))
                        (entries m)).
Proof.
  split; [|split].
  - intros host path upd t e t' H.
    apply (getPageJsonEntry_Ok w _ _ _ _ _ _ H).
  - intros host parentPath resource lm e lm' H.
    apply resourceEntry_shape in H. destruct H as [Hm Hn]. split.
    + intros Hmedia. split; apply Hm; exact Hmedia.
    + intros Hmedia. apply Hn. exact Hmedia.
  - intros fuel host manifestMap path flags extra t m ts t' H. split.
    + exact (createManifest_exclusive _ _ _ _ _ _ _ _ _ _ H).
    + destruct (createManifest_carried _ _ _ _ _ _ _ _ _ _ H) as (built & Hb & Hc).
      exists built. split; [exact Hb|].
      pose proof (builtEntries_classified _ _ _ _ _ _ _ _ _ Hb) as Hclass.
      rewrite Forall_forall in Hclass.
      eapply Forall_impl; [|exact Hc].
      intros e (b & Hin & Ht & Hh). exists b.
      split; [exact Hin|]. split; [exact Ht|]. split; [exact Hh|].
      destruct (Hclass b Hin)
        as [(page & upd & t0 & t1 & Hpe & Hnone)
           |(parentPath & resource & lm & lm' & Hre & Hshape)].
      * left. exists page, upd, t0, t1. split; [exact Hpe|]. congruence.
      * right. exists parentPath, resource, lm, lm'. split; [exact Hre|].
        rewrite Ht, Hh. exact Hshape.
Qed.

(** C7: in the entries of a manifest that createManifest returns no two
    entries have the same path, and the entries are exactly the processed
    entries that no later processed entry of the same path replaced, the
    processing order being the page entry, the resources, then the entries
    of each fragment in the order of the fragment list. *)
Theorem createManifest_entries_last_wins fuel host manifestMap path
    isHtmlUpdatedMap additionalAssets t m ts t' :
  createManifest fuel host manifestMap path isHtmlUpdatedMap additionalAssets t
  = Ok (m, ts, t') ->
  NoDup (map ManifestGenerator.path (entries m))
  /\ exists processed,
       processedEntries fuel host manifestMap path isHtmlUpdatedMap additionalAssets t
       = Ok (processed, t')
       /\ (forall e, In e (entries m)
                     <-> lastWithPath processed (ManifestGenerator.path e) = Some e)
       /\ (forall p, entryAt (entries m) p = lastWithPath processed p).
Proof.
  intros H.
  destruct (createManifest_processed _ _ _ _ _ _ _ _ _ _ H)
    as (processed & Hp & He).
  assert (Hkeyed : keyedByPath (fold_left setEntry processed [])).
  { apply fold_setEntry_keyedByPath. constructor. }
  assert (Hnd : NoDup (map ManifestGenerator.path (entries m))).
  { rewrite He, (keyedByPath_paths _ Hkeyed).
    apply fold_setEntry_NoDup. constructor. }
  assert (Hat : forall p, entryAt (entries m) p = lastWithPath processed p).
  { intros p. rewrite He, (keyedByPath_entryAt _ p Hkeyed), fold_setEntry_mapGet.
    destruct (lastWithPath processed p); reflexivity. }
  split; [exact Hnd|].
  exists processed. split; [exact Hp|]. split; [|exact Hat].
  intros e. rewrite <- Hat. apply entryAt_In. exact Hnd.
Qed.

End Assembly.

(** ** Two runs under two clocks *)

Section TwoClocks.

Variable MEDIA_PREFIX : jsstring.
Variable w : World.
Variable c2 : nat -> Z.
Variable isHtmlUpdatedMap : jsstring -> bool.

Abbreviation w2 := (withClock w c2).
Abbreviation alike := (sameButClock MEDIA_PREFIX w c2).

Abbreviation mapsAlike host t0 t1 :=
  (entryMapsAlike (alike host isHtmlUpdatedMap t0 t1)).

Lemma outcomesAlike_impl {A B} (R R' : nat -> A -> B -> Prop)
    (o1 : outcome (A * nat)) (o2 : outcome (B * nat)) :
  (forall t a b, R t a b -> R' t a b) ->
  outcomesAlike R o1 o2 -> outcomesAlike R' o1 o2.
Proof.
  intros HR. unfold outcomesAlike.
  destruct o1 as [[a t1]| |], o2 as [[b t2]| |]; auto.
  intros [Ht H]. split; [exact Ht | apply HR, H].
Qed.

Lemma alike_refl host t0 t1 (e : Entry) : alike host isHtmlUpdatedMap t0 t1 e e.
Proof. unfold sameButClock. auto. Qed.

Lemma Forall2_alike_refl host t0 t1 (l : list Entry) :
  Forall2 (alike host isHtmlUpdatedMap t0 t1) l l.
Proof. induction l; constructor; [apply alike_refl | assumption]. Qed.

(** What holds of the reads of a span of the run holds of a wider span. *)
Lemma alike_widen host t0 t1 u0 u1 (e1 e2 : Entry) :
  (u0 <= t0)%nat -> (t1 <= u1)%nat ->
  alike host isHtmlUpdatedMap t0 t1 e1 e2 -> alike host isHtmlUpdatedMap u0 u1 e1 e2.
Proof.
  intros H0 H1 (Hpath & Hhash & Hts). split; [exact Hpath|]. split; [exact Hhash|].
  destruct Hts as [Hts|(p & i & b1 & b2 & Hflag & Hi & Hrest)]; [left; exact Hts|].
  right. exists p, i, b1, b2. split; [exact Hflag|]. split; [lia | exact Hrest].
Qed.

Lemma Forall2_alike_widen host t0 t1 u0 u1 (l1 l2 : list Entry) :
  (u0 <= t0)%nat -> (t1 <= u1)%nat ->
  Forall2 (alike host isHtmlUpdatedMap t0 t1) l1 l2 ->
  Forall2 (alike host isHtmlUpdatedMap u0 u1) l1 l2.
Proof.
  intros H0 H1. induction 1; constructor; [|assumption].
  exact (alike_widen _ _ _ _ _ _ _ H0 H1 H).
Qed.

Lemma mapsAlike_widen host t0 t1 u0 u1 (m1 m2 : Map Entry) :
  (u0 <= t0)%nat -> (t1 <= u1)%nat ->
  mapsAlike host t0 t1 m1 m2 -> mapsAlike host u0 u1 m1 m2.
Proof.
  intros H0 H1. unfold entryMapsAlike.
  induction 1 as [|kv1 kv2 m1 m2 [Hk Hv] _ IH]; constructor; [|assumption].
  split; [exact Hk|]. exact (alike_widen _ _ _ _ _ _ _ H0 H1 Hv).
Qed.

Lemma getPageJsonEntry_alike host p t :
  outcomesAlike
    (fun t' e1 e2 => (t <= t')%nat /\ alike host isHtmlUpdatedMap t t' e1 e2)
    (getPageJsonEntry w host p (isHtmlUpdatedMap p) t)
    (getPageJsonEntry w2 host p (isHtmlUpdatedMap p) t).
Proof.
  destruct (fetchDataWithMethod w host (p ++ str ".html") HEAD) as [resp|] eqn:Hf.
  - rewrite (getPageJsonEntry_available w _ _ _ _ _ Hf).
    rewrite (getPageJsonEntry_available w2 _ _ (isHtmlUpdatedMap p) t _ Hf).
    destruct (isHtmlUpdatedMap p) eqn:Hflag; simpl.
    + split; [reflexivity|]. split; [lia|]. unfold sameButClock. simpl.
      split; [reflexivity|]. split; [reflexivity|]. right.
      exists p, t. eexists; eexists.
      split; [exact Hflag|]. split; [lia|].
      split; [exact (getPageJsonEntry_available w _ _ true t _ Hf)|].
      split; [exact (getPageJsonEntry_available w2 _ _ true t _ Hf)|].
      split; [apply rebased_none|]. split; [apply rebased_none|].
      repeat split.
    + split; [reflexivity|]. split; [lia | apply alike_refl].
  - rewrite (getPageJsonEntry_unavailable w _ _ _ _ Hf).
    rewrite (getPageJsonEntry_unavailable w2 _ _ (isHtmlUpdatedMap p) t Hf).
    reflexivity.
Qed.

Lemma resourceEntry_clock host parentPath resource lastModified :
  resourceEntry MEDIA_PREFIX w2 host parentPath resource lastModified
  = resourceEntry MEDIA_PREFIX w host parentPath resource lastModified.
Proof. reflexivity. Qed.

(** The entry of a resource does not depend on [lastModified]. *)
Lemma resourceEntry_entry host parentPath resource lm1 lm2 :
  option_map fst (resourceEntry MEDIA_PREFIX w host parentPath resource lm1)
  = option_map fst (resourceEntry MEDIA_PREFIX w host parentPath resource lm2).
Proof.
  unfold resourceEntry.
  destruct (match fetchDataWithMethod w host (trim resource) HEAD with
            | Some _ => false
            | None => negb (isFileDirty w (slice1 (trim resource)))
            end); [reflexivity|].
  destruct (isMedia MEDIA_PREFIX (trim resource)); [reflexivity|].
  destruct (match fetchDataWithMethod w host (trim resource) HEAD with
            | Some r => truthyHeader (last_modified r)
            | None => None
            end); reflexivity.
Qed.

Lemma resourcesLoop_alike host t0 t1 parentPath resourcesArr :
  forall acc1 acc2 lm1 lm2,
    Forall2 (alike host isHtmlUpdatedMap t0 t1) acc1 acc2 ->
    Forall2 (alike host isHtmlUpdatedMap t0 t1)
      (fst (resourcesLoop MEDIA_PREFIX w host parentPath resourcesArr acc1 lm1))
      (fst (resourcesLoop MEDIA_PREFIX w2 host parentPath resourcesArr acc2 lm2)).
Proof.
  induction resourcesArr as [|r rest IH]; intros acc1 acc2 lm1 lm2 Hacc; simpl.
  - exact Hacc.
  - rewrite resourceEntry_clock.
    pose proof (resourceEntry_entry host parentPath r lm1 lm2) as He.
    destruct (resourceEntry MEDIA_PREFIX w host parentPath r lm1) as [[e1 lm1']|],
             (resourceEntry MEDIA_PREFIX w host parentPath r lm2) as [[e2 lm2']|];
      simpl in He; try discriminate.
    + inversion He; subst. apply IH. apply Forall2_app; [exact Hacc|].
      constructor; [apply alike_refl | constructor].
    + apply IH. exact Hacc.
Qed.

Lemma createEntries_alike host p pageResources t :
  outcomesAlike
    (fun t' r1 r2 =>
       (t <= t')%nat /\ Forall2 (alike host isHtmlUpdatedMap t t') (fst r1) (fst r2))
    (createEntries MEDIA_PREFIX w host p pageResources (isHtmlUpdatedMap p) t)
    (createEntries MEDIA_PREFIX w2 host p pageResources (isHtmlUpdatedMap p) t).
Proof.
  unfold createEntries, bind.
  pose proof (getPageJsonEntry_alike host p t) as Hpe.
  destruct (getPageJsonEntry w host p (isHtmlUpdatedMap p) t) as [[pe1 t1]| |],
           (getPageJsonEntry w2 host p (isHtmlUpdatedMap p) t) as [[pe2 t2]| |];
    simpl in Hpe; try contradiction; try exact Hpe.
  destruct Hpe as (-> & Ht & Hpe). unfold ret. simpl.
  split; [reflexivity|]. split; [exact Ht|].
  apply resourcesLoop_alike. constructor; [exact Hpe | constructor].
Qed.

Lemma setEntry_alike host t0 t1 m1 m2 e1 e2 :
  mapsAlike host t0 t1 m1 m2 -> alike host isHtmlUpdatedMap t0 t1 e1 e2 ->
  mapsAlike host t0 t1 (setEntry m1 e1) (setEntry m2 e2).
Proof.
  unfold setEntry. intros Hm He.
  assert (Hpath : path e1 = path e2) by apply He.
  rewrite <- Hpath.
  induction Hm as [|[k1 v1] [k2 v2] m1 m2 [Hk Hv] Htail IH]; simpl.
  - constructor; [split; [reflexivity | exact He] | constructor].
  - simpl in Hk. subst k2.
    destruct (jsstring_dec k1 (path e1)).
    + constructor; [split; [reflexivity | exact He] | exact Htail].
    + constructor; [split; [reflexivity | exact Hv] | exact IH].
Qed.

Lemma fold_setEntry_alike host t0 t1 l1 l2 :
  Forall2 (alike host isHtmlUpdatedMap t0 t1) l1 l2 ->
  forall m1 m2, mapsAlike host t0 t1 m1 m2 ->
                mapsAlike host t0 t1 (fold_left setEntry l1 m1) (fold_left setEntry l2 m2).
Proof.
  induction 1 as [|e1 e2 l1 l2 He _ IH]; simpl; intros m1 m2 Hm; [exact Hm|].
  apply IH, setEntry_alike; assumption.
Qed.

(** The merge moves the two entries of a pair alike: they have one path. *)
Lemma rebase_alike host t0 t1 path e1 e2 :
  alike host isHtmlUpdatedMap t0 t1 e1 e2 ->
  alike host isHtmlUpdatedMap t0 t1
    (rebase MEDIA_PREFIX path e1) (rebase MEDIA_PREFIX path e2).
Proof.
  intros (Hpath & Hhash & Hts).
  destruct (rebase_fields MEDIA_PREFIX path e1) as [Et1 Eh1].
  destruct (rebase_fields MEDIA_PREFIX path e2) as [Et2 Eh2].
  split; [|split].
  - unfold rebase. rewrite <- Hpath.
    destruct (isMedia MEDIA_PREFIX (ManifestGenerator.path e1)); simpl;
      [reflexivity | exact Hpath].
  - rewrite Eh1, Eh2. exact Hhash.
  - rewrite Et1, Et2, Eh1.
    destruct Hts as [Hts|(p & i & b1 & b2 & Hflag & Hi & Hb1 & Hb2 & Hr1 & Hr2 & Hrest)];
      [left; exact Hts|].
    right. exists p, i, b1, b2.
    split; [exact Hflag|]. split; [exact Hi|].
    split; [exact Hb1|]. split; [exact Hb2|].
    split; [apply rebased_step; exact Hr1|].
    split; [apply rebased_step; exact Hr2|]. exact Hrest.
Qed.

Lemma map_rebase_alike host t0 t1 path l1 l2 :
  Forall2 (alike host isHtmlUpdatedMap t0 t1) l1 l2 ->
  Forall2 (alike host isHtmlUpdatedMap t0 t1)
    (map (rebase MEDIA_PREFIX path) l1) (map (rebase MEDIA_PREFIX path) l2).
Proof.
  induction 1; simpl; constructor; [apply rebase_alike|]; assumption.
Qed.

Lemma mapValues_alike host t0 t1 m1 m2 :
  mapsAlike host t0 t1 m1 m2 ->
  Forall2 (alike host isHtmlUpdatedMap t0 t1) (mapValues m1) (mapValues m2).
Proof.
  induction 1 as [|kv1 kv2 m1 m2 [_ Hv] _ IH]; simpl; constructor; assumption.
Qed.

Lemma fragmentsLoop_alike host
    (recur1 recur2 : jsstring -> list jsstring -> async (Manifest * Z)) path :
  (forall p extra t,
      outcomesAlike
        (fun t' r1 r2 =>
           (t <= t')%nat
           /\ Forall2 (alike host isHtmlUpdatedMap t t')
                (entries (fst r1)) (entries (fst r2)))
        (recur1 p extra t) (recur2 p extra t)) ->
  forall fragmentsList all1 all2 flm1 flm2 t0 t,
    (t0 <= t)%nat ->
    mapsAlike host t0 t all1 all2 ->
    outcomesAlike
      (fun t' r1 r2 => (t <= t')%nat /\ mapsAlike host t0 t' (fst r1) (fst r2))
      (fragmentsLoop MEDIA_PREFIX recur1 path fragmentsList all1 flm1 t)
      (fragmentsLoop MEDIA_PREFIX recur2 path fragmentsList all2 flm2 t).
Proof.
  intros Hrec. induction fragmentsList as [|f rest IH];
    intros all1 all2 flm1 flm2 t0 t Ht0 Hall.
  - simpl. split; [reflexivity|]. split; [lia | exact Hall].
  - cbn [fragmentsLoop]. unfold bind.
    pose proof (Hrec f [f ++ str ".plain.html"] t) as Hf.
    destruct (recur1 f [f ++ str ".plain.html"] t) as [[[m1 ts1] t1]| |],
             (recur2 f [f ++ str ".plain.html"] t) as [[[m2 ts2] t2]| |];
      simpl in Hf; try contradiction; try exact Hf.
    destruct Hf as (-> & Ht & Hm).
    eapply outcomesAlike_impl;
      [|apply (IH _ _ _ _ t0 t2); [lia|]].
    + intros t' r1 r2 [Ht' Hr]. split; [lia | exact Hr].
    + rewrite !fold_mergeFragmentEntry.
      apply fold_setEntry_alike.
      * apply map_rebase_alike.
        apply (Forall2_alike_widen host t t2 t0 t2); [exact Ht0 | lia | exact Hm].
      * apply (mapsAlike_widen host t0 t t0 t2); [lia | exact Ht | exact Hall].
Qed.

Lemma createManifest_alike fuel host manifestMap :
  forall path additionalAssets t,
    outcomesAlike
      (fun t' r1 r2 =>
         (t <= t')%nat
         /\ Forall2 (alike host isHtmlUpdatedMap t t')
              (entries (fst r1)) (entries (fst r2)))
      (createManifest MEDIA_PREFIX w fuel host manifestMap path isHtmlUpdatedMap
         additionalAssets t)
      (createManifest MEDIA_PREFIX w2 fuel host manifestMap path isHtmlUpdatedMap
         additionalAssets t).
Proof.
  induction fuel as [|fuel IH]; intros path extra t; [exact I|].
  cbn [createManifest]. unfold bind. unfold getData.
  destruct (manifestMap path) as [data|]; [|reflexivity].
  unfold bind.
  pose proof (createEntries_alike host (dataPath data)
                (pageResourcesOf data extra) t) as Hce.
  destruct (createEntries MEDIA_PREFIX w host (dataPath data) _ _ t)
    as [[[es1 lm1] t1]| |],
           (createEntries MEDIA_PREFIX w2 host (dataPath data) _ _ t)
    as [[[es2 lm2] t2]| |];
    simpl in Hce; try contradiction; try exact Hce.
  destruct Hce as (-> & Ht & Hes).
  unfold bind.
  pose proof (fragmentsLoop_alike host _ _ path (fun p extra t => IH p extra t)
                (parsed (fragments data))
                (fold_left setEntry es1 []) (fold_left setEntry es2 []) 0 0 t t2 Ht
                (fold_setEntry_alike _ _ _ _ _ Hes [] [] (Forall2_nil _))) as Hfl.
  destruct (fragmentsLoop MEDIA_PREFIX _ path _ (fold_left setEntry es1 []) 0 t2)
    as [[[a1 f1] u1]| |],
           (fragmentsLoop MEDIA_PREFIX _ path _ (fold_left setEntry es2 []) 0 t2)
    as [[[a2 f2] u2]| |];
    simpl in Hfl; try contradiction; try exact Hfl.
  destruct Hfl as (-> & Hu & Hall). simpl. split; [reflexivity|].
  split; [lia|]. apply mapValues_alike. exact Hall.
Qed.

(** A run in which no page is flagged as updated never reads the clock. *)
Lemma fragmentsLoop_ext
    (recur1 recur2 : jsstring -> list jsstring -> async (Manifest * Z)) path :
  (forall p extra t, recur1 p extra t = recur2 p extra t) ->
  forall fragmentsList allEntries flm t,
    fragmentsLoop MEDIA_PREFIX recur1 path fragmentsList allEntries flm t
    = fragmentsLoop MEDIA_PREFIX recur2 path fragmentsList allEntries flm t.
Proof.
  intros Hrec. induction fragmentsList as [|f rest IH]; intros all flm t;
    [reflexivity|].
  cbn [fragmentsLoop]. unfold bind. rewrite Hrec.
  destruct (recur2 f [f ++ str ".plain.html"] t) as [[[m ts] t1]| |];
    try reflexivity.
  apply IH.
Qed.

Lemma createManifest_clock_unread fuel host manifestMap :
  (forall p, isHtmlUpdatedMap p = false) ->
  forall path additionalAssets t,
    createManifest MEDIA_PREFIX w fuel host manifestMap path isHtmlUpdatedMap
      additionalAssets t
    = createManifest MEDIA_PREFIX w2 fuel host manifestMap path isHtmlUpdatedMap
        additionalAssets t.
Proof.
  intros Hflags. induction fuel as [|fuel IH]; intros path extra t; [reflexivity|].
  cbn [createManifest]. unfold bind. 
  destruct (getData manifestMap path t) as [[data t0]| |]; try reflexivity.
  rewrite Hflags.
  change (createEntries MEDIA_PREFIX w2 host (dataPath data)
            (pageResourcesOf data extra) false)
    with (createEntries MEDIA_PREFIX w host (dataPath data)
            (pageResourcesOf data extra) false).
  unfold bind.
  destruct (createEntries MEDIA_PREFIX w host (dataPath data) _ false t0)
    as [[[es lm] t1]| |]; try reflexivity.
  unfold bind.
  rewrite (fragmentsLoop_ext _ _ path (fun p extra t => IH p extra t)).
  reflexivity.
Qed.

End TwoClocks.

(** C8: two calls of createManifest on the same inputs, in worlds that
    answer the probes, the dirty checks and the date parsing alike and
    differ by their clocks only, end alike: both throw the same exception
    or both return, after as many clock reads, entries lists of the same
    length and order whose entries have pairwise the same path and hash,
    and the same timestamp unless the two entries are the page entry of a
    page flagged as updated, built in each call by getPageJsonEntry at the
    same clock read of the call and moved by the merge of the fragments,
    whose timestamp is that read of the clock; when no page is flagged,
    the two calls return the same. *)
Theorem createManifest_entries_repeatable (MEDIA_PREFIX : jsstring) (w : World)
    (c2 : nat -> Z) (fuel : nat) (host : jsstring)
    (manifestMap : jsstring -> option PageData) (path : jsstring)
    (isHtmlUpdatedMap : jsstring -> bool) (additionalAssets : list jsstring)
    (t : nat) :
  outcomesAlike
    (fun t' r1 r2 =>
       Forall2 (sameButClock MEDIA_PREFIX w c2 host isHtmlUpdatedMap t t')
         (entries (fst r1)) (entries (fst r2)))
    (createManifest MEDIA_PREFIX w fuel host manifestMap path isHtmlUpdatedMap
       additionalAssets t)
    (createManifest MEDIA_PREFIX (withClock w c2) fuel host manifestMap path
       isHtmlUpdatedMap additionalAssets t)
  /\ ((forall p, isHtmlUpdatedMap p = false) ->
      createManifest MEDIA_PREFIX w fuel host manifestMap path isHtmlUpdatedMap
        additionalAssets t
      = createManifest MEDIA_PREFIX (withClock w c2) fuel host manifestMap path
          isHtmlUpdatedMap additionalAssets t).
Proof.
  split.
  - eapply outcomesAlike_impl; [|apply createManifest_alike].
    intros t' r1 r2 [_ H]. exact H.
  - intros Hflags. apply createManifest_clock_unread. exact Hflags.
Qed.

From Stdlib Require Import Permutation Sorting.Sorted Relations Wf_nat.

(** ** More facts on the string operations *)

Module TrimFacts.

Lemma trimStart_blank (ws s : jsstring) : blank ws -> trimStart (ws ++ s) = trimStart s.
Proof.
  induction 1 as [|c ws Hc _ IH]; simpl; [reflexivity|].
  rewrite Hc. exact IH.
Qed.

Lemma trimStart_app (a b : jsstring) :
  trimStart (a ++ b) = match trimStart a with
                       | [] => trimStart b
                       | _ :: _ => trimStart a ++ b
                       end.
Proof.
  induction a as [|c a IH]; simpl; [reflexivity|].
  destruct (isWhiteSpace c); [exact IH | reflexivity].
Qed.

Lemma trimStart_idem (s : jsstring) : trimStart (trimStart s) = trimStart s.
Proof.
  induction s as [|c s IH]; simpl; [reflexivity|].
  destruct (isWhiteSpace c) eqn:Hc; [exact IH|]. simpl. rewrite Hc. reflexivity.
Qed.

Lemma trimEnd_blank (s ws : jsstring) : blank ws -> trimEnd (s ++ ws) = trimEnd s.
Proof.
  intros Hws. unfold trimEnd. rewrite rev_app_distr.
  rewrite trimStart_blank; [reflexivity | apply Forall_rev; exact Hws].
Qed.

Lemma trimEnd_app (a b : jsstring) :
  trimEnd (a ++ b) = match trimEnd b with
                     | [] => trimEnd a
                     | _ :: _ => a ++ trimEnd b
                     end.
Proof.
  unfold trimEnd. rewrite rev_app_distr, trimStart_app.
  destruct (trimStart (rev b)) as [|c r] eqn:E; [reflexivity|].
  rewrite rev_app_distr, rev_involutive.
  destruct (rev (c :: r)) eqn:E2; [|reflexivity].
  apply (f_equal (@List.length _)) in E2. rewrite length_rev in E2. discriminate.
Qed.

Lemma trimEnd_idem (s : jsstring) : trimEnd (trimEnd s) = trimEnd s.
Proof.
  unfold trimEnd. rewrite rev_involutive, trimStart_idem. reflexivity.
Qed.

Lemma trimStart_nil_blank (s : jsstring) : trimStart s = [] -> blank s.
Proof.
  induction s as [|c s IH]; simpl; intros H; [constructor|].
  destruct (isWhiteSpace c) eqn:Hc; [|discriminate].
  constructor; [exact Hc | exact (IH H)].
Qed.

Lemma blank_trimStart (s : jsstring) : blank s -> trimStart s = [].
Proof.
  intros H. rewrite <- (app_nil_r s). rewrite trimStart_blank by exact H. reflexivity.
Qed.

Lemma blank_trimEnd (s : jsstring) : blank s -> trimEnd s = [].
Proof.
  intros H. unfold trimEnd. rewrite blank_trimStart; [reflexivity|].
  apply Forall_rev. exact H.
Qed.

(** Trimming the start of a string trimmed at its end leaves the end
    trimmed. *)
Lemma trimEnd_trimStart_comm (s : jsstring) :
  trimEnd (trimStart s) = trimStart (trimEnd s).
Proof.
  induction s as [|c s IH]; [reflexivity|].
  change (c :: s) with ([c] ++ s) at 2. rewrite trimEnd_app.
  simpl trimStart at 1.
  destruct (isWhiteSpace c) eqn:Hc.
  - rewrite IH. destruct (trimEnd s) as [|d r] eqn:E.
    + simpl. unfold trimEnd. simpl. rewrite Hc. reflexivity.
    + simpl. rewrite Hc. reflexivity.
  - change (c :: s) with ([c] ++ s). rewrite trimEnd_app.
    destruct (trimEnd s) as [|d r] eqn:E.
    + unfold trimEnd. simpl. rewrite Hc. simpl. rewrite Hc. reflexivity.
    + simpl. rewrite Hc. reflexivity.
Qed.

Lemma trim_idem (s : jsstring) : trim (trim s) = trim s.
Proof.
  unfold trim.
  rewrite (trimEnd_trimStart_comm s) at 1.
  rewrite trimStart_idem, <- trimEnd_trimStart_comm, trimEnd_idem. reflexivity.
Qed.

Lemma trimStart_trim (s : jsstring) : trimStart (trim s) = trim s.
Proof.
  unfold trim. rewrite trimEnd_trimStart_comm, trimStart_idem. reflexivity.
Qed.

Lemma trimEnd_trim (s : jsstring) : trimEnd (trim s) = trim s.
Proof. unfold trim. apply trimEnd_idem. Qed.

(** Whitespace around a string does not show after [trim]. *)
Lemma trim_padded (w1 s w2 : jsstring) :
  blank w1 -> blank w2 -> trim (w1 ++ s ++ w2) = trim s.
Proof.
  intros H1 H2. unfold trim. rewrite trimStart_blank by exact H1.
  rewrite !trimEnd_trimStart_comm, trimEnd_blank by exact H2. reflexivity.
Qed.

Lemma trim_split (s : jsstring) :
  exists w1 w2, s = w1 ++ trim s ++ w2 /\ blank w1 /\ blank w2.
Proof.
  destruct (trimStart_split s) as (w1 & Hs & Hw1).
  destruct (trimEnd_split (trimStart s)) as (w2 & Ht & Hw2).
  exists w1, w2. split; [|split; assumption].
  unfold trim. rewrite <- Ht. exact Hs.
Qed.

Lemma solid_trimStart (s : jsstring) : solid s -> trimStart s = s.
Proof.
  destruct 1 as [|c s Hc _]; simpl; [reflexivity|]. rewrite Hc. reflexivity.
Qed.

Lemma solid_trim (s : jsstring) : solid s -> trim s = s.
Proof.
  intros H. unfold trim. rewrite (solid_trimStart s H).
  unfold trimEnd. rewrite solid_trimStart; [apply rev_involutive|].
  apply Forall_rev. exact H.
Qed.

(** A string that [trimStart] leaves alone and that is not empty keeps
    what is put before it from being trimmed away with it. *)
Lemma trimStart_before (x t : jsstring) :
  trimStart t = t -> t <> [] -> exists u, trimStart (x ++ t) = u ++ t.
Proof.
  intros Ht Hne. rewrite trimStart_app.
  destruct (trimStart x) as [|c r].
  - exists []. exact Ht.
  - exists (c :: r). reflexivity.
Qed.

Lemma trimEnd_after (t y : jsstring) :
  trimEnd t = t -> t <> [] -> trimEnd (y ++ t) = y ++ t.
Proof.
  intros Ht Hne. rewrite trimEnd_app, Ht.
  destruct t; [congruence | reflexivity].
Qed.

Lemma trimEnd_suffix (a r : jsstring) :
  trimEnd (a ++ r) = a ++ r -> r <> [] -> trimEnd r = r.
Proof.
  intros H Hne. rewrite trimEnd_app in H.
  destruct (trimEnd r) as [|c q] eqn:E.
  - exfalso.
    destruct (trimEnd_split a) as (ws & Ha & Hws).
    assert (Hlen : (List.length (trimEnd a) <= List.length a)%nat).
    { rewrite Ha at 2. rewrite length_app. lia. }
    rewrite H, length_app in Hlen. destruct r; [congruence | simpl in Hlen; lia].
  - apply app_inv_head in H. exact H.
Qed.

End TrimFacts.

Import TrimFacts.

Module OccurrenceFacts.

Lemma startsWith_true (s p : jsstring) :
  startsWith s p = true <-> exists b, s = p ++ b.
Proof.
  split.
  - revert s. induction p as [|a p IH]; intros s H.
    + exists s. reflexivity.
    + destruct s as [|c s]; [discriminate|]. simpl in H.
      destruct (ascii_dec a c) as [->|]; [|discriminate].
      destruct (IH _ H) as (b & ->). exists b. reflexivity.
  - intros (b & ->). apply startsWith_app.
Qed.

Lemma firstOccurrence_Some (s p : jsstring) (i : nat) :
  firstOccurrence s p = Some i ->
  exists a b, s = a ++ p ++ b /\ List.length a = i.
Proof.
  revert i. induction s as [|c s IH]; intros i H.
  - cbn [firstOccurrence] in H. destruct (startsWith [] p) eqn:E; [|discriminate].
    inversion H; subst. apply startsWith_true in E. destruct E as (b & E).
    exists [], b. split; [exact E | reflexivity].
  - cbn [firstOccurrence] in H. destruct (startsWith (c :: s) p) eqn:E.
    + inversion H; subst. apply startsWith_true in E. destruct E as (b & E).
      exists [], b. split; [exact E | reflexivity].
    + destruct (firstOccurrence s p) as [j|]; [|discriminate].
      simpl in H. inversion H; subst.
      destruct (IH j eq_refl) as (a & b & -> & Hlen).
      exists (c :: a), b. split; [reflexivity | simpl; congruence].
Qed.

Lemma firstOccurrence_found (a p b : jsstring) :
  exists i, firstOccurrence (a ++ p ++ b) p = Some i /\ (i <= List.length a)%nat.
Proof.
  induction a as [|c a IH].
  - exists 0%nat. simpl app. rewrite firstOccurrence_prefix. split; [reflexivity | lia].
  - cbn [firstOccurrence app]. destruct (startsWith (c :: a ++ p ++ b) p).
    + exists 0%nat. split; [reflexivity | lia].
    + destruct IH as (i & -> & Hi). exists (S i). split; [reflexivity | simpl; lia].
Qed.

Lemma includes_true (s p : jsstring) :
  includes s p = true <-> exists a b, s = a ++ p ++ b.
Proof.
  unfold includes. split.
  - destruct (firstOccurrence s p) as [i|] eqn:E; [|discriminate].
    intros _. destruct (firstOccurrence_Some _ _ _ E) as (a & b & H & _).
    exists a, b. exact H.
  - intros (a & b & ->). destruct (firstOccurrence_found a p b) as (i & -> & _).
    reflexivity.
Qed.

Lemma firstOccurrence_absent_char (s : jsstring) (c : ascii) :
  ~ In c s -> firstOccurrence s [c] = None.
Proof.
  induction s as [|x s IH]; intros Hin; [reflexivity|].
  cbn [firstOccurrence startsWith].
  destruct (ascii_dec c x) as [->|_].
  - exfalso. apply Hin. left. reflexivity.
  - rewrite IH; [reflexivity|]. intros H. apply Hin. right. exact H.
Qed.

(** Where the last occurrence of a character is. *)
Lemma lastOccurrence_char (s : jsstring) (c : ascii) :
  match lastOccurrence s [c] with
  | Some i => exists a b, s = a ++ c :: b /\ List.length a = i /\ ~ In c b
  | None => ~ In c s
  end.
Proof.
  induction s as [|x s IH]; [simpl; tauto|].
  cbn [lastOccurrence]. destruct (lastOccurrence s [c]) as [i|].
  - destruct IH as (a & b & -> & Hlen & Hb).
    exists (x :: a), b. repeat split; [simpl; congruence | exact Hb].
  - cbn [startsWith]. destruct (ascii_dec c x) as [->|Hne].
    + rewrite startsWith_nil. exists [], s. repeat split. exact IH.
    + intros [H|H]; [congruence | exact (IH H)].
Qed.

End OccurrenceFacts.

Import OccurrenceFacts.

(** ** Parents, names and hierarchies of paths *)

Section Paths.

Lemma substring_to_negative (s : jsstring) : substring s 0 (-1) = [].
Proof.
  unfold substring. rewrite !clamp_negative by lia. reflexivity.
Qed.

Lemma substring_from_start (s : jsstring) (i : nat) :
  (i <= List.length s)%nat -> substring s 0 (Z.of_nat i) = firstn i s.
Proof.
  intros Hi. change 0 with (Z.of_nat 0). rewrite substring_within by lia.
  rewrite Nat.sub_0_r. reflexivity.
Qed.

Lemma getParentFromPath_split (a b : jsstring) :
  ~ In "/"%char b ->
  PathUtils.getParentFromPath (a ++ str "/" ++ b) = a
  /\ PathUtils.getCurrentPathName (a ++ str "/" ++ b) = b.
Proof.
  intros Hb. unfold PathUtils.getParentFromPath, PathUtils.getCurrentPathName, lastIndexOf.
  pose proof (lastOccurrence_char (a ++ str "/" ++ b) "/"%char) as H.
  change [ "/"%char ] with (str "/") in H.
  destruct (lastOccurrence (a ++ str "/" ++ b) (str "/")) as [i|].
  - destruct H as (a' & b' & Hs & Hlen & Hb').
    assert (Ha : a' = a /\ b' = b).
    { clear Hlen. revert a' Hs. induction a as [|x a IH]; intros a' Hs.
      - destruct a' as [|y a']; simpl in Hs.
        + inversion Hs. split; reflexivity.
        + exfalso. inversion Hs; subst. apply Hb. apply in_or_app. right. left. reflexivity.
      - destruct a' as [|y a']; simpl in Hs.
        + exfalso. inversion Hs; subst. apply Hb'. apply in_or_app. right. left. reflexivity.
        + inversion Hs; subst. destruct (IH a' H1) as [-> ->]. split; reflexivity. }
    destruct Ha as [-> ->]. subst i. cbn [indexResult]. split.
    + rewrite substring_from_start by (rewrite length_app; lia).
      rewrite firstn_app, firstn_all, Nat.sub_diag. simpl. apply app_nil_r.
    + replace (Z.of_nat (List.length a) + 1) with (Z.of_nat (S (List.length a))) by lia.
      rewrite substringFrom_of_nat.
      change (S (List.length a)) with (1 + List.length a)%nat.
      rewrite <- skipn_skipn, skipn_app, skipn_all, Nat.sub_diag. reflexivity.
  - exfalso. apply H. apply in_or_app. right. left. reflexivity.
Qed.

Lemma getParentFromPath_no_separator (s : jsstring) :
  ~ In "/"%char s ->
  PathUtils.getParentFromPath s = [] /\ PathUtils.getCurrentPathName s = s.
Proof.
  intros Hs. unfold PathUtils.getParentFromPath, PathUtils.getCurrentPathName, lastIndexOf.
  pose proof (lastOccurrence_char s "/"%char) as H.
  change [ "/"%char ] with (str "/") in H.
  destruct (lastOccurrence s (str "/")) as [i|].
  - exfalso. destruct H as (a & b & -> & _). apply Hs. apply in_or_app. right. left.
    reflexivity.
  - cbn [indexResult]. split; [apply substring_to_negative|].
    change (-1 + 1) with (Z.of_nat 0). apply substringFrom_of_nat.
Qed.

Lemma path_split (s : jsstring) :
  In "/"%char s -> exists a b, s = a ++ str "/" ++ b /\ ~ In "/"%char b.
Proof.
  intros Hs. pose proof (lastOccurrence_char s "/"%char) as H.
  destruct (lastOccurrence s [ "/"%char ]) as [i|]; [|contradiction].
  destruct H as (a & b & -> & _ & Hb). exists a, b. split; [reflexivity | exact Hb].
Qed.

(** X1: a path that has a separator is its parent, a separator and its
    name, and the name has no separator; a path without separator has the
    empty parent and is its own name. *)
Theorem getParentFromPath_getCurrentPathName (path : jsstring) :
  ~ In "/"%char (PathUtils.getCurrentPathName path)
  /\ (In "/"%char path ->
      path = PathUtils.getParentFromPath path ++ str "/"
             ++ PathUtils.getCurrentPathName path)
  /\ (~ In "/"%char path ->
      PathUtils.getParentFromPath path = []
      /\ PathUtils.getCurrentPathName path = path).
Proof.
  destruct (in_dec ascii_dec "/"%char path) as [Hin|Hnot].
  - destruct (path_split path Hin) as (a & b & -> & Hb).
    destruct (getParentFromPath_split a b Hb) as [Hp Hn].
    rewrite Hp, Hn. split; [exact Hb|]. split; [reflexivity | contradiction].
  - destruct (getParentFromPath_no_separator path Hnot) as [Hp Hn].
    rewrite Hp, Hn. split; [exact Hnot|]. split; [contradiction | tauto].
Qed.

Lemma getParentFromPath_shorter (s : jsstring) :
  s <> [] -> (List.length (PathUtils.getParentFromPath s) < List.length s)%nat.
Proof.
  intros Hne. destruct (in_dec ascii_dec "/"%char s) as [Hin|Hnot].
  - destruct (path_split s Hin) as (a & b & -> & Hb).
    rewrite (proj1 (getParentFromPath_split a b Hb)), length_app. simpl. lia.
  - rewrite (proj1 (getParentFromPath_no_separator s Hnot)).
    destruct s; [congruence | simpl; lia].
Qed.

Lemma getParentFromPath_ancestor (s : jsstring) :
  PathUtils.getParentFromPath s = [] \/ ancestorOf (PathUtils.getParentFromPath s) s.
Proof.
  destruct (in_dec ascii_dec "/"%char s) as [Hin|Hnot].
  - right. destruct (path_split s Hin) as (a & b & -> & Hb).
    rewrite (proj1 (getParentFromPath_split a b Hb)). exists b. reflexivity.
  - left. apply (getParentFromPath_no_separator s Hnot).
Qed.

Lemma ancestorOf_trans (a b c : jsstring) :
  ancestorOf a b -> ancestorOf b c -> ancestorOf a c.
Proof.
  intros (r1 & ->) (r2 & ->). exists (r1 ++ str "/" ++ r2).
  rewrite <- !app_assoc. reflexivity.
Qed.

Lemma eqb_str_eq (a b : jsstring) : eqb_str a b = true <-> a = b.
Proof. unfold eqb_str. destruct (jsstring_dec a b); split; congruence. Qed.

Lemma hierarchyLoop_stops (currentParent : jsstring) :
  negb (eqb_str currentParent (str "/content")) && negb (eqb_str currentParent (str ""))
  = false <->
  currentParent = str "/content" \/ currentParent = [].
Proof.
  rewrite andb_false_iff, !negb_false_iff, !eqb_str_eq. reflexivity.
Qed.

(** The loop ends within as many turns as its start has characters. *)
Lemma hierarchyLoop_total (fuel : nat) :
  forall currentParent hierarchy,
    (List.length currentParent <= fuel)%nat ->
    exists h, PathUtils.hierarchyLoop fuel currentParent hierarchy = Some h.
Proof.
  induction fuel as [|fuel IH]; intros cur acc Hlen.
  - destruct cur; [|simpl in Hlen; lia]. exists acc. reflexivity.
  - cbn [PathUtils.hierarchyLoop].
    destruct (negb (eqb_str cur (str "/content")) && negb (eqb_str cur (str "")))
      eqn:E; [|exists acc; reflexivity].
    apply IH.
    assert (Hne : cur <> []).
    { intros ->. discriminate E. }
    pose proof (getParentFromPath_shorter cur Hne). lia.
Qed.

Lemma hierarchyLoop_more_fuel (fuel : nat) :
  forall currentParent hierarchy h,
    PathUtils.hierarchyLoop fuel currentParent hierarchy = Some h ->
    PathUtils.hierarchyLoop (S fuel) currentParent hierarchy = Some h.
Proof.
  induction fuel as [|fuel IH]; intros cur acc h H.
  - cbn [PathUtils.hierarchyLoop] in *.
    destruct (negb (eqb_str cur (str "/content")) && negb (eqb_str cur (str "")));
      [discriminate | exact H].
  - remember (S fuel) as n. cbn [PathUtils.hierarchyLoop]. subst n.
    cbn [PathUtils.hierarchyLoop] in H.
    destruct (negb (eqb_str cur (str "/content")) && negb (eqb_str cur (str "")));
      [|exact H].
    apply IH. exact H.
Qed.

(** X2: getParentHierarchy ends on every path: with the length of the
    path as fuel the loop returns a hierarchy, and more fuel returns the
    same one. *)
Theorem getParentHierarchy_terminates (path : jsstring) :
  exists hierarchy,
    PathUtils.getParentHierarchy (List.length path) path = Some hierarchy
    /\ forall more,
         PathUtils.getParentHierarchy (more + List.length path) path = Some hierarchy.
Proof.
  unfold PathUtils.getParentHierarchy.
  assert (Hlen : (List.length (PathUtils.getParentFromPath path) <= List.length path)%nat).
  { destruct path as [|c s]; [unfold PathUtils.getParentFromPath; simpl; lia|].
    pose proof (getParentFromPath_shorter (c :: s) ltac:(discriminate)). lia. }
  destruct (hierarchyLoop_total (List.length path) (PathUtils.getParentFromPath path) []
              Hlen) as (h & Hh).
  exists (rev h). rewrite Hh. split; [reflexivity|].
  intros more. induction more as [|more IH]; [simpl; rewrite Hh; reflexivity|].
  change (S more + List.length path)%nat with (S (more + List.length path)).
  destruct (PathUtils.hierarchyLoop (more + List.length path) _ []) as [h'|] eqn:E;
    [|discriminate].
  rewrite (hierarchyLoop_more_fuel _ _ _ _ E). exact IH.
Qed.

Lemma hierarchyEntryOk_up (a b : jsstring) (e : PathUtils.HierarchyEntry) :
  ancestorOf a b -> hierarchyEntryOk a e -> hierarchyEntryOk b e.
Proof.
  intros Hab (Hp & Ht & Hc & He). split; [|tauto].
  right. destruct Hp as [->|Hp]; [exact Hab | exact (ancestorOf_trans _ _ _ Hp Hab)].
Qed.

Lemma hierarchyLoop_shape (fuel : nat) :
  forall currentParent hierarchy h,
    PathUtils.hierarchyLoop fuel currentParent hierarchy = Some h ->
    exists pushed,
      h = hierarchy ++ pushed
      /\ Forall (hierarchyEntryOk currentParent) pushed
      /\ StronglySorted
           (fun x y => ancestorOf (PathUtils.path y) (PathUtils.path x)) pushed
      /\ (let top := match rev pushed with
                     | e :: _ => PathUtils.getParentFromPath (PathUtils.path e)
                     | [] => currentParent
                     end in
          top = str "/content" \/ top = []).
Proof.
  induction fuel as [|fuel IH]; intros cur acc h H; cbn [PathUtils.hierarchyLoop] in H.
  - destruct (negb (eqb_str cur (str "/content")) && negb (eqb_str cur (str "")))
      eqn:E; [discriminate|].
    inversion H; subst. exists []. rewrite app_nil_r.
    split; [reflexivity|]. split; [constructor|]. split; [constructor|].
    simpl. apply hierarchyLoop_stops. exact E.
  - destruct (negb (eqb_str cur (str "/content")) && negb (eqb_str cur (str "")))
      eqn:E.
    + destruct (IH _ _ _ H) as (pushed & -> & Hall & Hsorted & Htop).
      set (e := {| PathUtils.title := PathUtils.getCurrentPathName cur;
                   PathUtils.path := cur |}) in *.
      exists (e :: pushed). rewrite <- app_assoc.
      assert (He : hierarchyEntryOk cur e).
      { split; [left; reflexivity|]. split; [reflexivity|].
        apply andb_true_iff in E. destruct E as [E1 E2].
        apply negb_true_iff in E1, E2. subst e. simpl.
        split; intros Heq; apply (proj2 (eqb_str_eq _ _)) in Heq;
          unfold str in *; simpl in *; congruence. }
      split; [reflexivity|].
      destruct (getParentFromPath_ancestor cur) as [Hnil|Hanc].
      * (* the parent is empty: nothing more is pushed *)
        rewrite Hnil in *. destruct pushed as [|x pushed].
        -- split; [constructor; [exact He | constructor]|].
           split; [constructor; constructor|].
           simpl. right. exact Hnil.
        -- exfalso. inversion Hall as [|? ? Hx _]; subst.
           destruct Hx as (Hp & _ & _ & Hne).
           destruct Hp as [Hp|(rest & Hp)]; [congruence|].
           destruct (PathUtils.path x); [congruence | discriminate].
      * split; [|split].
        -- constructor; [exact He|].
           eapply Forall_impl; [|exact Hall]. intros x Hx.
           exact (hierarchyEntryOk_up _ _ _ Hanc Hx).
        -- constructor; [exact Hsorted|].
           eapply Forall_impl; [|exact Hall]. intros x (Hp & _). simpl.
           destruct Hp as [->|Hp]; [exact Hanc | exact (ancestorOf_trans _ _ _ Hp Hanc)].
        -- simpl. destruct pushed as [|x pushed]; [simpl in *; exact Htop|].
           simpl in Htop. simpl.
           destruct (rev pushed ++ [x]) as [|y l] eqn:Er.
           ++ destruct (rev pushed); discriminate.
           ++ simpl. exact Htop.
    + inversion H; subst. exists []. rewrite app_nil_r.
      split; [reflexivity|]. split; [constructor|]. split; [constructor|].
    simpl. apply hierarchyLoop_stops. exact E.
Qed.

(** X3: the hierarchy that getParentHierarchy returns reads from the root
    down: every entry is a strict ancestor of the path and of every later
    entry, is titled by the name of its own path, and is neither
    "/content" nor empty; the parent of the first entry (or of the path,
    when the hierarchy is empty) is "/content" or empty, and the last
    entry is the parent of the path. *)
Theorem getParentHierarchy_shape (fuel : nat) (path : jsstring)
    (hierarchy : list PathUtils.HierarchyEntry) :
  PathUtils.getParentHierarchy fuel path = Some hierarchy ->
  Forall (fun e =>
            ancestorOf (PathUtils.path e) path
            /\ PathUtils.title e = PathUtils.getCurrentPathName (PathUtils.path e)
            /\ PathUtils.path e <> str "/content"
            /\ PathUtils.path e <> []) hierarchy
  /\ StronglySorted
       (fun x y => ancestorOf (PathUtils.path x) (PathUtils.path y)) hierarchy
  /\ (let top := match hierarchy with
                 | e :: _ => PathUtils.getParentFromPath (PathUtils.path e)
                 | [] => PathUtils.getParentFromPath path
                 end in
      top = str "/content" \/ top = [])
  /\ (hierarchy = [] \/
      exists above e, hierarchy = above ++ [e]
                      /\ PathUtils.path e = PathUtils.getParentFromPath path).
Proof.
  unfold PathUtils.getParentHierarchy.
  destruct (PathUtils.hierarchyLoop fuel (PathUtils.getParentFromPath path) [])
    as [h|] eqn:E; [|discriminate].
  intros H. inversion H; subst. clear H.
  destruct (hierarchyLoop_shape _ _ _ _ E) as (pushed & -> & Hall & Hsorted & Htop).
  simpl app in *.
  assert (Hpath : pushed = [] \/ ancestorOf (PathUtils.getParentFromPath path) path).
  { destruct (getParentFromPath_ancestor path) as [Hnil|Hanc]; [|right; exact Hanc].
    left. destruct pushed as [|x pushed]; [reflexivity|]. exfalso.
    inversion Hall as [|? ? Hx _]; subst. destruct Hx as (Hp & _ & _ & Hne).
    rewrite Hnil in Hp. destruct Hp as [Hp|(rest & Hp)]; [congruence|].
    destruct (PathUtils.path x); [congruence | discriminate]. }
  split; [|split; [|split]].
  - destruct Hpath as [->|Hanc]; [constructor|].
    apply Forall_rev. eapply Forall_impl; [|exact Hall].
    intros e (Hp & Ht & Hc & Hne). split; [|tauto].
    destruct Hp as [->|Hp]; [exact Hanc | exact (ancestorOf_trans _ _ _ Hp Hanc)].
  - clear - Hsorted. induction Hsorted as [|x l _ IH Hx]; simpl; [constructor|].
    clear - IH Hx. revert IH. generalize (rev l) (Forall_rev Hx). clear.
    intros r Hr. induction 1 as [|y r' Hs IH' Hy]; simpl.
    + constructor; constructor.
    + inversion Hr; subst. constructor; [apply IH'; assumption|].
      apply Forall_app. split; [exact Hy | constructor; [assumption | constructor]].
  - exact Htop.
  - destruct pushed as [|x pushed]; [left; reflexivity|]. right.
    exists (rev pushed), x. split; [reflexivity|].
    clear - E.
    destruct fuel as [|fuel]; cbn [PathUtils.hierarchyLoop] in E.
    + destruct (negb _ && negb _); [discriminate|]. inversion E.
    + destruct (negb _ && negb _); [|inversion E].
      destruct (hierarchyLoop_shape _ _ _ _ E) as (p & Hp & _).
      simpl in Hp. inversion Hp. reflexivity.
Qed.

End Paths.

(** ** Media paths *)

Section Media.

Variable MEDIA_PREFIX : jsstring.

(** X4: a path is a media path exactly when its trimmed form has the
    marker somewhere in it, and whitespace around the path does not change
    that; the same holds of isVideoUrl and its identifier, and the two
    copies of isMedia agree. *)
Theorem isMedia_meaning (VIDEOS_IDENTIFIER path w1 w2 : jsstring) :
  blank w1 -> blank w2 ->
  (PathUtils.isMedia MEDIA_PREFIX path = true
   <-> exists a b, trim path = a ++ MEDIA_PREFIX ++ b)
  /\ PathUtils.isMedia MEDIA_PREFIX (w1 ++ path ++ w2)
     = PathUtils.isMedia MEDIA_PREFIX path
  /\ ManifestGenerator.isMedia MEDIA_PREFIX path = PathUtils.isMedia MEDIA_PREFIX path
  /\ (PathUtils.isVideoUrl VIDEOS_IDENTIFIER path = true
      <-> exists a b, trim path = a ++ VIDEOS_IDENTIFIER ++ b)
  /\ PathUtils.isVideoUrl VIDEOS_IDENTIFIER (w1 ++ path ++ w2)
     = PathUtils.isVideoUrl VIDEOS_IDENTIFIER path.
Proof.
  intros H1 H2. unfold PathUtils.isMedia, PathUtils.isVideoUrl, ManifestGenerator.isMedia.
  rewrite (trim_padded w1 path w2 H1 H2).
  repeat split; try apply includes_true; try reflexivity.
Qed.

Lemma isMedia_trim (path : jsstring) :
  isMedia MEDIA_PREFIX (trim path) = isMedia MEDIA_PREFIX path.
Proof. unfold isMedia. rewrite trim_idem. reflexivity. Qed.

(** X5: on a path without any '.', getHashFromMedia does not fail: it
    returns the first characters of the trimmed path, as many as the
    marker has. *)
Theorem getHashFromMedia_without_dot (path : jsstring) :
  ~ In "."%char (trim path) ->
  ManifestGenerator.getHashFromMedia MEDIA_PREFIX path
  = firstn (List.length MEDIA_PREFIX) (trim path)
  /\ PathUtils.getHashFromMedia MEDIA_PREFIX path
     = firstn (List.length MEDIA_PREFIX) (trim path).
Proof.
  intros Hdot.
  assert (H : ManifestGenerator.getHashFromMedia MEDIA_PREFIX path
              = firstn (List.length MEDIA_PREFIX) (trim path)).
  { unfold ManifestGenerator.getHashFromMedia, indexOf.
    rewrite (firstOccurrence_absent_char (trim path) "."%char Hdot
             : firstOccurrence _ (str ".") = _).
    cbn [indexResult]. unfold substring.
    rewrite (clamp_negative (trim path) (-1)) by lia. rewrite clamp_of_nat.
    rewrite Nat.max_0_r, Nat.min_0_r, Nat.sub_0_r. simpl skipn.
    destruct (Nat.le_gt_cases (List.length MEDIA_PREFIX) (List.length (trim path))).
    - rewrite Nat.min_l by lia. reflexivity.
    - rewrite Nat.min_r by lia. rewrite firstn_all. symmetry.
      apply firstn_all2. lia. }
  split; [exact H | exact H].
Qed.

Lemma extractMediaFromPath_found (s : jsstring) (i : nat) :
  firstOccurrence (trim s) MEDIA_PREFIX = Some i ->
  exists a b, trim s = a ++ MEDIA_PREFIX ++ b
              /\ List.length a = i
              /\ PathUtils.extractMediaFromPath MEDIA_PREFIX s = MEDIA_PREFIX ++ b.
Proof.
  intros E. destruct (firstOccurrence_Some _ _ _ E) as (a' & b' & Ht & Hlen).
  exists a', b'. split; [exact Ht|]. split; [exact Hlen|].
  unfold PathUtils.extractMediaFromPath, indexOf. rewrite E. cbn [indexResult].
  rewrite substringFrom_of_nat, Ht, <- Hlen, skipn_app, skipn_all, Nat.sub_diag.
  reflexivity.
Qed.

Lemma marker_suffix_trimmed (path a b : jsstring) (i : nat) :
  solid MEDIA_PREFIX ->
  firstOccurrence (trim path) MEDIA_PREFIX = Some i ->
  trim path = a ++ MEDIA_PREFIX ++ b ->
  List.length a = i ->
  trim (MEDIA_PREFIX ++ b) = MEDIA_PREFIX ++ b.
Proof.
  intros Hsolid E Ht Hlen.
  assert (Hcases : MEDIA_PREFIX ++ b = [] \/ MEDIA_PREFIX ++ b <> []).
  { destruct (MEDIA_PREFIX ++ b); [left; reflexivity | right; discriminate]. }
  destruct Hcases as [->|Hne]; [reflexivity|].
  unfold trim.
  assert (Hs : trimStart (MEDIA_PREFIX ++ b) = MEDIA_PREFIX ++ b).
  { destruct MEDIA_PREFIX as [|p ps].
    - assert (Hi : i = 0%nat).
      { destruct (trim path); cbn [firstOccurrence] in E;
          rewrite startsWith_nil in E; congruence. }
      subst i. destruct a; [|discriminate]. simpl in *.
      rewrite <- Ht. apply trimStart_trim.
    - simpl. inversion Hsolid as [|? ? Hp _]; subst. rewrite Hp. reflexivity. }
  rewrite Hs. apply (trimEnd_suffix a).
  - rewrite <- Ht. apply trimEnd_trim.
  - exact Hne.
Qed.

(** X6: PathUtils.extractMediaFromPath keeps, of a media path, the part
    of the trimmed path from the marker on: the result begins with the
    marker; of any other path it keeps the trimmed path.  For a marker
    without whitespace, extracting twice is extracting once, and the
    result is a media path exactly when the path is. *)
Theorem extractMediaFromPath_result (path : jsstring) :
  (PathUtils.isMedia MEDIA_PREFIX path = true ->
   exists a b,
     trim path = a ++ MEDIA_PREFIX ++ b
     /\ PathUtils.extractMediaFromPath MEDIA_PREFIX path = MEDIA_PREFIX ++ b)
  /\ (PathUtils.isMedia MEDIA_PREFIX path = false ->
      PathUtils.extractMediaFromPath MEDIA_PREFIX path = trim path)
  /\ (solid MEDIA_PREFIX ->
      PathUtils.extractMediaFromPath MEDIA_PREFIX
        (PathUtils.extractMediaFromPath MEDIA_PREFIX path)
      = PathUtils.extractMediaFromPath MEDIA_PREFIX path
      /\ PathUtils.isMedia MEDIA_PREFIX (PathUtils.extractMediaFromPath MEDIA_PREFIX path)
         = PathUtils.isMedia MEDIA_PREFIX path).
Proof.
  unfold PathUtils.isMedia, includes.
  destruct (firstOccurrence (trim path) MEDIA_PREFIX) as [i|] eqn:E.
  - destruct (extractMediaFromPath_found path i E) as (a & b & Ht & Hlen & Hx).
    split; [intros _; exists a, b; split; assumption|].
    split; [discriminate|].
    intros Hsolid. rewrite Hx.
    pose proof (marker_suffix_trimmed path a b i Hsolid E Ht Hlen) as Htrim.
    split.
    + unfold PathUtils.extractMediaFromPath at 1, indexOf.
      rewrite Htrim, firstOccurrence_prefix. cbn [indexResult].
      apply (substringFrom_of_nat _ 0).
    + rewrite Htrim, firstOccurrence_prefix. reflexivity.
  - assert (Hx : PathUtils.extractMediaFromPath MEDIA_PREFIX path = trim path).
    { unfold PathUtils.extractMediaFromPath, indexOf. rewrite E.
      apply substringFrom_absent. }
    split; [discriminate|]. split; [intros _; exact Hx|].
    intros _. rewrite Hx. split.
    + unfold PathUtils.extractMediaFromPath, indexOf. rewrite trim_idem, E.
      apply substringFrom_absent.
    + rewrite trim_idem, E. reflexivity.
Qed.

(** *** Image paths *)

Lemma splitHead_clean (sep : ascii) (s : jsstring) : ~ In sep (splitHead sep s).
Proof.
  induction s as [|c s IH]; simpl; [tauto|].
  destruct (ascii_dec c sep) as [|Hne]; simpl; [tauto|].
  intros [H|H]; [congruence | exact (IH H)].
Qed.

Lemma splitHead_app (sep : ascii) (a b : jsstring) :
  ~ In sep a -> splitHead sep (a ++ sep :: b) = a.
Proof.
  induction a as [|c a IH]; simpl; intros Ha.
  - destruct (ascii_dec sep sep); [reflexivity | congruence].
  - destruct (ascii_dec c sep) as [->|_]; [tauto|].
    rewrite IH; [reflexivity | tauto].
Qed.

Lemma splitHead_none (sep : ascii) (a : jsstring) :
  ~ In sep a -> splitHead sep a = a.
Proof.
  induction a as [|c a IH]; simpl; intros Ha; [reflexivity|].
  destruct (ascii_dec c sep) as [->|_]; [tauto|].
  rewrite IH; [reflexivity | tauto].
Qed.

Lemma substringFrom_tail (c : ascii) (s : jsstring) : substringFrom (c :: s) 1 = s.
Proof. apply (substringFrom_of_nat (c :: s) 1). Qed.

Lemma trimImagesPath_relative (item body query : jsstring) :
  trim item = str "." ++ body ++ str "?" ++ query ->
  ~ In "?"%char body ->
  trimImagesPath item = body.
Proof.
  intros Ht Hb. unfold trimImagesPath. rewrite Ht. simpl app.
  destruct (ascii_dec "."%char "."%char); [|congruence].
  rewrite substringFrom_tail. apply splitHead_app. exact Hb.
Qed.

(** X7: trimImagesPath leaves no query in a path: the result has no '?';
    of a trimmed path that has neither a leading '.' nor a '?' it is the
    trimmed path itself, and of "." followed by a path and a query it is
    that path. *)
Theorem trimImagesPath_no_query (item : jsstring) :
  ~ In "?"%char (trimImagesPath item)
  /\ (forall body query,
         trim item = str "." ++ body ++ str "?" ++ query ->
         ~ In "?"%char body ->
         trimImagesPath item = body)
  /\ (forall c rest,
         trim item = c :: rest -> c <> "."%char -> ~ In "?"%char (c :: rest) ->
         trimImagesPath item = trim item).
Proof.
  split; [apply splitHead_clean|]. split.
  - intros body query Ht Hb. exact (trimImagesPath_relative item body query Ht Hb).
  - intros c rest Ht Hc Hq. unfold trimImagesPath. rewrite Ht.
    destruct (ascii_dec c "."%char); [contradiction|].
    apply splitHead_none. exact Hq.
Qed.

Lemma getHashFromMedia_of_trimmed (path h rest : jsstring) :
  trim path = MEDIA_PREFIX ++ h ++ str "." ++ rest ->
  ~ In "."%char (MEDIA_PREFIX ++ h) ->
  getHashFromMedia MEDIA_PREFIX path = h.
Proof.
  intros Htrim Hdot. unfold getHashFromMedia, indexOf. rewrite Htrim.
  rewrite app_assoc. change (str "." ++ rest) with ("."%char :: rest).
  rewrite (firstOccurrence_char (MEDIA_PREFIX ++ h) rest "."%char Hdot
           : firstOccurrence _ (str ".") = _).
  cbn [indexResult].
  rewrite substring_within; rewrite ?length_app; try lia.
  replace (List.length MEDIA_PREFIX + List.length h - List.length MEDIA_PREFIX)%nat
    with (List.length h) by lia.
  rewrite <- app_assoc, skipn_app, skipn_all, Nat.sub_diag. simpl.
  rewrite firstn_app, firstn_all, Nat.sub_diag. simpl. apply app_nil_r.
Qed.

(** X8: an image reference "." marker hash "." extension "?" query, free
    of whitespace up to its query, is normalised by trimImagesPath to
    marker hash "." extension, which is a media path whose hash
    getHashFromMedia finds. *)
Theorem trimImagesPath_then_hash (item h ext query : jsstring) :
  trim item = str "." ++ (MEDIA_PREFIX ++ h ++ str "." ++ ext) ++ str "?" ++ query ->
  solid (MEDIA_PREFIX ++ h ++ str "." ++ ext) ->
  ~ In "?"%char (MEDIA_PREFIX ++ h ++ str "." ++ ext) ->
  ~ In "."%char (MEDIA_PREFIX ++ h) ->
  trimImagesPath item = MEDIA_PREFIX ++ h ++ str "." ++ ext
  /\ isMedia MEDIA_PREFIX (trimImagesPath item) = true
  /\ getHashFromMedia MEDIA_PREFIX (trimImagesPath item) = h.
Proof.
  intros Ht Hsolid Hq Hdot.
  assert (Hn : trimImagesPath item = MEDIA_PREFIX ++ h ++ str "." ++ ext).
  { apply trimImagesPath_relative with (query := query); assumption. }
  rewrite Hn. split; [reflexivity|]. split.
  - unfold isMedia, includes. rewrite (solid_trim _ Hsolid), firstOccurrence_prefix.
    reflexivity.
  - apply getHashFromMedia_of_trimmed with (rest := ext); [|exact Hdot].
    apply solid_trim. exact Hsolid.
Qed.

End Media.

(** ** The entries of a page *)

Section Entries.

Variable MEDIA_PREFIX : jsstring.
Variable w : World.

Abbreviation resourceEntry := (resourceEntry MEDIA_PREFIX w).
Abbreviation resourcesLoop := (resourcesLoop MEDIA_PREFIX w).
Abbreviation createEntries := (createEntries MEDIA_PREFIX w).
Abbreviation entriesOf := (entriesOfResource MEDIA_PREFIX w).

Lemma resourcesLoop_entries host parentPath resourcesArr :
  forall entriesJson lastModified,
    fst (resourcesLoop host parentPath resourcesArr entriesJson lastModified)
    = entriesJson ++ flat_map (entriesOf host parentPath) resourcesArr.
Proof.
  induction resourcesArr as [|r rest IH]; intros acc lm; simpl.
  - symmetry. apply app_nil_r.
  - unfold entriesOfResource at 1.
    pose proof (resourceEntry_entry MEDIA_PREFIX w host parentPath r lm 0) as He.
    destruct (resourceEntry host parentPath r lm) as [[e lm']|],
             (resourceEntry host parentPath r 0) as [[e0 lm0]|];
      simpl in He; try discriminate.
    + inversion He; subst. rewrite IH, <- app_assoc. reflexivity.
    + apply IH.
Qed.

Lemma createEntries_entries host path pageResources isHtmlUpdated t es lm t' :
  createEntries host path pageResources isHtmlUpdated t = Ok (es, lm, t') ->
  exists pageEntryJson,
    getPageJsonEntry w host path isHtmlUpdated t = Ok (pageEntryJson, t')
    /\ es = pageEntryJson
            :: flat_map (entriesOf host (PathUtils.getParentFromPath path))
                 pageResources
    /\ lm = maxTimestamp es.
Proof.
  intros H. pose proof (createEntries_lastModified _ _ _ _ _ _ _ _ _ _ H) as Hlm.
  apply createEntries_Ok in H. destruct H as (pe & Hpe & Hr).
  exists pe. split; [exact Hpe|]. split; [|exact Hlm].
  replace es with (fst (es, lm)) by reflexivity. rewrite Hr.
  rewrite resourcesLoop_entries. reflexivity.
Qed.

Lemma createEntries_from_entries host path pageResources isHtmlUpdated t pe t' :
  getPageJsonEntry w host path isHtmlUpdated t = Ok (pe, t') ->
  createEntries host path pageResources isHtmlUpdated t
  = Ok (pe :: flat_map (entriesOf host (PathUtils.getParentFromPath path))
                pageResources,
        maxTimestamp
          (pe :: flat_map (entriesOf host (PathUtils.getParentFromPath path))
                   pageResources),
        t').
Proof.
  intros Hpe.
  destruct (createEntries host path pageResources isHtmlUpdated t)
    as [[[es lm] t1]| |] eqn:E.
  - destruct (createEntries_entries _ _ _ _ _ _ _ _ E) as (pe' & Hpe' & Hes & Hlm).
    rewrite Hpe in Hpe'. inversion Hpe'; subst. reflexivity.
  - unfold ManifestGenerator.createEntries, bind in E. rewrite Hpe in E. discriminate.
  - unfold ManifestGenerator.createEntries, bind in E. rewrite Hpe in E. discriminate.
Qed.

Lemma entriesOfResource_path host parentPath resource :
  map ManifestGenerator.path (entriesOf host parentPath resource)
  = if resourceSkipped w host resource then []
    else [resourcePath MEDIA_PREFIX parentPath resource].
Proof.
  unfold entriesOfResource, ManifestGenerator.resourceEntry, resourceSkipped,
    resourcePath.
  destruct (match fetchDataWithMethod w host (trim resource) HEAD with
            | Some _ => false
            | None => negb (isFileDirty w (slice1 (trim resource)))
            end); [reflexivity|].
  destruct (isMedia MEDIA_PREFIX (trim resource)); [reflexivity|].
  destruct (match fetchDataWithMethod w host (trim resource) HEAD with
            | Some r => truthyHeader (last_modified r)
            | None => None
            end); reflexivity.
Qed.

(** X9: the paths of the entries that createEntries returns are the path
    of the page followed by ".html" and then, in the order of the
    resources, one path for every resource that is on the host or dirty:
    the resource as given, or the parent of the page followed by it when
    it is a media path.  So there are at most as many entries as
    resources, and one. *)
Theorem createEntries_paths host path pageResources isHtmlUpdated t es lm t' :
  createEntries host path pageResources isHtmlUpdated t = Ok (es, lm, t') ->
  map ManifestGenerator.path es
  = (path ++ str ".html")
      :: flat_map (fun r => if resourceSkipped w host r then []
                            else [resourcePath MEDIA_PREFIX
                                    (PathUtils.getParentFromPath path) r])
           pageResources
  /\ (1 <= List.length es <= 1 + List.length pageResources)%nat.
Proof.
  intros H. destruct (createEntries_entries _ _ _ _ _ _ _ _ H) as (pe & Hpe & -> & _).
  apply getPageJsonEntry_Ok in Hpe. destruct Hpe as [Hpath _].
  assert (Hmap : forall l,
             map ManifestGenerator.path
               (flat_map (entriesOf host (PathUtils.getParentFromPath path)) l)
             = flat_map (fun r => if resourceSkipped w host r then []
                                  else [resourcePath MEDIA_PREFIX
                                          (PathUtils.getParentFromPath path) r]) l).
  { induction l as [|r l IH]; simpl; [reflexivity|].
    rewrite map_app, IH, entriesOfResource_path. reflexivity. }
  split.
  - simpl. rewrite Hpath, Hmap. reflexivity.
  - simpl. split; [lia|].
    assert (Hlen : forall l,
               (List.length
                  (flat_map (entriesOf host (PathUtils.getParentFromPath path)) l)
                <= List.length l)%nat).
    { induction l as [|r l IH]; simpl; [lia|].
      rewrite length_app. unfold entriesOfResource at 1.
      destruct (resourceEntry host _ r 0) as [[e lm0]|]; simpl; lia. }
    specialize (Hlen pageResources). lia.
Qed.

(** X10: a resource that is not on the host and is dirty is listed, with
    the hash of a media path or else with nothing but its path, and never
    with a timestamp: the other entries and the aggregate lastModified
    are those of the call without the resource. *)
Theorem createEntries_lists_dirty host path before resource after isHtmlUpdated
    t es lm t' :
  fetchDataWithMethod w host (trim resource) HEAD = None ->
  isFileDirty w (slice1 (trim resource)) = true ->
  createEntries host path (before ++ resource :: after) isHtmlUpdated t
  = Ok (es, lm, t') ->
  exists es1 es2,
    es = es1
         ++ {| ManifestGenerator.path :=
                 resourcePath MEDIA_PREFIX (PathUtils.getParentFromPath path) resource;
               timestamp := None;
               hash := if isMedia MEDIA_PREFIX (trim resource)
                       then Some (getHashFromMedia MEDIA_PREFIX (trim resource))
                       else None |}
         :: es2
    /\ createEntries host path (before ++ after) isHtmlUpdated t
       = Ok (es1 ++ es2, lm, t').
Proof.
  intros Hf Hd H.
  destruct (createEntries_entries _ _ _ _ _ _ _ _ H) as (pe & Hpe & Hes & Hlm).
  set (parent := PathUtils.getParentFromPath path) in *.
  set (e := {| ManifestGenerator.path := resourcePath MEDIA_PREFIX parent resource;
               timestamp := None;
               hash := if isMedia MEDIA_PREFIX (trim resource)
                       then Some (getHashFromMedia MEDIA_PREFIX (trim resource))
                       else None |}).
  assert (He : entriesOf host parent resource = [e]).
  { unfold entriesOfResource, ManifestGenerator.resourceEntry, e, resourcePath.
    rewrite Hf, Hd. simpl.
    destruct (isMedia MEDIA_PREFIX (trim resource)); reflexivity. }
  exists (pe :: flat_map (entriesOf host parent) before),
         (flat_map (entriesOf host parent) after).
  split.
  - rewrite Hes, flat_map_app. simpl. rewrite He. reflexivity.
  - rewrite (createEntries_from_entries _ _ (before ++ after) _ _ _ _ Hpe).
    fold parent. rewrite flat_map_app. do 2 f_equal.
    rewrite Hlm, Hes, flat_map_app. simpl flat_map. rewrite He.
    change (pe :: flat_map (entriesOf host parent) before
               ++ flat_map (entriesOf host parent) after)
      with ((pe :: flat_map (entriesOf host parent) before)
              ++ flat_map (entriesOf host parent) after).
    change (pe :: flat_map (entriesOf host parent) before
               ++ [e] ++ flat_map (entriesOf host parent) after)
      with ((pe :: flat_map (entriesOf host parent) before)
              ++ [e] ++ flat_map (entriesOf host parent) after).
    rewrite !maxTimestamp_app.
    assert (Hz : maxTimestamp [e] = 0) by reflexivity.
    rewrite Hz.
    pose proof (maxTimestamp_nonneg (flat_map (entriesOf host parent) after)).
    f_equal. lia.
Qed.

(** X11: the order of the resources does not matter to createEntries
    beyond the order of its entries: on a permutation of the resources it
    returns a permutation of the entries, the page entry first, and the
    same lastModified. *)
Theorem createEntries_permutation host path resources resources' isHtmlUpdated
    t es lm t' :
  Permutation resources resources' ->
  createEntries host path resources isHtmlUpdated t = Ok (es, lm, t') ->
  exists pageEntryJson rest rest',
    es = pageEntryJson :: rest
    /\ Permutation rest rest'
    /\ createEntries host path resources' isHtmlUpdated t
       = Ok (pageEntryJson :: rest', lm, t').
Proof.
  intros Hperm H.
  destruct (createEntries_entries _ _ _ _ _ _ _ _ H) as (pe & Hpe & Hes & Hlm).
  set (parent := PathUtils.getParentFromPath path) in *.
  exists pe, (flat_map (entriesOf host parent) resources),
         (flat_map (entriesOf host parent) resources').
  split; [exact Hes|].
  assert (Hp : Permutation (flat_map (entriesOf host parent) resources)
                 (flat_map (entriesOf host parent) resources')).
  { apply Permutation_flat_map. exact Hperm. }
  split; [exact Hp|].
  rewrite (createEntries_from_entries _ _ resources' _ _ _ _ Hpe). fold parent.
  do 2 f_equal. rewrite Hlm, Hes.
  assert (Hmax : forall l l' : list Entry,
             Permutation l l' -> maxTimestamp l = maxTimestamp l').
  { induction 1 as [|x l l' _ IH|x y l|l l' l'' _ IH1 _ IH2]; simpl.
    - reflexivity.
    - rewrite IH. reflexivity.
    - destruct (numericTimestamp x), (numericTimestamp y); lia.
    - congruence. }
  f_equal. apply Hmax. constructor. apply Permutation_sym. exact Hp.
Qed.

(** Putting a string before a media path leaves a media path. *)
Lemma isMedia_after (before path : jsstring) :
  isMedia MEDIA_PREFIX path = true -> isMedia MEDIA_PREFIX (before ++ path) = true.
Proof.
  unfold isMedia. intros H. apply includes_true in H. destruct H as (a & b & Ht).
  apply includes_true.
  destruct (trim path) as [|c r] eqn:Enil.
  - assert (MEDIA_PREFIX = []) as ->.
    { destruct a; [|discriminate]. destruct MEDIA_PREFIX; [reflexivity | discriminate]. }
    exists [], (trim (before ++ path)). reflexivity.
  - rewrite <- Enil in *.
    destruct (trim_split path) as (w1 & w2 & Hs & Hw1 & Hw2).
    assert (Hne : trim path <> []) by (rewrite Enil; discriminate).
    assert (Hstart : trimStart (trim path ++ w2) = trim path ++ w2).
    { rewrite trimStart_app, trimStart_trim. destruct (trim path); [congruence|].
      reflexivity. }
    assert (Hne2 : trim path ++ w2 <> []).
    { destruct (trim path); [congruence | discriminate]. }
    destruct (trimStart_before (before ++ w1) (trim path ++ w2) Hstart Hne2)
      as (u & Hu).
    assert (Htrim : trim (before ++ path) = u ++ trim path).
    { unfold trim at 1. rewrite Hs at 1.
      replace (before ++ w1 ++ trim path ++ w2)
        with ((before ++ w1) ++ trim path ++ w2) by (rewrite <- app_assoc; reflexivity).
      rewrite Hu, app_assoc, trimEnd_blank by exact Hw2.
      apply trimEnd_after; [apply trimEnd_trim | exact Hne]. }
    rewrite Htrim, Ht. exists (u ++ a), b. rewrite <- app_assoc. reflexivity.
Qed.

(** X12: the entry built for a resource carries a hash exactly when the
    path it is listed under is a media path. *)
Theorem resourceEntry_hash_iff_media host parentPath resource lastModified e
    lastModified' :
  resourceEntry host parentPath resource lastModified = Some (e, lastModified') ->
  (hash e <> None <-> isMedia MEDIA_PREFIX (ManifestGenerator.path e) = true).
Proof.
  intros H. apply resourceEntry_shape in H. destruct H as [Hm Hn].
  destruct (isMedia MEDIA_PREFIX (trim resource)) eqn:E.
  - destruct (Hm eq_refl) as (_ & Hh & Hp). rewrite Hh, Hp. split; [|discriminate].
    intros _. apply isMedia_after. rewrite <- isMedia_trim. exact E.
  - destruct (Hn eq_refl) as (Hh & Hp). rewrite Hh, Hp, <- isMedia_trim, E.
    split; [congruence | discriminate].
Qed.

End Entries.

(** ** The set of the resources of a page *)




(** ** Fragments *)

Section Fragments.

Variable MEDIA_PREFIX : jsstring.
Variable w : World.

Abbreviation createEntries := (createEntries MEDIA_PREFIX w).
Abbreviation createManifest := (createManifest MEDIA_PREFIX w).
Abbreviation processedEntries := (processedEntries MEDIA_PREFIX w).
Abbreviation rebase := (rebase MEDIA_PREFIX).
Abbreviation fragmentsLoop := (fragmentsLoop MEDIA_PREFIX).

(** X14: merging rebases a media entry whose path has no whitespace in
    front, the marker having none at all: the new path is the parent of
    the page followed by the old path from its first marker on, it is a
    media path again, and timestamp and hash are kept. *)
Theorem rebase_media_entry (page : jsstring) (e : Entry) :
  solid MEDIA_PREFIX ->
  trimStart (ManifestGenerator.path e) = ManifestGenerator.path e ->
  isMedia MEDIA_PREFIX (ManifestGenerator.path e) = true ->
  exists a b,
    trim (ManifestGenerator.path e) = a ++ MEDIA_PREFIX ++ b
    /\ firstOccurrence (trim (ManifestGenerator.path e)) MEDIA_PREFIX
       = Some (List.length a)
    /\ ManifestGenerator.path (rebase page e)
       = PathUtils.getParentFromPath page ++ MEDIA_PREFIX ++ b
    /\ isMedia MEDIA_PREFIX (ManifestGenerator.path (rebase page e)) = true
    /\ timestamp (rebase page e) = timestamp e
    /\ hash (rebase page e) = hash e.
Proof.
  intros Hsolid Hstart Hmedia.
  pose proof (rebase_media MEDIA_PREFIX page e Hsolid Hstart Hmedia) as Hpath.
  assert (Hfields : timestamp (rebase page e) = timestamp e
                    /\ hash (rebase page e) = hash e).
  { unfold ManifestGenerator.rebase. rewrite Hmedia. split; reflexivity. }
  unfold isMedia, includes in Hmedia.
  destruct (firstOccurrence (trim (ManifestGenerator.path e)) MEDIA_PREFIX)
    as [i|] eqn:E; [|discriminate].
  destruct (extractMediaFromPath_found MEDIA_PREFIX (ManifestGenerator.path e) i E)
    as (a & b & Ht & Hlen & Hx).
  exists a, b. rewrite Hpath, Hx, Hlen.
  split; [exact Ht|]. split; [reflexivity|]. split; [reflexivity|].
  split; [|exact Hfields].
  apply isMedia_after. unfold isMedia, includes.
  rewrite (marker_suffix_trimmed MEDIA_PREFIX _ a b i Hsolid E Ht Hlen).
  rewrite firstOccurrence_prefix. reflexivity.
Qed.

(** *** The order of the entries *)

Lemma newSetFrom_ext (l : list jsstring) :
  forall seen1 seen2,
    (forall x, In x seen1 <-> In x seen2) ->
    newSetFrom seen1 l = newSetFrom seen2 l.
Proof.
  induction l as [|y l IH]; intros s1 s2 Hs; simpl; [reflexivity|].
  destruct (in_dec jsstring_dec y s1) as [H1|H1],
           (in_dec jsstring_dec y s2) as [H2|H2].
  - apply IH. exact Hs.
  - exfalso. apply H2, Hs, H1.
  - exfalso. apply H1, Hs, H2.
  - f_equal. apply IH. intros x. simpl. rewrite Hs. reflexivity.
Qed.

Lemma mapKeys_mapSet_order {V} (m : Map V) (k : jsstring) (v : V) :
  mapKeys (mapSet m k v)
  = if in_dec jsstring_dec k (mapKeys m) then mapKeys m else mapKeys m ++ [k].
Proof.
  unfold mapKeys. induction m as [|[k0 v0] m IH]; simpl; [reflexivity|].
  destruct (jsstring_dec k0 k) as [->|Hne]; simpl.
  - reflexivity.
  - rewrite IH. destruct (in_dec jsstring_dec k (map fst m)); reflexivity.
Qed.

Lemma fold_setEntry_order (l : list Entry) :
  forall m,
    mapKeys (fold_left setEntry l m)
    = mapKeys m ++ newSetFrom (mapKeys m) (map ManifestGenerator.path l).
Proof.
  induction l as [|e l IH]; intros m; simpl; [symmetry; apply app_nil_r|].
  rewrite IH. unfold setEntry at 1 2. rewrite mapKeys_mapSet_order.
  destruct (in_dec jsstring_dec (ManifestGenerator.path e) (mapKeys m)) as [Hin|Hnot].
  - reflexivity.
  - rewrite <- app_assoc. simpl. do 2 f_equal.
    apply newSetFrom_ext. intros x. rewrite in_app_iff. simpl. tauto.
Qed.

Lemma processedEntries_page_first fuel host manifestMap path isHtmlUpdatedMap
    additionalAssets t processed t' :
  processedEntries fuel host manifestMap path isHtmlUpdatedMap additionalAssets t
  = Ok (processed, t') ->
  exists data pageEntry rest,
    manifestMap path = Some data
    /\ processed = pageEntry :: rest
    /\ ManifestGenerator.path pageEntry = dataPath data ++ str ".html".
Proof.
  destruct fuel as [|fuel]; intros H; [discriminate|].
  unfold Trace.processedEntries in H.
  unbind H. rename a into data. unbind H. destruct a as [es lm]. unbind H.
  apply ret_Ok in H. inversion H; subst. clear H.
  apply getData_Ok in Hm. destruct Hm as [Hdata _].
  destruct (createEntries_entries _ _ _ _ _ _ _ _ _ _ Hm0) as (pe & Hpe & Hes & _).
  apply getPageJsonEntry_Ok in Hpe. destruct Hpe as [Hpath _].
  exists data, pe. eexists. split; [exact Hdata|]. split; [|exact Hpath].
  simpl. rewrite Hes. reflexivity.
Qed.

(** X15: the entries of a manifest stand in the order in which their
    paths were first processed, each path once; the first entry is the
    one listed under the path of the page followed by ".html". *)
Theorem createManifest_entries_order fuel host manifestMap path isHtmlUpdatedMap
    additionalAssets t m ts t' :
  createManifest fuel host manifestMap path isHtmlUpdatedMap additionalAssets t
  = Ok (m, ts, t') ->
  exists data processed first rest,
    manifestMap path = Some data
    /\ processedEntries fuel host manifestMap path isHtmlUpdatedMap additionalAssets t
       = Ok (processed, t')
    /\ map ManifestGenerator.path (entries m)
       = newSet (map ManifestGenerator.path processed)
    /\ entries m = first :: rest
    /\ ManifestGenerator.path first = dataPath data ++ str ".html".
Proof.
  intros H.
  destruct (createManifest_processed _ _ _ _ _ _ _ _ _ _ _ _ H)
    as (processed & Hp & He).
  assert (Hkeyed : keyedByPath (fold_left setEntry processed [])).
  { apply fold_setEntry_keyedByPath. constructor. }
  assert (Horder : map ManifestGenerator.path (entries m)
                   = newSet (map ManifestGenerator.path processed)).
  { rewrite He, (keyedByPath_paths _ Hkeyed), fold_setEntry_order. reflexivity. }
  destruct (processedEntries_page_first _ _ _ _ _ _ _ _ _ Hp)
    as (data & pe & others & Hdata & Hprocessed & Hpath).
  destruct (entries m) as [|first rest] eqn:Em.
  - rewrite Hprocessed in Horder. unfold newSet in Horder. simpl in Horder.
    discriminate.
  - exists data, processed, first, rest.
    split; [exact Hdata|]. split; [exact Hp|]. split; [exact Horder|].
    split; [reflexivity|].
    rewrite Hprocessed in Horder. unfold newSet in Horder. simpl in Horder.
    inversion Horder. congruence.
Qed.

(** *** What a manifest needs *)

Lemma getPageJsonEntry_answered host path isHtmlUpdated t e t' :
  getPageJsonEntry w host path isHtmlUpdated t = Ok (e, t') ->
  exists resp, fetchDataWithMethod w host (path ++ str ".html") HEAD = Some resp.
Proof.
  destruct (fetchDataWithMethod w host (path ++ str ".html") HEAD) as [resp|] eqn:Hf.
  - intros _. exists resp. reflexivity.
  - rewrite (getPageJsonEntry_unavailable w _ _ _ _ Hf). discriminate.
Qed.

Lemma fragmentsLoop_returned
    (recur : jsstring -> list jsstring -> async (Manifest * Z)) path :
  forall fragmentsList allEntries flm t r,
    fragmentsLoop recur path fragmentsList allEntries flm t = Ok r ->
    forall f, In f fragmentsList ->
              exists t1 r1, recur f [f ++ str ".plain.html"] t1 = Ok r1.
Proof.
  induction fragmentsList as [|f0 rest IH]; intros all flm t r H f Hin;
    [contradiction|].
  cbn [ManifestGenerator.fragmentsLoop] in H. unbind H. destruct a as [m fts].
  destruct Hin as [->|Hin].
  - exists t, (m, fts, t0). exact Hm.
  - exact (IH _ _ _ _ H f Hin).
Qed.

Lemma createManifest_page fuel host manifestMap path isHtmlUpdatedMap
    additionalAssets t r :
  createManifest fuel host manifestMap path isHtmlUpdatedMap additionalAssets t = Ok r ->
  exists fuel' data resp,
    fuel = S fuel'
    /\ manifestMap path = Some data
    /\ fetchDataWithMethod w host (dataPath data ++ str ".html") HEAD = Some resp
    /\ forall f, In f (parsed (fragments data)) ->
                 exists t1 r1,
                   createManifest fuel' host manifestMap f isHtmlUpdatedMap
                     [f ++ str ".plain.html"] t1 = Ok r1.
Proof.
  destruct fuel as [|fuel]; intros H; [discriminate|].
  cbn [ManifestGenerator.createManifest] in H.
  unbind H. rename a into data. unbind H. destruct a as [es lm]. unbind H.
  apply getData_Ok in Hm. destruct Hm as [Hdata _].
  destruct r as [[m ts] t'].
  destruct (createEntries_entries _ _ _ _ _ _ _ _ _ _ Hm0) as (pe & Hpe & _).
  destruct (getPageJsonEntry_answered _ _ _ _ _ _ Hpe) as (resp & Hresp).
  exists fuel, data, resp. repeat split; try assumption.
  intros f Hin. destruct a as [all' flm].
  exact (fragmentsLoop_returned _ _ _ _ _ _ _ Hm1 f Hin).
Qed.

(** X16: createManifest returns a manifest only if the page and every
    fragment below it, at any depth, is known to manifestMap and has its
    HTML answered by the host. *)
Theorem createManifest_needs_every_page fuel host manifestMap path isHtmlUpdatedMap
    additionalAssets t r q :
  createManifest fuel host manifestMap path isHtmlUpdatedMap additionalAssets t = Ok r ->
  clos_refl_trans_1n jsstring (fragmentOf manifestMap) path q ->
  exists data resp,
    manifestMap q = Some data
    /\ fetchDataWithMethod w host (dataPath data ++ str ".html") HEAD = Some resp.
Proof.
  intros H Hreach. revert fuel additionalAssets t r H.
  induction Hreach as [p|p f q Hstep _ IH]; intros fuel extra t r H.
  - destruct (createManifest_page _ _ _ _ _ _ _ _ H)
      as (fuel' & data & resp & _ & Hdata & Hresp & _).
    exists data, resp. split; assumption.
  - destruct (createManifest_page _ _ _ _ _ _ _ _ H)
      as (fuel' & data & resp & _ & Hdata & _ & Hfr).
    destruct Hstep as (data' & Hdata' & Hin).
    rewrite Hdata in Hdata'. inversion Hdata'; subst data'.
    destruct (Hfr f Hin) as (t1 & r1 & H1).
    exact (IH _ _ _ _ H1).
Qed.

(** X17: createManifest on a page that manifestMap does not know throws a
    TypeError, and on a known page whose HTML the host does not answer
    for it throws the failure of that probe, whatever the resources and
    the flags are. *)
Theorem createManifest_throws fuel host manifestMap path isHtmlUpdatedMap
    additionalAssets t :
  (manifestMap path = None ->
   createManifest (S fuel) host manifestMap path isHtmlUpdatedMap additionalAssets t
   = Throw TypeError)
  /\ (forall data,
         manifestMap path = Some data ->
         fetchDataWithMethod w host (dataPath data ++ str ".html") HEAD = None ->
         createManifest (S fuel) host manifestMap path isHtmlUpdatedMap
           additionalAssets t
         = Throw (ResourceUnavailable host (dataPath data ++ str ".html"))).
Proof.
  split.
  - intros Hnone. cbn [ManifestGenerator.createManifest]. unfold bind, getData.
    rewrite Hnone. reflexivity.
  - intros data Hdata Hf. cbn [ManifestGenerator.createManifest].
    unfold bind at 1. unfold getData. rewrite Hdata.
    unfold bind at 1. unfold ManifestGenerator.createEntries. unfold bind at 1.
    rewrite (getPageJsonEntry_unavailable w _ _ _ _ Hf). reflexivity.
Qed.

Lemma createManifest_descends manifestMap host isHtmlUpdatedMap p q :
  clos_trans_1n jsstring (fragmentOf manifestMap) p q ->
  forall fuel additionalAssets t r,
    createManifest fuel host manifestMap p isHtmlUpdatedMap additionalAssets t = Ok r ->
    exists fuel' extra t1 r1,
      (fuel' < fuel)%nat
      /\ createManifest fuel' host manifestMap q isHtmlUpdatedMap extra t1 = Ok r1.
Proof.
  induction 1 as [p q Hstep|p f q Hstep _ IH]; intros fuel extra t r H.
  - destruct (createManifest_page _ _ _ _ _ _ _ _ H)
      as (fuel' & data & resp & -> & Hdata & _ & Hfr).
    destruct Hstep as (data' & Hdata' & Hin).
    rewrite Hdata in Hdata'. inversion Hdata'; subst data'.
    destruct (Hfr q Hin) as (t1 & r1 & H1).
    exists fuel', [q ++ str ".plain.html"], t1, r1. split; [lia | exact H1].
  - destruct (createManifest_page _ _ _ _ _ _ _ _ H)
      as (fuel' & data & resp & -> & Hdata & _ & Hfr).
    destruct Hstep as (data' & Hdata' & Hin).
    rewrite Hdata in Hdata'. inversion Hdata'; subst data'.
    destruct (Hfr f Hin) as (t1 & r1 & H1).
    destruct (IH _ _ _ _ H1) as (fuel2 & extra2 & t2 & r2 & Hlt & H2).
    exists fuel2, extra2, t2, r2. split; [lia | exact H2].
Qed.

(** X18: createManifest never returns a manifest for a page that is,
    through the fragment lists, a fragment of itself: whatever the fuel,
    the call throws or does not end. *)
Theorem createManifest_fragment_cycle fuel host manifestMap path isHtmlUpdatedMap
    additionalAssets t r :
  clos_trans_1n jsstring (fragmentOf manifestMap) path path ->
  createManifest fuel host manifestMap path isHtmlUpdatedMap additionalAssets t <> Ok r.
Proof.
  intros Hcycle. revert additionalAssets t r.
  induction fuel as [fuel IH] using lt_wf_ind. intros extra t r H.
  destruct (createManifest_descends _ _ _ _ _ Hcycle _ _ _ _ H)
    as (fuel' & extra' & t1 & r1 & Hlt & H1).
  exact (IH fuel' Hlt extra' t1 r1 H1).
Qed.

(** X19: for a page without fragments createManifest returns, with any
    fuel but none, as soon as createEntries does: the entries of the
    manifest are those of createEntries set into the map one after the
    other, its timestamp and the aggregate are the lastModified of
    createEntries, its version is "3.0". *)
Theorem createManifest_without_fragments fuel host manifestMap path data
    isHtmlUpdatedMap additionalAssets t es lm t' :
  manifestMap path = Some data ->
  parsed (fragments data) = [] ->
  createEntries host (dataPath data) (pageResourcesOf data additionalAssets)
    (isHtmlUpdatedMap (dataPath data)) t = Ok (es, lm, t') ->
  createManifest (S fuel) host manifestMap path isHtmlUpdatedMap additionalAssets t
  = Ok ({| version := str "3.0";
           manifestTimestamp := lm;
           entries := mapValues (fold_left setEntry es []);
           contentDelivery := franklin |}, lm, t').
Proof.
  intros Hdata Hfr Hce.
  pose proof (createEntries_lastModified _ _ _ _ _ _ _ _ _ _ Hce) as Hlm.
  cbn [ManifestGenerator.createManifest]. unfold bind at 1. unfold getData.
  rewrite Hdata. unfold bind at 1. rewrite Hce. rewrite Hfr.
  cbn [ManifestGenerator.fragmentsLoop]. unfold bind, ret.
  assert (Hmax : Z.max lm 0 = lm).
  { pose proof (maxTimestamp_nonneg es). lia. }
  rewrite Hmax. reflexivity.
Qed.

End Fragments.

(** ** The generator on the site *)

Import Site.

Lemma createManifest_timestamp_is_maximum_witness :
  exists m ts t',
    createManifest MEDIA_PREFIX world 3 host manifestMap (str "/a/b/page")
      fragmentUpdated [] 0%nat = Ok (m, ts, t')
    /\ exists data built pageEntry rest,
         manifestMap (str "/a/b/page") = Some data
         /\ builtEntries MEDIA_PREFIX world 3 host manifestMap (str "/a/b/page")
              fragmentUpdated [] 0%nat = Ok (built, t')
         /\ manifestTimestamp m = ts
         /\ IsMaximumOf ts (0 :: numericTimestamps built)
         /\ built = pageEntry :: rest
         /\ path pageEntry = dataPath data ++ str ".html"
         /\ forall z, timestamp pageEntry = Some (Num z) -> z <= manifestTimestamp m.
Proof.
  eexists; eexists; eexists.
  split; [vm_compute; reflexivity|].
  apply (createManifest_timestamp_is_maximum MEDIA_PREFIX world 3 host manifestMap
           (str "/a/b/page") fragmentUpdated [] 0%nat).
  vm_compute; reflexivity.
Defined.

(** C1 as the specification words it fails on a page whose only timestamp
    lies before 1970: the manifest has the page entry alone, with the
    timestamp -1000, and its own timestamp is 0, the seed of the
    aggregate, which is not the maximum of the timestamps of the entries. *)
Lemma createManifest_timestamp_seed :
  exists m t' e,
    createManifest MEDIA_PREFIX world 3 host manifestMap (str "/old")
      noneUpdated [] 0%nat = Ok (m, 0, t')
    /\ builtEntries MEDIA_PREFIX world 3 host manifestMap (str "/old")
         noneUpdated [] 0%nat = Ok ([e], t')
    /\ entries m = [e]
    /\ path e = str "/old.html"
    /\ timestamp e = Some (Num (-1000))
    /\ manifestTimestamp m = 0
    /\ ~ IsMaximumOf (manifestTimestamp m) (numericTimestamps (entries m)).
Proof.
  eexists; eexists; eexists.
  split; [vm_compute; reflexivity|].
  split; [vm_compute; reflexivity|].
  repeat split.
  intros [Hin _]. vm_compute in Hin. destruct Hin as [H|[]]. discriminate H.
Qed.


Lemma createEntries_skips_unavailable_witness :
  createEntries MEDIA_PREFIX world host (str "/f")
    ([str "/f.html"; str " /media_12.png"] ++ str "/gone.js" :: [str "/f.plain.html"])
    true 0%nat
  = createEntries MEDIA_PREFIX world host (str "/f")
      ([str "/f.html"; str " /media_12.png"] ++ [str "/f.plain.html"]) true 0%nat
  /\ forall resp,
       fetchDataWithMethod world host (str "/f" ++ str ".html") HEAD = Some resp ->
       exists es lastModified t',
         createEntries MEDIA_PREFIX world host (str "/f")
           ([str "/f.html"; str " /media_12.png"] ++ str "/gone.js"
              :: [str "/f.plain.html"]) true 0%nat
         = Ok (es, lastModified, t').
Proof.
  apply (createEntries_skips_unavailable MEDIA_PREFIX world host (str "/f")
           [str "/f.html"; str " /media_12.png"] (str "/gone.js")
           [str "/f.plain.html"] true 0%nat).
  - vm_compute; reflexivity.
  - vm_compute; reflexivity.
Defined.

Lemma entries_hash_timestamp_exclusive_witness :
  (exists e t',
      getPageJsonEntry world host (str "/a/b/page") false 0%nat = Ok (e, t')
      /\ hash e = None)
  /\ (exists e lastModified',
      resourceEntry MEDIA_PREFIX world host (str "/a/b") (str "/media_12.png") 0
      = Some (e, lastModified')
      /\ timestamp e = None
      /\ hash e = Some (getHashFromMedia MEDIA_PREFIX (trim (str "/media_12.png"))))
  /\ (exists m ts t',
         createManifest MEDIA_PREFIX world 3 host manifestMap (str "/a/b/page")
           fragmentUpdated [] 0%nat = Ok (m, ts, t')
         /\ Forall (fun e => hash e = None \/ timestamp e = None) (entries m)
         /\ exists built,
              builtEntries MEDIA_PREFIX world 3 host manifestMap (str "/a/b/page")
                fragmentUpdated [] 0%nat = Ok (built, t')
              /\ Forall (fun e =>
                           exists b,
                             In b built
                             /\ timestamp e = timestamp b
                             /\ hash e = hash b
                             /\ ((exists page isHtmlUpdated t0 t1,
                                     getPageJsonEntry world host page isHtmlUpdated t0
                                     = Ok (b, t1)
                                     /\ hash e = None)
                                 \/ (exists parentPath resource lastModified lastModified',
                                        resourceEntry MEDIA_PREFIX world host parentPath
                                          resource lastModified
                                        = Some (b, lastModified')
                                        /\ if isMedia MEDIA_PREFIX (trim resource)
                                           then timestamp e = None
                                                /\ hash e
                                                   = Some (getHashFromMedia MEDIA_PREFIX
                                                             (trim resource))
                                           else hash e = None)))
                        (entries m)).
Proof.
  destruct (entries_hash_timestamp_exclusive MEDIA_PREFIX world)
    as (Hpage & Hres & Hman).
  split; [|split].
  - eexists; eexists. split; [vm_compute; reflexivity|].
    refine (Hpage host (str "/a/b/page") false 0%nat _ _ _). vm_compute; reflexivity.
  - eexists; eexists. split; [vm_compute; reflexivity|].
    refine (proj1 (Hres host (str "/a/b") (str "/media_12.png") 0 _ _ _) _);
      vm_compute; reflexivity.
  - eexists; eexists; eexists. split; [vm_compute; reflexivity|].
    refine (Hman 3%nat host manifestMap (str "/a/b/page") fragmentUpdated [] 0%nat
              _ _ _ _).
    vm_compute; reflexivity.
Defined.

Lemma createManifest_entries_last_wins_witness :
  exists m ts t',
    createManifest MEDIA_PREFIX world 3 host manifestMap (str "/f")
      fragmentUpdated [] 0%nat = Ok (m, ts, t')
    /\ NoDup (map path (entries m))
    /\ exists processed,
         processedEntries MEDIA_PREFIX world 3 host manifestMap (str "/f")
           fragmentUpdated [] 0%nat = Ok (processed, t')
         /\ (forall e, In e (entries m) <-> lastWithPath processed (path e) = Some e)
         /\ (forall p, entryAt (entries m) p = lastWithPath processed p).
Proof.
  eexists; eexists; eexists.
  split; [vm_compute; reflexivity|].
  eapply (createManifest_entries_last_wins MEDIA_PREFIX world 3 host manifestMap
            (str "/f") fragmentUpdated [] 0%nat).
  vm_compute; reflexivity.
Defined.

(** On the fragment "/f", flagged as updated and listing its own HTML as a
    dependency, the page entry and the resource entry share the path
    "/f.html": the manifest keeps the resource entry, the later one. *)
Example createManifest_keeps_later_entry :
  exists m ts t',
    createManifest MEDIA_PREFIX world 3 host manifestMap (str "/f")
      fragmentUpdated [] 0%nat = Ok (m, ts, t')
    /\ processedEntries MEDIA_PREFIX world 3 host manifestMap (str "/f")
         fragmentUpdated [] 0%nat
       = Ok ([ {| path := str "/f.html"; timestamp := Some (Num 1710000000000);
                  hash := None |};
               {| path := str "/f.html"; timestamp := Some (Num 1706745600000);
                  hash := None |};
               {| path := str " /media_12.png"; timestamp := None;
                  hash := Some (str "12") |} ], t')
    /\ entries m
       = [ {| path := str "/f.html"; timestamp := Some (Num 1706745600000);
              hash := None |};
           {| path := str " /media_12.png"; timestamp := None;
              hash := Some (str "12") |} ]
    /\ ts = 1710000000000.
Proof.
  eexists; eexists; eexists.
  split; [vm_compute; reflexivity|].
  repeat split; vm_compute; reflexivity.
Qed.

Lemma createManifest_entries_repeatable_witness :
  outcomesAlike
    (fun t' r1 r2 =>
       Forall2 (sameButClock MEDIA_PREFIX world (fun _ => 0) host noneUpdated 0 t')
         (entries (fst r1)) (entries (fst r2)))
    (createManifest MEDIA_PREFIX world 3 host manifestMap (str "/a/b/page")
       noneUpdated [] 0%nat)
    (createManifest MEDIA_PREFIX (withClock world (fun _ => 0)) 3 host manifestMap
       (str "/a/b/page") noneUpdated [] 0%nat)
  /\ createManifest MEDIA_PREFIX world 3 host manifestMap (str "/a/b/page")
       noneUpdated [] 0%nat
     = createManifest MEDIA_PREFIX (withClock world (fun _ => 0)) 3 host manifestMap
         (str "/a/b/page") noneUpdated [] 0%nat.
Proof.
  destruct (createManifest_entries_repeatable MEDIA_PREFIX world (fun _ => 0) 3
              host manifestMap (str "/a/b/page") noneUpdated [] 0%nat) as [Halike Hsame].
  split; [exact Halike|].
  apply Hsame. intros p. reflexivity.
Defined.

(** Under two clocks the fragment "/f", flagged as updated, gets two
    different aggregate timestamps and the same entries: the clock read
    for its page entry is replaced by the resource entry of the same
    path. *)
Example createManifest_two_clocks :
  exists m1 m2 t',
    createManifest MEDIA_PREFIX world 3 host manifestMap (str "/f")
      fragmentUpdated [] 0%nat = Ok (m1, 1710000000000, t')
    /\ createManifest MEDIA_PREFIX (withClock world (fun _ => 1720000000000)) 3 host
         manifestMap (str "/f") fragmentUpdated [] 0%nat = Ok (m2, 1720000000000, t')
    /\ entries m1 = entries m2.
Proof.
  eexists; eexists; eexists.
  split; [vm_compute; reflexivity|].
  split; vm_compute; reflexivity.
Qed.

(** Under two clocks the page "/plain", flagged as updated and without
    resources, gets the same entries but for the timestamp of its page
    entry, which is the first read of each clock. *)
Example createManifest_updated_page_two_clocks :
  exists m1 m2 t',
    createManifest MEDIA_PREFIX world 3 host manifestMap (str "/plain")
      (fun _ => true) [] 0%nat = Ok (m1, 1710000000000, t')
    /\ createManifest MEDIA_PREFIX (withClock world (fun _ => 1720000000000)) 3 host
         manifestMap (str "/plain") (fun _ => true) [] 0%nat
       = Ok (m2, 1720000000000, t')
    /\ map path (entries m1) = [str "/plain.html"]
    /\ map path (entries m2) = [str "/plain.html"]
    /\ map timestamp (entries m1) = [Some (Num 1710000000000)]
    /\ map timestamp (entries m2) = [Some (Num 1720000000000)].
Proof.
  eexists; eexists; eexists.
  split; [vm_compute; reflexivity|].
  split; [vm_compute; reflexivity|].
  repeat split; vm_compute; reflexivity.
Qed.

(** C3 on a page whose HTML the host does not have: the probe of the page
    is awaited outside of any try, so getPageJsonEntry throws, and with it
    createEntries and createManifest; no entry is returned. *)
Theorem getPageJsonEntry_probe_failure_throws :
  fetchDataWithMethod world host (str "/draft.html") HEAD = None
  /\ getPageJsonEntry world host (str "/draft") false 0%nat
     = Throw (ResourceUnavailable host (str "/draft.html"))
  /\ getPageJsonEntry world host (str "/draft") true 0%nat
     = Throw (ResourceUnavailable host (str "/draft.html"))
  /\ createEntries MEDIA_PREFIX world host (str "/draft") [] false 0%nat
     = Throw (ResourceUnavailable host (str "/draft.html"))
  /\ createManifest MEDIA_PREFIX world 3 host manifestMap (str "/draft")
       noneUpdated [] 0%nat
     = Throw (ResourceUnavailable host (str "/draft.html")).
Proof. repeat split; vm_compute; reflexivity. Qed.

(** C2 on the page "/a/b/page" that includes the fragment "/f", one of
    whose dependencies is " /media_12.png", with a space in front: the
    fragment contributes the media entry under the path " /media_12.png",
    and the merge stores it under "/a/bmedia_12.png", where the parent of
    the page followed by the media suffix is "/a/b/media_12.png". *)
Theorem rebase_leading_space_loses_separator :
  (exists m ts t',
      createManifest MEDIA_PREFIX world 2 host manifestMap (str "/f")
        noneUpdated [str "/f.plain.html"] 0%nat = Ok (m, ts, t')
      /\ map path (entries m) = [str "/f.html"; str " /media_12.png"])
  /\ (exists m ts t',
         createManifest MEDIA_PREFIX world 3 host manifestMap (str "/a/b/page")
           noneUpdated [] 0%nat = Ok (m, ts, t')
         /\ map path (entries m)
            = [str "/a/b/page.html"; str "/scripts/app.js"; str "/f.html";
               str "/a/bmedia_12.png"])
  /\ isMedia MEDIA_PREFIX (str " /media_12.png") = true
  /\ rebase MEDIA_PREFIX (str "/a/b/page")
       {| path := str " /media_12.png"; timestamp := None; hash := Some (str "12") |}
     = {| path := str "/a/bmedia_12.png"; timestamp := None; hash := Some (str "12") |}
  /\ PathUtils.getParentFromPath (str "/a/b/page")
     ++ PathUtils.extractMediaFromPath MEDIA_PREFIX (str " /media_12.png")
     = str "/a/b/media_12.png".
Proof.
  split; [|split].
  - eexists; eexists; eexists. split; vm_compute; reflexivity.
  - eexists; eexists; eexists. split; vm_compute; reflexivity.
  - repeat split; vm_compute; reflexivity.
Qed.

(** ** The helpers and the generator on the working copy *)

Lemma getParentFromPath_getCurrentPathName_witness :
  str "/a/b/page"
  = PathUtils.getParentFromPath (str "/a/b/page") ++ str "/"
    ++ PathUtils.getCurrentPathName (str "/a/b/page")
  /\ PathUtils.getParentFromPath (str "page") = []
  /\ PathUtils.getCurrentPathName (str "page") = str "page".
Proof.
  split.
  - apply (proj1 (proj2 (getParentFromPath_getCurrentPathName (str "/a/b/page")))).
    simpl. tauto.
  - apply (proj2 (proj2 (getParentFromPath_getCurrentPathName (str "page")))).
    intros H. vm_compute in H. intuition discriminate.
Defined.

Lemma getParentHierarchy_shape_witness :
  exists hierarchy,
    PathUtils.getParentHierarchy 4 (str "/content/site/en/page") = Some hierarchy
    /\ map PathUtils.path hierarchy = [str "/content/site"; str "/content/site/en"]
    /\ Forall (fun e =>
                 ancestorOf (PathUtils.path e) (str "/content/site/en/page")
                 /\ PathUtils.title e = PathUtils.getCurrentPathName (PathUtils.path e)
                 /\ PathUtils.path e <> str "/content"
                 /\ PathUtils.path e <> []) hierarchy
    /\ StronglySorted
         (fun x y => ancestorOf (PathUtils.path x) (PathUtils.path y)) hierarchy.
Proof.
  eexists. split; [vm_compute; reflexivity|]. split; [reflexivity|].
  refine ((fun H => conj (proj1 H) (proj1 (proj2 H)))
            (getParentHierarchy_shape 4 (str "/content/site/en/page") _ _)).
  vm_compute; reflexivity.
Defined.

Lemma isMedia_meaning_witness :
  PathUtils.isMedia Site.MEDIA_PREFIX (str "  " ++ str "/media_12.png" ++ str " ")
  = PathUtils.isMedia Site.MEDIA_PREFIX (str "/media_12.png")
  /\ PathUtils.isVideoUrl (str "youtube") (str "  " ++ str "https://youtube.com/x" ++ str " ")
     = PathUtils.isVideoUrl (str "youtube") (str "https://youtube.com/x").
Proof.
  refine ((fun H => conj (proj1 (proj2 H)) _)
            (isMedia_meaning Site.MEDIA_PREFIX (str "youtube") (str "/media_12.png")
               (str "  ") (str " ") _ _)).
  - refine (proj2 (proj2 (proj2 (proj2
              (isMedia_meaning Site.MEDIA_PREFIX (str "youtube")
                 (str "https://youtube.com/x") (str "  ") (str " ") _ _))))).
    + repeat constructor.
    + repeat constructor.
  - repeat constructor.
  - repeat constructor.
Defined.

Lemma getHashFromMedia_without_dot_witness :
  getHashFromMedia Site.MEDIA_PREFIX (str "/media_12") = str "/media_"
  /\ PathUtils.getHashFromMedia Site.MEDIA_PREFIX (str "/media_12") = str "/media_".
Proof.
  apply (getHashFromMedia_without_dot Site.MEDIA_PREFIX (str "/media_12")).
  intros H. vm_compute in H. intuition discriminate.
Defined.

Lemma extractMediaFromPath_result_witness :
  (exists a b,
      trim (str " /f/media_12.png ") = a ++ Site.MEDIA_PREFIX ++ b
      /\ PathUtils.extractMediaFromPath Site.MEDIA_PREFIX (str " /f/media_12.png ")
         = Site.MEDIA_PREFIX ++ b)
  /\ PathUtils.extractMediaFromPath Site.MEDIA_PREFIX (str " /scripts/app.js ")
     = trim (str " /scripts/app.js ")
  /\ PathUtils.extractMediaFromPath Site.MEDIA_PREFIX
       (PathUtils.extractMediaFromPath Site.MEDIA_PREFIX (str " /f/media_12.png "))
     = PathUtils.extractMediaFromPath Site.MEDIA_PREFIX (str " /f/media_12.png ").
Proof.
  split; [|split].
  - apply (proj1 (extractMediaFromPath_result Site.MEDIA_PREFIX (str " /f/media_12.png "))).
    reflexivity.
  - apply (proj1 (proj2 (extractMediaFromPath_result Site.MEDIA_PREFIX
                           (str " /scripts/app.js ")))).
    reflexivity.
  - apply (proj2 (proj2 (extractMediaFromPath_result Site.MEDIA_PREFIX
                           (str " /f/media_12.png ")))).
    repeat constructor.
Defined.

Lemma trimImagesPath_no_query_witness :
  trimImagesPath (str " ./media_77.jpg?width=750 ") = str "/media_77.jpg"
  /\ trimImagesPath (str " /icons/x.svg ") = trim (str " /icons/x.svg ").
Proof.
  split.
  - apply (proj1 (proj2 (trimImagesPath_no_query (str " ./media_77.jpg?width=750 ")))
             (str "/media_77.jpg") (str "width=750")).
    + reflexivity.
    + intros H. vm_compute in H. intuition discriminate.
  - apply (proj2 (proj2 (trimImagesPath_no_query (str " /icons/x.svg ")))
             "/"%char (str "icons/x.svg")).
    + reflexivity.
    + discriminate.
    + intros H. vm_compute in H. intuition discriminate.
Defined.

Lemma trimImagesPath_then_hash_witness :
  trimImagesPath (str " ./media_77.jpg?width=750 ")
  = Site.MEDIA_PREFIX ++ str "77" ++ str "." ++ str "jpg"
  /\ isMedia Site.MEDIA_PREFIX (trimImagesPath (str " ./media_77.jpg?width=750 ")) = true
  /\ getHashFromMedia Site.MEDIA_PREFIX (trimImagesPath (str " ./media_77.jpg?width=750 "))
     = str "77".
Proof.
  apply (trimImagesPath_then_hash Site.MEDIA_PREFIX (str " ./media_77.jpg?width=750 ")
           (str "77") (str "jpg") (str "width=750")).
  - reflexivity.
  - repeat constructor.
  - intros H. vm_compute in H. intuition discriminate.
  - intros H. vm_compute in H. intuition discriminate.
Defined.

Lemma rebase_media_entry_witness :
  exists a b,
    trim (str "/f/media_12.png") = a ++ Site.MEDIA_PREFIX ++ b
    /\ firstOccurrence (trim (str "/f/media_12.png")) Site.MEDIA_PREFIX
       = Some (List.length a)
    /\ path (rebase Site.MEDIA_PREFIX (str "/a/b/page")
               {| path := str "/f/media_12.png"; timestamp := None;
                  hash := Some (str "12") |})
       = PathUtils.getParentFromPath (str "/a/b/page") ++ Site.MEDIA_PREFIX ++ b
    /\ isMedia Site.MEDIA_PREFIX
         (path (rebase Site.MEDIA_PREFIX (str "/a/b/page")
                  {| path := str "/f/media_12.png"; timestamp := None;
                     hash := Some (str "12") |})) = true
    /\ timestamp (rebase Site.MEDIA_PREFIX (str "/a/b/page")
                    {| path := str "/f/media_12.png"; timestamp := None;
                       hash := Some (str "12") |}) = None
    /\ hash (rebase Site.MEDIA_PREFIX (str "/a/b/page")
               {| path := str "/f/media_12.png"; timestamp := None;
                  hash := Some (str "12") |}) = Some (str "12").
Proof.
  apply (rebase_media_entry Site.MEDIA_PREFIX (str "/a/b/page")
           {| path := str "/f/media_12.png"; timestamp := None;
              hash := Some (str "12") |}).
  - repeat constructor.
  - reflexivity.
  - reflexivity.
Defined.

Lemma createEntries_paths_witness :
  exists es lm t',
    createEntries Workspace.MEDIA_PREFIX Workspace.world Workspace.host (str "/home")
      (pageResourcesOf Workspace.home []) false 0%nat = Ok (es, lm, t')
    /\ map path es
       = (str "/home" ++ str ".html")
           :: flat_map (fun r => if resourceSkipped Workspace.world Workspace.host r
                                 then []
                                 else [resourcePath Workspace.MEDIA_PREFIX
                                         (PathUtils.getParentFromPath (str "/home")) r])
                (pageResourcesOf Workspace.home [])
    /\ (1 <= List.length es <= 1 + List.length (pageResourcesOf Workspace.home []))%nat.
Proof.
  eexists; eexists; eexists. split; [vm_compute; reflexivity|].
  eapply (createEntries_paths Workspace.MEDIA_PREFIX Workspace.world Workspace.host
            (str "/home") (pageResourcesOf Workspace.home []) false 0%nat).
  vm_compute; reflexivity.
Defined.

(** On the page "/home" of the working copy: the script is named twice
    and listed once, the local stylesheet is listed though the host does
    not have it, the stylesheet that is nowhere is left out, and the two
    references to the image give one media entry. *)
Example createEntries_home :
  createEntries Workspace.MEDIA_PREFIX Workspace.world Workspace.host (str "/home")
    (pageResourcesOf Workspace.home []) false 0%nat
  = Ok ([ {| path := str "/home.html"; timestamp := Some (Num 1704067200000);
             hash := None |};
          {| path := str "/scripts/app.js"; timestamp := Some (Num 1706745600000);
             hash := None |};
          {| path := str "/styles/local.css"; timestamp := None; hash := None |};
          {| path := str "/media_77.jpg"; timestamp := None;
             hash := Some (str "77") |} ],
        1706745600000, 0%nat).
Proof. vm_compute. reflexivity. Qed.

Lemma createEntries_lists_dirty_witness :
  exists es lm t',
    createEntries Workspace.MEDIA_PREFIX Workspace.world Workspace.host (str "/home")
      ([str "/scripts/app.js"] ++ str "/styles/local.css" :: [str "/styles/gone.css"])
      false 0%nat = Ok (es, lm, t')
    /\ exists es1 es2,
         es = es1
              ++ {| path := resourcePath Workspace.MEDIA_PREFIX
                              (PathUtils.getParentFromPath (str "/home"))
                              (str "/styles/local.css");
                    timestamp := None;
                    hash := if isMedia Workspace.MEDIA_PREFIX
                                 (trim (str "/styles/local.css"))
                            then Some (getHashFromMedia Workspace.MEDIA_PREFIX
                                         (trim (str "/styles/local.css")))
                            else None |}
              :: es2
         /\ createEntries Workspace.MEDIA_PREFIX Workspace.world Workspace.host
              (str "/home") ([str "/scripts/app.js"] ++ [str "/styles/gone.css"])
              false 0%nat
            = Ok (es1 ++ es2, lm, t').
Proof.
  eexists; eexists; eexists. split; [vm_compute; reflexivity|].
  apply (createEntries_lists_dirty Workspace.MEDIA_PREFIX Workspace.world Workspace.host
           (str "/home") [str "/scripts/app.js"] (str "/styles/local.css")
           [str "/styles/gone.css"] false 0%nat).
  - vm_compute; reflexivity.
  - vm_compute; reflexivity.
  - vm_compute; reflexivity.
Defined.

Lemma createEntries_permutation_witness :
  exists es lm t',
    createEntries Workspace.MEDIA_PREFIX Workspace.world Workspace.host (str "/home")
      [str "/scripts/app.js"; str "/media_77.jpg"] false 0%nat = Ok (es, lm, t')
    /\ exists pageEntryJson rest rest',
         es = pageEntryJson :: rest
         /\ Permutation rest rest'
         /\ createEntries Workspace.MEDIA_PREFIX Workspace.world Workspace.host
              (str "/home") [str "/media_77.jpg"; str "/scripts/app.js"] false 0%nat
            = Ok (pageEntryJson :: rest', lm, t').
Proof.
  eexists; eexists; eexists. split; [vm_compute; reflexivity|].
  apply (createEntries_permutation Workspace.MEDIA_PREFIX Workspace.world
           Workspace.host (str "/home") [str "/scripts/app.js"; str "/media_77.jpg"]
           [str "/media_77.jpg"; str "/scripts/app.js"] false 0%nat).
  - apply perm_swap.
  - vm_compute; reflexivity.
Defined.

Lemma resourceEntry_hash_iff_media_witness :
  exists e lm,
    resourceEntry Workspace.MEDIA_PREFIX Workspace.world Workspace.host (str "/sub")
      (str " /media_77.jpg") 0 = Some (e, lm)
    /\ (hash e <> None <-> isMedia Workspace.MEDIA_PREFIX (path e) = true).
Proof.
  eexists; eexists. split; [vm_compute; reflexivity|].
  eapply (resourceEntry_hash_iff_media Workspace.MEDIA_PREFIX Workspace.world
            Workspace.host (str "/sub") (str " /media_77.jpg") 0).
  vm_compute; reflexivity.
Defined.

Lemma createManifest_entries_order_witness :
  exists m ts t',
    createManifest Site.MEDIA_PREFIX Site.world 3 Site.host Site.manifestMap
      (str "/a/b/page") Site.fragmentUpdated [] 0%nat = Ok (m, ts, t')
    /\ exists data processed first rest,
         Site.manifestMap (str "/a/b/page") = Some data
         /\ processedEntries Site.MEDIA_PREFIX Site.world 3 Site.host Site.manifestMap
              (str "/a/b/page") Site.fragmentUpdated [] 0%nat = Ok (processed, t')
         /\ map path (entries m) = newSet (map path processed)
         /\ entries m = first :: rest
         /\ path first = dataPath data ++ str ".html".
Proof.
  eexists; eexists; eexists. split; [vm_compute; reflexivity|].
  eapply (createManifest_entries_order Site.MEDIA_PREFIX Site.world 3 Site.host
            Site.manifestMap (str "/a/b/page") Site.fragmentUpdated [] 0%nat).
  vm_compute; reflexivity.
Defined.

Lemma createManifest_needs_every_page_witness :
  exists data resp,
    Site.manifestMap (str "/f") = Some data
    /\ fetchDataWithMethod Site.world Site.host (dataPath data ++ str ".html") HEAD
       = Some resp.
Proof.
  eapply (createManifest_needs_every_page Site.MEDIA_PREFIX Site.world 3 Site.host
            Site.manifestMap (str "/a/b/page") Site.noneUpdated [] 0%nat _ (str "/f")).
  - vm_compute; reflexivity.
  - eapply Relation_Operators.rt1n_trans; [|apply Relation_Operators.rt1n_refl].
    eexists. split; [vm_compute; reflexivity|]. simpl. left. reflexivity.
Defined.

Lemma createManifest_throws_witness :
  createManifest Workspace.MEDIA_PREFIX Workspace.world 1 Workspace.host
    Workspace.manifestMap (str "/nowhere") Site.noneUpdated [] 0%nat
  = Throw TypeError
  /\ createManifest Workspace.MEDIA_PREFIX Workspace.world 1 Workspace.host
       Workspace.manifestMap (str "/unpublished") Site.noneUpdated [] 0%nat
     = Throw (ResourceUnavailable Workspace.host (str "/unpublished" ++ str ".html")).
Proof.
  split.
  - apply (proj1 (createManifest_throws Workspace.MEDIA_PREFIX Workspace.world 0
                    Workspace.host Workspace.manifestMap (str "/nowhere")
                    Site.noneUpdated [] 0%nat)).
    reflexivity.
  - apply (proj2 (createManifest_throws Workspace.MEDIA_PREFIX Workspace.world 0
                    Workspace.host Workspace.manifestMap (str "/unpublished")
                    Site.noneUpdated [] 0%nat)
             (Site.page (str "/unpublished") [] [])).
    + reflexivity.
    + reflexivity.
Defined.

(** The page "/broken" names a fragment that manifestMap does not know,
    the page "/teaser" one whose HTML the host does not have, the page
    "/loop" itself: none of them gets a manifest. *)
Example createManifest_broken_links :
  createManifest Workspace.MEDIA_PREFIX Workspace.world 3 Workspace.host
    Workspace.manifestMap (str "/broken") Site.noneUpdated [] 0%nat
  = Throw TypeError
  /\ createManifest Workspace.MEDIA_PREFIX Workspace.world 3 Workspace.host
       Workspace.manifestMap (str "/teaser") Site.noneUpdated [] 0%nat
     = Throw (ResourceUnavailable Workspace.host (str "/unpublished.html"))
  /\ createManifest Workspace.MEDIA_PREFIX Workspace.world 40 Workspace.host
       Workspace.manifestMap (str "/loop") Site.noneUpdated [] 0%nat
     = OutOfFuel.
Proof. repeat split; vm_compute; reflexivity. Qed.

Lemma createManifest_fragment_cycle_witness :
  createManifest Workspace.MEDIA_PREFIX Workspace.world 40 Workspace.host
    Workspace.manifestMap (str "/loop") Site.noneUpdated [] 0%nat
  <> Ok ({| version := str "3.0"; manifestTimestamp := 0; entries := [];
            contentDelivery := franklin |}, 0, 0%nat).
Proof.
  apply (createManifest_fragment_cycle Workspace.MEDIA_PREFIX Workspace.world 40
           Workspace.host Workspace.manifestMap (str "/loop") Site.noneUpdated [] 0%nat).
  apply Relation_Operators.t1n_step. eexists. split; [vm_compute; reflexivity|]. simpl. left. reflexivity.
Defined.

Lemma createManifest_without_fragments_witness :
  exists es lm t',
    createEntries Workspace.MEDIA_PREFIX Workspace.world Workspace.host
      (dataPath Workspace.home) (pageResourcesOf Workspace.home [])
      (Site.noneUpdated (dataPath Workspace.home)) 0%nat = Ok (es, lm, t')
    /\ createManifest Workspace.MEDIA_PREFIX Workspace.world 1 Workspace.host
         Workspace.manifestMap (str "/home") Site.noneUpdated [] 0%nat
       = Ok ({| version := str "3.0";
                manifestTimestamp := lm;
                entries := mapValues (fold_left setEntry es []);
                contentDelivery := franklin |}, lm, t').
Proof.
  eexists; eexists; eexists. split; [vm_compute; reflexivity|].
  apply (createManifest_without_fragments Workspace.MEDIA_PREFIX Workspace.world 0
           Workspace.host Workspace.manifestMap (str "/home") Workspace.home
           Site.noneUpdated [] 0%nat).
  - reflexivity.
  - reflexivity.
  - vm_compute; reflexivity.
Defined.
